(** * llmpole: the fit engine, its model records and its ranking

    A shallow embedding of the Go packages [models] (quant.go, types.go,
    the use-case classifier), [hardware] (the snapshot record) and [pole]
    (Analyze, scoreFit, estimateTPS, the score components, RankModelsByFit,
    FilterByUseCase), followed by the properties proved about them.

    Conventions of the embedding.
    - [float64] is the field of rationals [Q]: every finite float64 is a
      rational and the arithmetic is exact.  Rounding, the infinities and
      NaN are not represented.  The comparisons of Go ([<], [<=], [>], [>=])
      are the boolean comparisons of [Q].
    - In Go a float64 division by zero does not stop the program, it yields
      an infinity or NaN.  [Q] has no such value, so a division whose divisor
      is a run-time value is partial here ([fdiv]): a result [Ok] certifies
      that the division was never taken at zero.  Divisions by a non-zero
      literal stay total.
    - A Go pointer field ([*float64], [*uint32], [*uint64]) is an [option];
      [nil] is [None].  A dereference [*p] is [deref p], which panics on
      [None]; the surrounding [!= nil] test is written out as in the source.
    - [uint32] and [uint64] values are [N]; no operation of the embedded code
      can wrap ([ctx / 2], [target / 2] only).  [int] is [Z].
    - A Go [string] is a [string] of bytes; the case mappings and the
      white-space trimming act on ASCII. *)

From Stdlib Require Import QArith Qround Qabs Lqa ZArith NArith Lia.
From Stdlib Require Import String Ascii List Bool.
From Stdlib Require Import Permutation Sorted.
Import ListNotations.

Open Scope Q_scope.
Open Scope string_scope.

(** ** Numbers *)

Definition float64 : Type := Q.

(** [x < y] and [x <= y] as Go evaluates them, to a [bool]. *)
Definition fle (x y : float64) : bool := Qle_bool x y.
Definition flt (x y : float64) : bool := negb (Qle_bool y x).

(** [math.MaxFloat64] = (2^53 - 1) * 2^971. *)
Definition MaxFloat64 : float64 :=
  inject_Z ((2 ^ 53 - 1) * 2 ^ 971).

(** [float64(n)] for an unsigned integer. *)
Definition float64_of_N (n : N) : float64 := inject_Z (Z.of_N n).

(** [math.Round]: nearest integer, halves away from zero. *)
Definition Round (x : float64) : float64 :=
  if flt x 0 then inject_Z (- Qfloor (- x + 0.5))
  else inject_Z (Qfloor (x + 0.5)).

(** ** Panics *)

Inductive panic : Type :=
| NilDereference
| DivideByZero.

Inductive result (A : Type) : Type :=
| Ok (a : A)
| Panic (p : panic).
Arguments Ok {A} a.
Arguments Panic {A} p.

Definition bind {A B : Type} (c : result A) (k : A -> result B) : result B :=
  match c with
  | Ok a => k a
  | Panic p => Panic p
  end.

Notation "x <- c ;; k" := (bind c (fun x => k))
  (at level 61, c at next level, right associativity).
Notation "' pat <- c ;; k" := (bind c (fun x => match x with pat => k end))
  (at level 61, pat pattern, c at next level, right associativity).

(** [*p] *)
Definition deref {A : Type} (p : option A) : result A :=
  match p with
  | Some a => Ok a
  | None => Panic NilDereference
  end.

(** [p != nil] *)
Definition notnil {A : Type} (p : option A) : bool :=
  match p with
  | Some _ => true
  | None => false
  end.

(** [x / y] with a run-time divisor. *)
Definition fdiv (x y : float64) : result float64 :=
  if Qeq_bool y 0 then Panic DivideByZero else Ok (x / y).

(** ** The parts of package [strings] and [strconv] the code calls *)

Module strings.

Definition byte_between (lo hi : N) (c : ascii) : bool :=
  ((lo <=? N_of_ascii c) && (N_of_ascii c <=? hi))%N.

Definition upper_byte (c : ascii) : ascii :=
  if byte_between 97 122 c then ascii_of_N (N_of_ascii c - 32) else c.

Definition lower_byte (c : ascii) : ascii :=
  if byte_between 65 90 c then ascii_of_N (N_of_ascii c + 32) else c.

Fixpoint map_bytes (f : ascii -> ascii) (s : string) : string :=
  match s with
  | EmptyString => EmptyString
  | String c r => String (f c) (map_bytes f r)
  end.

Definition ToUpper (s : string) : string := map_bytes upper_byte s.
Definition ToLower (s : string) : string := map_bytes lower_byte s.

(** '\t', '\n', '\v', '\f', '\r' and ' '. *)
Definition isSpace (c : ascii) : bool :=
  byte_between 9 13 c || (N_of_ascii c =? 32)%N.

Fixpoint trimLeft (s : string) : string :=
  match s with
  | String c r => if isSpace c then trimLeft r else s
  | EmptyString => EmptyString
  end.

(** Drops the trailing white space: a byte is kept when it is not a space
    or when something is kept after it. *)
Fixpoint trimRight (s : string) : string :=
  match s with
  | EmptyString => EmptyString
  | String c r =>
      match trimRight r with
      | EmptyString => if isSpace c then EmptyString else String c EmptyString
      | r' => String c r'
      end
  end.

Definition TrimSpace (s : string) : string := trimRight (trimLeft s).

Fixpoint HasPrefix (s p : string) : bool :=
  match p, s with
  | EmptyString, _ => true
  | String _ _, EmptyString => false
  | String a p', String b s' => Ascii.eqb a b && HasPrefix s' p'
  end.

Fixpoint Contains (s sub : string) : bool :=
  HasPrefix s sub ||
  match s with
  | EmptyString => false
  | String _ r => Contains r sub
  end.

Definition HasSuffix (s suf : string) : bool :=
  (String.length suf <=? String.length s)%nat &&
  String.eqb (substring (String.length s - String.length suf)
                        (String.length suf) s) suf.

(** [s[:len(s)-1]] *)
Definition dropLast (s : string) : string :=
  substring 0 (String.length s - 1) s.

End strings.

Module strconv.

Definition digit (c : ascii) : option Z :=
  if strings.byte_between 48 57 c then Some (Z.of_N (N_of_ascii c) - 48)%Z
  else None.

(** Reads a run of decimal digits: the accumulated value, how many digits
    were read, and the rest of the input. *)
Fixpoint readDigits (s : string) (acc : Z) (cnt : Z) : Z * Z * string :=
  match s with
  | String c r =>
      match digit c with
      | Some d => readDigits r (10 * acc + d)%Z (cnt + 1)%Z
      | None => (acc, cnt, s)
      end
  | EmptyString => (acc, cnt, s)
  end.

Definition readSign (s : string) : bool * string :=
  match s with
  | String "+" r => (false, r)
  | String "-" r => (true, r)
  | _ => (false, s)
  end.

(** [strconv.ParseFloat(s, 64)] on decimal input: an optional sign, digits
    with at most one point and at least one digit, an optional exponent
    [e] or [E] with optional sign and at least one digit, and nothing after.
    The pair is the value and whether [err == nil]; on a syntax error the
    value is 0, as in Go.  Go also reads hexadecimal mantissas and the words
    inf, infinity and nan; these have no counterpart here and count as
    syntax errors. *)
Definition ParseFloat (s : string) : float64 * bool :=
  let '(neg, s1) := readSign s in
  let '(ip, n1, s2) := readDigits s1 0%Z 0%Z in
  let '(mant, n2, s3) :=
    match s2 with
    | String "." r => readDigits r ip 0%Z
    | _ => (ip, 0%Z, s2)
    end in
  if (n1 + n2 =? 0)%Z then (0, false)
  else
    let exponent : option (Z * string) :=
      match s3 with
      | String c r =>
          if Ascii.eqb c "e" || Ascii.eqb c "E" then
            let '(eneg, r1) := readSign r in
            let '(e, ne, r2) := readDigits r1 0%Z 0%Z in
            if (ne =? 0)%Z then None
            else Some (if eneg then (- e)%Z else e, r2)
          else Some (0%Z, s3)
      | EmptyString => Some (0%Z, s3)
      end in
    match exponent with
    | Some (e, EmptyString) =>
        let v := inject_Z mant * Qpower 10 (e - n2) in
        (if neg then - v else v, true)
    | _ => (0, false)
    end.

End strconv.

(** ** Go maps with string keys

    A [map[string]V] is the list of its assignments, newest first: the
    assignment [m[k] = v] puts a binding in front and a read [m[k]] takes the
    first binding of the key. *)

Module gomap.

Definition t (V : Type) : Type := list (string * V).

Definition empty {V : Type} : t V := [].

Definition set {V : Type} (m : t V) (k : string) (v : V) : t V := (k, v) :: m.

Fixpoint get {V : Type} (m : t V) (k : string) : option V :=
  match m with
  | [] => None
  | (k', v) :: rest => if String.eqb k k' then Some v else get rest k
  end.

End gomap.

(** ** Package [models] *)

Module models.

(** *** quant.go *)

Definition QuantHierarchy : list string :=
  ["Q8_0"; "Q6_K"; "Q5_K_M"; "Q4_K_M"; "Q3_K_M"; "Q2_K"].

Definition isOneOf (s : string) (l : list string) : bool :=
  existsb (String.eqb s) l.

Definition QuantBPP (quant : string) : float64 :=
  if isOneOf quant ["F32"] then 4.0
  else if isOneOf quant ["F16"; "BF16"] then 2.0
  else if isOneOf quant ["Q8_0"] then 1.05
  else if isOneOf quant ["Q6_K"] then 0.80
  else if isOneOf quant ["Q5_K_M"] then 0.68
  else if isOneOf quant ["Q4_K_M"; "Q4_0"] then 0.58
  else if isOneOf quant ["Q3_K_M"] then 0.48
  else if isOneOf quant ["Q2_K"] then 0.37
  else 0.58.

Definition QuantSpeedMultiplier (quant : string) : float64 :=
  if isOneOf quant ["F16"; "BF16"] then 0.6
  else if isOneOf quant ["Q8_0"] then 0.8
  else if isOneOf quant ["Q6_K"] then 0.95
  else if isOneOf quant ["Q5_K_M"] then 1.0
  else if isOneOf quant ["Q4_K_M"; "Q4_0"] then 1.15
  else if isOneOf quant ["Q3_K_M"] then 1.25
  else if isOneOf quant ["Q2_K"] then 1.35
  else 1.0.

Definition QuantQualityPenalty (quant : string) : float64 :=
  if isOneOf quant ["F16"; "BF16"; "Q8_0"] then 0.0
  else if isOneOf quant ["Q6_K"] then - 1.0
  else if isOneOf quant ["Q5_K_M"] then - 2.0
  else if isOneOf quant ["Q4_K_M"; "Q4_0"] then - 5.0
  else if isOneOf quant ["Q3_K_M"] then - 8.0
  else if isOneOf quant ["Q2_K"] then - 12.0
  else - 5.0.

(** *** types.go *)

Inductive UseCase : Type :=
| UseCaseGeneral
| UseCaseCoding
| UseCaseReasoning
| UseCaseChat
| UseCaseMultimodal
| UseCaseEmbedding.

Definition UseCase_eqb (a b : UseCase) : bool :=
  match a, b with
  | UseCaseGeneral, UseCaseGeneral
  | UseCaseCoding, UseCaseCoding
  | UseCaseReasoning, UseCaseReasoning
  | UseCaseChat, UseCaseChat
  | UseCaseMultimodal, UseCaseMultimodal
  | UseCaseEmbedding, UseCaseEmbedding => true
  | _, _ => false
  end.

(** The field [UseCase] of the Go struct is [UseCaseText] here: the name
    [UseCase] is the type above. *)
Record LlmModel : Type := {
  Name : string;
  Provider : string;
  ParameterCount : string;
  ParametersRaw : option N;
  MinRAMGB : float64;
  RecommendedRAMGB : float64;
  MinVRAMGB : option float64;
  Quantization : string;
  ContextLength : N;
  UseCaseText : string;
  IsMoE : bool;
  NumExperts : option N;
  ActiveExperts : option N;
  ActiveParameters : option N
}.

Definition ParamsB (m : LlmModel) : float64 :=
  match ParametersRaw m with
  | Some raw => float64_of_N raw / 1e9
  | None =>
      let s := strings.TrimSpace (strings.ToUpper (ParameterCount m)) in
      if strings.HasSuffix s "B" then
        let '(n, _) := strconv.ParseFloat (strings.TrimSpace (strings.dropLast s)) in
        n
      else if strings.HasSuffix s "M" then
        let '(n, _) := strconv.ParseFloat (strings.TrimSpace (strings.dropLast s)) in
        n / 1000
      else 7.0
  end.

Definition EstimateMemoryGB (m : LlmModel) (quant : string) (ctx : N) : float64 :=
  let bpp := QuantBPP quant in
  let params := ParamsB m in
  let modelMem := params * bpp in
  let kvCache := 0.000008 * params * float64_of_N ctx in
  let overhead := 0.5 in
  modelMem + kvCache + overhead.

(** The loop [for _, q := range qs { mem := ...; if mem <= budgetGB { return q, mem } }];
    [None] when the loop runs to its end. *)
Fixpoint scanQuants (m : LlmModel) (budgetGB : float64) (ctx : N)
    (qs : list string) : option (string * float64) :=
  match qs with
  | [] => None
  | q :: rest =>
      let mem := EstimateMemoryGB m q ctx in
      if fle mem budgetGB then Some (q, mem)
      else scanQuants m budgetGB ctx rest
  end.

Definition BestQuantForBudget (m : LlmModel) (budgetGB : float64) (ctx : N)
    : string * float64 :=
  match scanQuants m budgetGB ctx QuantHierarchy with
  | Some r => r
  | None =>
      let halfCtx := (ctx / 2)%N in
      match (if (1024 <=? halfCtx)%N
             then scanQuants m budgetGB halfCtx QuantHierarchy
             else None) with
      | Some r => r
      | None => (Quantization m, EstimateMemoryGB m (Quantization m) ctx)
      end
  end.

Definition quantBPP (m : LlmModel) : float64 := QuantBPP (Quantization m).

Definition GiB : float64 := inject_Z (1024 * 1024 * 1024).

Definition MoeActiveVRAMGB (m : LlmModel) : result (option float64) :=
  if negb (IsMoE m) || negb (notnil (ActiveParameters m)) then Ok None
  else
    ap <- deref (ActiveParameters m) ;;
    let activeParams := float64_of_N ap in
    let bpp := quantBPP m in
    let sizeGB := (activeParams * bpp) / GiB in
    let v := sizeGB * 1.1 in
    let v := if flt v 0.5 then 0.5 else v in
    Ok (Some v).

Definition MoeOffloadedRAMGB (m : LlmModel) : result (option float64) :=
  if negb (IsMoE m) || negb (notnil (ActiveParameters m))
     || negb (notnil (ParametersRaw m)) then Ok None
  else
    ap <- deref (ActiveParameters m) ;;
    raw <- deref (ParametersRaw m) ;;
    let active := float64_of_N ap in
    let total := float64_of_N raw in
    let inactive := total - active in
    if fle inactive 0 then Ok (Some 0.0)
    else
      let bpp := quantBPP m in
      let v := (inactive * bpp) / GiB in
      Ok (Some v).

(** *** The use-case classifier *)

Definition UseCaseFromModel (m : LlmModel) : UseCase :=
  let name := strings.ToLower (Name m) in
  let uc := strings.ToLower (UseCaseText m) in
  if strings.Contains uc "embedding" || strings.Contains name "embed"
     || strings.Contains name "bge" then UseCaseEmbedding
  else if strings.Contains name "code" || strings.Contains uc "code" then UseCaseCoding
  else if strings.Contains uc "vision" || strings.Contains uc "multimodal" then UseCaseMultimodal
  else if strings.Contains uc "reason" || strings.Contains uc "chain-of-thought"
          || strings.Contains name "deepseek-r1" then UseCaseReasoning
  else if strings.Contains uc "chat" || strings.Contains uc "instruction" then UseCaseChat
  else UseCaseGeneral.

(** *** [UseCase.String] *)

Definition UseCase_String (u : UseCase) : string :=
  match u with
  | UseCaseGeneral => "General"
  | UseCaseCoding => "Coding"
  | UseCaseReasoning => "Reasoning"
  | UseCaseChat => "Chat"
  | UseCaseMultimodal => "Multimodal"
  | UseCaseEmbedding => "Embedding"
  end.

(** *** db.go: the merge of the bundled list with the overlay, and the search

    A slice [[]*LlmModel] that the code fills by reading a map holds
    pointers that may be nil: its elements are [option LlmModel].  The
    slices handed in hold records. *)

(** [seen[k]]: a missing key reads as [false]. *)
Definition seenGet (seen : gomap.t bool) (k : string) : bool :=
  match gomap.get seen k with
  | Some b => b
  | None => false
  end.

Definition mergeModels (base overlay : list LlmModel) : list (option LlmModel) :=
  let byName : gomap.t LlmModel := gomap.empty in
  let byName := fold_left (fun byName m => gomap.set byName (Name m) m) base byName in
  let byName := fold_left (fun byName m => gomap.set byName (Name m) m) overlay byName in
  let out : list (option LlmModel) := [] in
  let out := fold_left (fun out m => out ++ [gomap.get byName (Name m)])%list base out in
  let seen : gomap.t bool := gomap.empty in
  let seen := fold_left (fun seen m => gomap.set seen (Name m) true) base seen in
  let '(out, _) :=
    fold_left
      (fun '(out, seen) m =>
         if negb (seenGet seen (Name m))
         then ((out ++ [Some m])%list, gomap.set seen (Name m) true)
         else (out, seen))
      overlay (out, seen) in
  out.

(** The field [models] of the Go struct is [allModels] here. *)
Record ModelDatabase : Type := {
  allModels : list LlmModel
}.

Definition GetAllModels (db : ModelDatabase) : list LlmModel := allModels db.

Definition FindModel (db : ModelDatabase) (query : string) : list LlmModel :=
  let q := strings.ToLower query in
  fold_left
    (fun out m =>
       if strings.Contains (strings.ToLower (Name m)) q
          || strings.Contains (strings.ToLower (Provider m)) q
          || strings.Contains (strings.ToLower (ParameterCount m)) q
       then (out ++ [m])%list else out)
    (allModels db) [].

(** The loop of [AppendModelToCache] over the overlay it has read: the first
    entry of the same name is replaced, and without one the model is
    appended. *)
Fixpoint replaceFirstByName (overlay : list LlmModel) (m : LlmModel)
    : list LlmModel * bool :=
  match overlay with
  | [] => ([], false)
  | existing :: rest =>
      if String.eqb (Name existing) (Name m) then (m :: rest, true)
      else let '(rest', found) := replaceFirstByName rest m in
           (existing :: rest', found)
  end.

Definition upsertOverlay (overlay : list LlmModel) (m : LlmModel) : list LlmModel :=
  let '(overlay, found) := replaceFirstByName overlay m in
  if negb found then (overlay ++ [m])%list else overlay.

(** *** The budget search in the words of its description

    Scan the hierarchy from best fidelity to most compressed and take the
    first quantization whose estimate fits; when none fits and the halved
    context is at least 1024, do the same at the halved context; otherwise
    the declared default quantization with its estimate.  [find] returns the
    first element of a list that passes a test. *)
Definition firstFit (m : LlmModel) (budgetGB : float64) (ctx : N) : option string :=
  find (fun q => fle (EstimateMemoryGB m q ctx) budgetGB) QuantHierarchy.

Definition BestQuantForBudget_described (m : LlmModel) (budgetGB : float64) (ctx : N)
    : string * float64 :=
  match firstFit m budgetGB ctx with
  | Some q => (q, EstimateMemoryGB m q ctx)
  | None =>
      if (1024 <=? ctx / 2)%N then
        match firstFit m budgetGB (ctx / 2) with
        | Some q => (q, EstimateMemoryGB m q (ctx / 2))
        | None => (Quantization m, EstimateMemoryGB m (Quantization m) ctx)
        end
      else (Quantization m, EstimateMemoryGB m (Quantization m) ctx)
  end.

End models.

(** ** Package [hardware]: the snapshot the fit engine reads *)

Module hardware.

Inductive GpuBackend : Type :=
| BackendCuda
| BackendMetal
| BackendRocm
| BackendVulkan
| BackendSycl
| BackendCpuArm
| BackendCpuX86.

Record GpuInfo : Type := {
  GpuInfoName : string;
  VRAMGB : option float64;
  GpuInfoBackend : GpuBackend;
  Count : N;
  GpuInfoUnifiedMemory : bool
}.

Record SystemSpecs : Type := {
  TotalRAMGB : float64;
  AvailableRAMGB : float64;
  TotalCPUCores : Z;
  CPUName : string;
  HasGPU : bool;
  GpuVRAMGB : option float64;
  GpuName : option string;
  GpuCount : N;
  UnifiedMemory : bool;
  Backend : GpuBackend;
  Gpus : list GpuInfo
}.

End hardware.

(** ** [sort.Slice] of the Go library

    The library sorts a slice of at most twelve elements by insertion
    ([insertionSortLessFunc]): for each [i], the element at [i] sinks to the
    left while [less] puts it before its left neighbour.  That loop is the
    model; the sorted prefix is held in reverse, its head being the left
    neighbour [data[j-1]].  On longer slices the library mixes other
    strategies in and may order tied elements differently. *)

Module sort.
Section Slice.
Context {A : Type} (less : A -> A -> bool).

Fixpoint sink (x : A) (revPrefix : list A) : list A :=
  match revPrefix with
  | [] => [x]
  | y :: r => if less x y then y :: sink x r else x :: y :: r
  end.

Definition Slice (data : list A) : list A :=
  rev (fold_left (fun revPrefix x => sink x revPrefix) data []).
End Slice.
End sort.

(** ** Package [hardware]: [Detect], from the probes on

    [Detect] reads the memory, the CPU and the GPUs of the machine and then
    builds the snapshot.  The readings are arguments here: the memory probe
    ([None] when it fails, else total and available bytes), what
    [availableFromVMStat] returns, the entries of [cpu.Info] (model name and
    vendor), [runtime.NumCPU], and the list of [detectAllGPUs].  [None] is
    the error return. *)

Module detect.
Import hardware.

Definition gb : float64 := inject_Z (1024 * 1024 * 1024).

Definition backendCPU (GOARCH cpuName : string) : GpuBackend :=
  let lower := strings.ToLower cpuName in
  if strings.Contains lower "apple" || String.eqb GOARCH "arm64"
  then BackendCpuArm else BackendCpuX86.

Definition availableRAMFallback (GOOS : string) (vmStat totalGB : float64)
    : float64 :=
  if String.eqb GOOS "darwin" then
    if flt 0 vmStat then vmStat else totalGB * 0.8
  else totalGB * 0.8.

(** [vi := 0.0; if gpus[i].VRAMGB != nil { vi = *gpus[i].VRAMGB }] *)
Definition vramOrZero (g : GpuInfo) : float64 :=
  match VRAMGB g with
  | Some v => v
  | None => 0.0
  end.

(** The comparator of the sort: [vj < vi]. *)
Definition gpuLess (gi gj : GpuInfo) : bool := flt (vramOrZero gj) (vramOrZero gi).

Definition Detect (GOOS GOARCH : string) (memory : option (N * N))
    (vmStat : float64) (infos : list (string * string)) (numCPU : Z)
    (detected : list GpuInfo) : option SystemSpecs :=
  match memory with
  | None => None
  | Some (total, available) =>
      let totalRAMGB := float64_of_N total / gb in
      let availableRAMGB := float64_of_N available / gb in
      let availableRAMGB :=
        if (available =? 0)%N && (0 <? total)%N
        then availableRAMFallback GOOS vmStat totalRAMGB
        else availableRAMGB in
      let cpuName :=
        match infos with
        | (modelName, vendorID) :: _ =>
            if String.eqb modelName "" then vendorID else modelName
        | [] => "Unknown CPU"
        end in
      let gpus := sort.Slice gpuLess detected in
      let hasGPU := (0 <? length gpus)%nat in
      Some
        match gpus with
        | primary :: _ =>
            {| TotalRAMGB := totalRAMGB;
               AvailableRAMGB := availableRAMGB;
               TotalCPUCores := numCPU;
               CPUName := cpuName;
               HasGPU := hasGPU;
               GpuVRAMGB := VRAMGB primary;
               GpuName := Some (GpuInfoName primary);
               GpuCount := Count primary;
               UnifiedMemory := GpuInfoUnifiedMemory primary;
               Backend := GpuInfoBackend primary;
               Gpus := gpus |}
        | [] =>
            {| TotalRAMGB := totalRAMGB;
               AvailableRAMGB := availableRAMGB;
               TotalCPUCores := numCPU;
               CPUName := cpuName;
               HasGPU := hasGPU;
               GpuVRAMGB := None;
               GpuName := None;
               GpuCount := 0;
               UnifiedMemory := false;
               Backend := backendCPU GOARCH cpuName;
               Gpus := gpus |}
        end
  end.

End detect.

(** ** Package [pole] *)

Module pole.
Import models hardware.
Local Open Scope list_scope.

Inductive FitLevel : Type :=
| FitPerfect
| FitGood
| FitMarginal
| FitTooTight.

Inductive RunMode : Type :=
| RunModeGpu
| RunModeMoeOffload
| RunModeCpuOffload
| RunModeCpuOnly.

Definition FitLevel_eqb (a b : FitLevel) : bool :=
  match a, b with
  | FitPerfect, FitPerfect | FitGood, FitGood
  | FitMarginal, FitMarginal | FitTooTight, FitTooTight => true
  | _, _ => false
  end.

Definition RunMode_eqb (a b : RunMode) : bool :=
  match a, b with
  | RunModeGpu, RunModeGpu | RunModeMoeOffload, RunModeMoeOffload
  | RunModeCpuOffload, RunModeCpuOffload | RunModeCpuOnly, RunModeCpuOnly => true
  | _, _ => false
  end.

Record ScoreComponents : Type := {
  Quality : float64;
  Speed : float64;
  Fit : float64;
  Context : float64
}.

(** The notes of a fit result.  The source formats each one into a string
    with [fmt.Sprintf]; here a note is its template together with the
    values formatted into it. *)
Inductive Note : Type :=
| NoteUnifiedMemory
| NoteMoeUnifiedPool (ne nn : N)
| NoteGpuLoaded
| NoteMoeAllInVram (nn : N)
| NoteSpillToRam
| NoteSlow
| NoteInsufficient
| NoteNeed (minVram minRam : float64)
| NoteVramUnknown
| NoteCpuOnly
| NoteMoeNeedsGpu
| NoteMoeActive (ne nn : N) (moeVram : float64)
| NoteInactiveOffloaded (offloadGB : float64)
| NoteMoeInsufficientVram
| NoteSpillEntireModel
| NoteNeedMoe (totalVram mav : float64)
| NoteNoGpu
| NoteLowCoreCount
| NoteBestQuant (bestQuant modelDefault : string)
| NoteEstimatedSpeed (tps : float64).

(** The fields [FitLevel], [RunMode], [ScoreComponents] and [UseCase] of the
    Go struct carry the suffix [Of]: their Go names are the types. *)
Record ModelFit : Type := {
  Model : LlmModel;
  FitLevelOf : FitLevel;
  RunModeOf : RunMode;
  MemoryRequiredGB : float64;
  MemoryAvailableGB : float64;
  UtilizationPct : float64;
  Notes : list Note;
  MoeOffloadedGB : option float64;
  Score : float64;
  ScoreComponentsOf : ScoreComponents;
  EstimatedTPS : float64;
  BestQuant : string;
  UseCaseOf : UseCase
}.

Definition cpuPath (model : LlmModel) (system : SystemSpecs) (notes : list Note)
    : RunMode * float64 * float64 * list Note :=
  let notes := notes ++ [NoteCpuOnly] in
  let notes := if IsMoE model then notes ++ [NoteMoeNeedsGpu] else notes in
  (RunModeCpuOnly, MinRAMGB model, AvailableRAMGB system, notes).

(** [if p != nil { x = *p }] over an initial [x]. *)
Definition derefOr {A : Type} (p : option A) (x : A) : result A :=
  if notnil p then deref p else Ok x.

Definition moeOffloadPath (model : LlmModel) (system : SystemSpecs)
    (systemVram totalVram : float64) (notes : list Note)
    : result (RunMode * float64 * float64 * list Note) :=
  moeVram <- MoeActiveVRAMGB model ;;
  taken <-
    (if notnil moeVram then
       offload <- MoeOffloadedRAMGB model ;;
       offloadGB <- derefOr offload 0.0 ;;
       mv <- deref moeVram ;;
       if fle mv systemVram && fle offloadGB (AvailableRAMGB system) then
         ne <- derefOr (ActiveExperts model) 0%N ;;
         nn <- derefOr (NumExperts model) 0%N ;;
         let notes := notes ++ [NoteMoeActive ne nn mv] in
         let notes := notes ++ [NoteInactiveOffloaded offloadGB] in
         Ok (Some (RunModeMoeOffload, mv, systemVram, notes))
       else Ok None
     else Ok None) ;;
  match taken with
  | Some r => Ok r
  | None =>
      if fle (MinRAMGB model) (AvailableRAMGB system) then
        let notes := notes ++ [NoteMoeInsufficientVram] in
        let notes := notes ++ [NoteSpillEntireModel] in
        let notes := notes ++ [NoteSlow] in
        Ok (RunModeCpuOffload, MinRAMGB model, AvailableRAMGB system, notes)
      else
        let notes := notes ++ [NoteInsufficient] in
        again <- MoeActiveVRAMGB model ;;
        mav <- (if notnil again then
                  p <- MoeActiveVRAMGB model ;; deref p
                else Ok totalVram) ;;
        let notes := notes ++ [NoteNeedMoe totalVram mav] in
        Ok (RunModeGpu, totalVram, systemVram, notes)
  end.

Definition scoreFit (memRequired memAvailable recommended : float64)
    (runMode : RunMode) : FitLevel :=
  if flt memAvailable memRequired then FitTooTight
  else
    match runMode with
    | RunModeGpu =>
        if fle recommended memAvailable then FitPerfect
        else if fle (memRequired * 1.2) memAvailable then FitGood
        else FitMarginal
    | RunModeMoeOffload | RunModeCpuOffload =>
        if fle (memRequired * 1.2) memAvailable then FitGood
        else FitMarginal
    | RunModeCpuOnly => FitMarginal
    end.

Definition qualityScore (model : LlmModel) (quant : string) (useCase : UseCase)
    : float64 :=
  let params := ParamsB model in
  let base :=
    if flt params 1 then 30
    else if flt params 3 then 45
    else if flt params 7 then 60
    else if flt params 10 then 75
    else if flt params 20 then 82
    else if flt params 40 then 89
    else 95 in
  let nameLower := strings.ToLower (Name model) in
  let familyBump :=
    if strings.Contains nameLower "qwen" then 2
    else if strings.Contains nameLower "deepseek" then 3
    else if strings.Contains nameLower "llama" then 2
    else if strings.Contains nameLower "mistral"
            || strings.Contains nameLower "mixtral" then 1
    else if strings.Contains nameLower "gemma" then 1
    else if strings.Contains nameLower "starcoder" then 1
    else 0.0 in
  let qPenalty := QuantQualityPenalty quant in
  let taskBump :=
    match useCase with
    | UseCaseCoding =>
        if strings.Contains nameLower "code"
           || strings.Contains nameLower "starcoder"
           || strings.Contains nameLower "wizard" then 6 else 0.0
    | UseCaseReasoning => if fle 13 params then 5 else 0.0
    | UseCaseMultimodal =>
        if strings.Contains nameLower "vision"
           || strings.Contains (strings.ToLower (UseCaseText model)) "vision"
        then 6 else 0.0
    | _ => 0.0
    end in
  let v := base + familyBump + qPenalty + taskBump in
  let v := if flt v 0 then 0 else v in
  let v := if flt 100 v then 100 else v in
  v.

Definition speedScore (tps : float64) (useCase : UseCase) : result float64 :=
  let target :=
    if UseCase_eqb useCase UseCaseReasoning then 25
    else if UseCase_eqb useCase UseCaseEmbedding then 200
    else 40.0 in
  q <- fdiv tps target ;;
  let v := q * 100 in
  let v := if flt v 0 then 0 else v in
  let v := if flt 100 v then 100 else v in
  Ok v.

Definition fitScore (required available : float64) : result float64 :=
  if fle available 0 || flt available required then Ok 0
  else
    ratio <- fdiv required available ;;
    if fle ratio 0.5 then Ok (60 + (ratio / 0.5) * 40)
    else if fle ratio 0.8 then Ok 100
    else if fle ratio 0.9 then Ok 70
    else Ok 50.

Definition contextScore (model : LlmModel) (useCase : UseCase) : float64 :=
  let target : N :=
    match useCase with
    | UseCaseCoding | UseCaseReasoning => 8192
    | UseCaseEmbedding => 512
    | _ => 4096
    end%N in
  if (target <=? ContextLength model)%N then 100
  else if (target / 2 <=? ContextLength model)%N then 70
  else 30.

Definition computeScores (model : LlmModel) (quant : string) (useCase : UseCase)
    (estimatedTPS memRequired memAvailable : float64) : result ScoreComponents :=
  let quality := qualityScore model quant useCase in
  speed <- speedScore estimatedTPS useCase ;;
  fit <- fitScore memRequired memAvailable ;;
  Ok {| Quality := quality;
        Speed := speed;
        Fit := fit;
        Context := contextScore model useCase |}.

Definition weightedScore (sc : ScoreComponents) (useCase : UseCase) : float64 :=
  let '(wq, ws, wf, wc) :=
    match useCase with
    | UseCaseGeneral => (0.45, 0.30, 0.15, 0.10)
    | UseCaseCoding => (0.50, 0.20, 0.15, 0.15)
    | UseCaseReasoning => (0.55, 0.15, 0.15, 0.15)
    | UseCaseChat => (0.40, 0.35, 0.15, 0.10)
    | UseCaseMultimodal => (0.50, 0.20, 0.15, 0.15)
    | UseCaseEmbedding => (0.30, 0.40, 0.20, 0.10)
    end in
  let raw := Quality sc * wq + Speed sc * ws + Fit sc * wf + Context sc * wc in
  Round (raw * 10) / 10.

Section Arch.
(** [runtime.GOARCH], fixed when the program is built. *)
Variable GOARCH : string.

Definition estimateTPS (model : LlmModel) (quant : string)
    (system : SystemSpecs) (runMode : RunMode) : result float64 :=
  let k :=
    match Backend system with
    | BackendCuda => 220
    | BackendMetal => 160
    | BackendRocm => 180
    | BackendVulkan => 150
    | BackendSycl => 100
    | BackendCpuArm => 90
    | BackendCpuX86 => 70
    end in
  let params := ParamsB model in
  let params := if flt params 0.1 then 0.1 else params in
  q <- fdiv k params ;;
  let base := q * QuantSpeedMultiplier quant in
  let base := if (8 <=? TotalCPUCores system)%Z then base * 1.1 else base in
  let base :=
    match runMode with
    | RunModeMoeOffload => base * 0.8
    | RunModeCpuOffload => base * 0.5
    | RunModeCpuOnly => base * 0.3
    | RunModeGpu => base
    end in
  base <-
    (if RunMode_eqb runMode RunModeCpuOnly then
       let cpuK := if String.eqb GOARCH "arm64" then 90 else 70.0 in
       q <- fdiv cpuK params ;;
       let base := q * QuantSpeedMultiplier quant in
       let base := if (8 <=? TotalCPUCores system)%Z then base * 1.1 else base in
       Ok base
     else Ok base) ;;
  let base := if flt base 0.1 then 0.1 else base in
  Ok base.

(** The decision tree of [Analyze]: run mode, required and available
    memory, and the notes so far. *)
Definition chooseRunMode (model : LlmModel) (system : SystemSpecs)
    (minVram : float64) (notes : list Note)
    : result (RunMode * float64 * float64 * list Note) :=
  if HasGPU system then
    if UnifiedMemory system then
      if notnil (GpuVRAMGB system) then
        let notes := notes ++ [NoteUnifiedMemory] in
        notes <-
          (if IsMoE model && notnil (NumExperts model) then
             ne <- derefOr (ActiveExperts model) 0%N ;;
             nn <- deref (NumExperts model) ;;
             Ok (notes ++ [NoteMoeUnifiedPool ne nn])
           else Ok notes) ;;
        vram <- deref (GpuVRAMGB system) ;;
        Ok (RunModeGpu, minVram, vram, notes)
      else Ok (cpuPath model system notes)
    else if notnil (GpuVRAMGB system) then
      sysVram <- deref (GpuVRAMGB system) ;;
      if fle minVram sysVram then
        let notes := notes ++ [NoteGpuLoaded] in
        notes <-
          (if IsMoE model && notnil (NumExperts model) then
             nn <- deref (NumExperts model) ;;
             Ok (notes ++ [NoteMoeAllInVram nn])
           else Ok notes) ;;
        Ok (RunModeGpu, minVram, sysVram, notes)
      else if IsMoE model then
        moeOffloadPath model system sysVram minVram notes
      else if fle (MinRAMGB model) (AvailableRAMGB system) then
        let notes := notes ++ [NoteSpillToRam] in
        let notes := notes ++ [NoteSlow] in
        Ok (RunModeCpuOffload, MinRAMGB model, AvailableRAMGB system, notes)
      else
        let notes := notes ++ [NoteInsufficient] in
        let notes := notes ++ [NoteNeed minVram (MinRAMGB model)] in
        Ok (RunModeGpu, minVram, sysVram, notes)
    else
      let notes := notes ++ [NoteVramUnknown] in
      Ok (cpuPath model system notes)
  else Ok (cpuPath model system notes).

Definition Analyze (model : LlmModel) (system : SystemSpecs) : result ModelFit :=
  minVram <- derefOr (MinVRAMGB model) (MinRAMGB model) ;;
  let useCase := UseCaseFromModel model in
  '(runMode, memRequired, memAvailable, notes) <-
    chooseRunMode model system minVram [] ;;
  let fitLevel := scoreFit memRequired memAvailable (RecommendedRAMGB model) runMode in
  utilPct <-
    (if flt 0 memAvailable then
       q <- fdiv memRequired memAvailable ;; Ok (q * 100)
     else Ok MaxFloat64) ;;
  let notes :=
    if RunMode_eqb runMode RunModeCpuOnly then notes ++ [NoteNoGpu] else notes in
  let notes :=
    if (RunMode_eqb runMode RunModeCpuOffload || RunMode_eqb runMode RunModeCpuOnly)
       && (TotalCPUCores system <? 4)%Z
    then notes ++ [NoteLowCoreCount] else notes in
  moeOffloaded <-
    (if RunMode_eqb runMode RunModeMoeOffload then MoeOffloadedRAMGB model
     else Ok None) ;;
  let '(bestQuant, _) :=
    BestQuantForBudget model memAvailable (ContextLength model) in
  let notes :=
    if negb (String.eqb bestQuant (Quantization model))
    then notes ++ [NoteBestQuant bestQuant (Quantization model)] else notes in
  estimatedTPS <- estimateTPS model bestQuant system runMode ;;
  sc <- computeScores model bestQuant useCase estimatedTPS memRequired memAvailable ;;
  let score := weightedScore sc useCase in
  let notes :=
    if flt 0 estimatedTPS then notes ++ [NoteEstimatedSpeed estimatedTPS] else notes in
  Ok {| Model := model;
        FitLevelOf := fitLevel;
        RunModeOf := runMode;
        MemoryRequiredGB := memRequired;
        MemoryAvailableGB := memAvailable;
        UtilizationPct := utilPct;
        Notes := notes;
        MoeOffloadedGB := moeOffloaded;
        Score := score;
        ScoreComponentsOf := sc;
        EstimatedTPS := estimatedTPS;
        BestQuant := bestQuant;
        UseCaseOf := useCase |}.
End Arch.

(** *** The speed estimate in the words of its description

    k / max(params, 0.1) times the speed multiplier of the quantization,
    times 1.1 from eight cores on, times the penalty of the run mode, and
    never below 0.1; k is the constant of the backend, and in CPU-only mode
    the constant of the CPU (90 on arm64, 70 otherwise). *)
Definition backendK (b : GpuBackend) : float64 :=
  match b with
  | BackendCuda => 220
  | BackendMetal => 160
  | BackendRocm => 180
  | BackendVulkan => 150
  | BackendSycl => 100
  | BackendCpuArm => 90
  | BackendCpuX86 => 70
  end.

Definition cpuK (GOARCH : string) : float64 :=
  if String.eqb GOARCH "arm64" then 90 else 70.

Definition runModePenalty (runMode : RunMode) : float64 :=
  match runMode with
  | RunModeGpu => 1
  | RunModeMoeOffload => 0.8
  | RunModeCpuOffload => 0.5
  | RunModeCpuOnly => 0.3
  end.

Definition fmax (x y : float64) : float64 := if flt x y then y else x.

Definition estimateTPS_described (GOARCH : string) (model : LlmModel)
    (quant : string) (system : SystemSpecs) (runMode : RunMode) : float64 :=
  let k :=
    if RunMode_eqb runMode RunModeCpuOnly then cpuK GOARCH
    else backendK (Backend system) in
  let cores := if (8 <=? TotalCPUCores system)%Z then 1.1 else 1 in
  fmax (k / fmax (ParamsB model) 0.1 * QuantSpeedMultiplier quant
          * cores * runModePenalty runMode)
       0.1.

(** *** Ranking and filtering *)

(** The comparator handed to [sort.Slice], on the two elements it reads. *)
Definition rankLess (a b : ModelFit) : bool :=
  let ar := negb (FitLevel_eqb (FitLevelOf a) FitTooTight) in
  let br := negb (FitLevel_eqb (FitLevelOf b) FitTooTight) in
  if ar && negb br then true
  else if negb ar && br then false
  else flt (Score b) (Score a).

Definition RankModelsByFit (fits : list ModelFit) : list ModelFit :=
  let out := fits in
  sort.Slice rankLess out.

(** The loop [for _, f := range fits { if keep(f) { out = append(out, f) } }]. *)
Fixpoint appendIf (keep : ModelFit -> bool) (fits out : list ModelFit)
    : list ModelFit :=
  match fits with
  | [] => out
  | f :: rest => appendIf keep rest (if keep f then out ++ [f] else out)
  end.

Definition FilterPerfectOnly (fits : list ModelFit) : list ModelFit :=
  appendIf (fun f => FitLevel_eqb (FitLevelOf f) FitPerfect) fits [].

Definition useCaseFromString (s : string) : UseCase * bool :=
  let l := strings.ToLower s in
  if isOneOf l ["general"] then (UseCaseGeneral, true)
  else if isOneOf l ["coding"; "code"] then (UseCaseCoding, true)
  else if isOneOf l ["reasoning"; "reason"] then (UseCaseReasoning, true)
  else if isOneOf l ["chat"] then (UseCaseChat, true)
  else if isOneOf l ["multimodal"; "vision"] then (UseCaseMultimodal, true)
  else if isOneOf l ["embedding"; "embed"] then (UseCaseEmbedding, true)
  else (UseCaseGeneral, false).

Definition FilterByUseCase (fits : list ModelFit) (useCase : string)
    : list ModelFit :=
  let '(uc, ok) := useCaseFromString useCase in
  if negb ok then fits
  else appendIf (fun f => UseCase_eqb (UseCaseOf f) uc) fits [].

(** *** [AnalyzeAll] and the display strings *)

Definition AnalyzeAll (GOARCH : string) (models : list LlmModel)
    (system : SystemSpecs) : result (list ModelFit) :=
  fold_left
    (fun out m =>
       out <- out ;;
       fit <- Analyze GOARCH m system ;;
       Ok (out ++ [fit]))
    models (Ok []).

Definition FitLevel_String (f : FitLevel) : string :=
  match f with
  | FitPerfect => "Perfect"
  | FitGood => "Good"
  | FitMarginal => "Marginal"
  | FitTooTight => "Too Tight"
  end.

Definition RunMode_String (r : RunMode) : string :=
  match r with
  | RunModeGpu => "GPU"
  | RunModeMoeOffload => "MoE"
  | RunModeCpuOffload => "CPU+GPU"
  | RunModeCpuOnly => "CPU"
  end.

(** *** The order and the labels in the words of their description *)

(** [a] may stand before [b] in a ranking: a TooTight entry only before
    TooTight entries, and within one partition the score does not increase. *)
Definition rankedBefore (a b : ModelFit) : Prop :=
  (FitLevelOf a = FitTooTight -> FitLevelOf b = FitTooTight) /\
  ((FitLevelOf a = FitTooTight <-> FitLevelOf b = FitTooTight) ->
   Score b <= Score a).

(** The recognised use-case names, lower case, each with its use case. *)
Definition useCaseLabels : list (string * UseCase) :=
  [ ("general", UseCaseGeneral);
    ("coding", UseCaseCoding); ("code", UseCaseCoding);
    ("reasoning", UseCaseReasoning); ("reason", UseCaseReasoning);
    ("chat", UseCaseChat);
    ("multimodal", UseCaseMultimodal); ("vision", UseCaseMultimodal);
    ("embedding", UseCaseEmbedding); ("embed", UseCaseEmbedding) ].

Fixpoint lookupLabel (l : string) (table : list (string * UseCase)) : option UseCase :=
  match table with
  | [] => None
  | (name, uc) :: rest => if String.eqb l name then Some uc else lookupLabel l rest
  end.

End pole.

(** ** Package [cli]: what the commands select for display

    [runPole], [runDefault] (in its table mode) and [runRecommend] from the
    point where the snapshot and the model list are at hand, up to the call
    of the display.  [uint] and [int] have 64 bits. *)

Module cli.
Import models hardware pole.

(** A run ends with the list handed to the display, or in a panic. *)
Inductive outcome (A : Type) : Type :=
| Shown (a : A)
| Panicked.
Arguments Shown {A} a.
Arguments Panicked {A}.

(** [int(n)] for a [uint]. *)
Definition int_of_uint (n : N) : Z :=
  if (Z.of_N n <? 2 ^ 63)%Z then Z.of_N n else (Z.of_N n - 2 ^ 64)%Z.

(** [fits[:limit]]: a limit beyond the capacity of the slice panics.  A
    slice has a capacity below 2^63, and no code path reaches this with a
    limit between the length and the capacity. *)
Definition sliceTo (fits : list ModelFit) (limit : N) : outcome (list ModelFit) :=
  if (Z.of_N limit <=? Z.of_nat (length fits))%Z
  then Shown (firstn (N.to_nat limit) fits)
  else Panicked.

Definition runPole (GOARCH : string) (perfect : bool) (limit : N)
    (models : list LlmModel) (specs : SystemSpecs) : outcome (list ModelFit) :=
  match AnalyzeAll GOARCH models specs with
  | Panic _ => Panicked
  | Ok fits =>
      let fits := RankModelsByFit fits in
      let fits := if perfect then FilterPerfectOnly fits else fits in
      if (0 <? limit)%N && (int_of_uint limit <? Z.of_nat (length fits))%Z
      then sliceTo fits limit
      else Shown fits
  end.

Definition runRecommend (GOARCH : string) (limit : N) (useCase : string)
    (models : list LlmModel) (specs : SystemSpecs) : outcome (list ModelFit) :=
  match AnalyzeAll GOARCH models specs with
  | Panic _ => Panicked
  | Ok fits =>
      let fits :=
        if negb (String.eqb useCase "") then FilterByUseCase fits useCase
        else fits in
      let fits := RankModelsByFit fits in
      if (limit <? N.of_nat (length fits))%N
      then sliceTo fits limit
      else Shown fits
  end.

End cli.

(** ** Package [tui]: the state of the interactive browser

    The [App] record and the methods that move the selection and change the
    filters.  The methods that edit the search text rune by rune
    ([SearchInput], [SearchBackspace], [SearchDelete]) are left out: the
    strings here are bytes.  [int] values stay far from the ends of their
    range in every method.  The entries of [AllFits] are not nil, as
    [Analyze] returns them. *)

Module tui.
Import models hardware pole.

Inductive InputMode : Type :=
| InputModeNormal
| InputModeSearch
| InputModeProviderPopup.

Inductive FitFilter : Type :=
| FitFilterAll
| FitFilterRunnable
| FitFilterPerfect
| FitFilterGood
| FitFilterMarginal.

Definition FitFilter_Label (f : FitFilter) : string :=
  match f with
  | FitFilterAll => "All"
  | FitFilterRunnable => "Runnable"
  | FitFilterPerfect => "Perfect"
  | FitFilterGood => "Good"
  | FitFilterMarginal => "Marginal"
  end.

Definition FitFilter_Next (f : FitFilter) : FitFilter :=
  match f with
  | FitFilterAll => FitFilterRunnable
  | FitFilterRunnable => FitFilterPerfect
  | FitFilterPerfect => FitFilterGood
  | FitFilterGood => FitFilterMarginal
  | FitFilterMarginal => FitFilterAll
  end.

(** The fields [InputMode] and [FitFilter] of the Go struct carry the suffix
    [Of]: their Go names are the types. *)
Record App : Type := {
  ShouldQuit : bool;
  InputModeOf : InputMode;
  SearchQuery : string;
  CursorPosition : Z;
  Specs : SystemSpecs;
  AllFits : list ModelFit;
  FilteredFits : list Z;
  Providers : list string;
  SelectedProviders : list bool;
  FitFilterOf : FitFilter;
  SelectedRow : Z;
  ShowDetail : bool;
  ProviderCursor : Z;
  Width : Z;
  Height : Z
}.

(** Assignments to the fields the methods write. *)
Definition withSelection (a : App) (filtered : list Z) (row : Z) : App :=
  {| ShouldQuit := ShouldQuit a; InputModeOf := InputModeOf a;
     SearchQuery := SearchQuery a; CursorPosition := CursorPosition a;
     Specs := Specs a; AllFits := AllFits a; FilteredFits := filtered;
     Providers := Providers a; SelectedProviders := SelectedProviders a;
     FitFilterOf := FitFilterOf a; SelectedRow := row;
     ShowDetail := ShowDetail a; ProviderCursor := ProviderCursor a;
     Width := Width a; Height := Height a |}.

Definition withSelectedRow (a : App) (row : Z) : App :=
  withSelection a (FilteredFits a) row.

Definition withFitFilter (a : App) (f : FitFilter) : App :=
  {| ShouldQuit := ShouldQuit a; InputModeOf := InputModeOf a;
     SearchQuery := SearchQuery a; CursorPosition := CursorPosition a;
     Specs := Specs a; AllFits := AllFits a; FilteredFits := FilteredFits a;
     Providers := Providers a; SelectedProviders := SelectedProviders a;
     FitFilterOf := f; SelectedRow := SelectedRow a;
     ShowDetail := ShowDetail a; ProviderCursor := ProviderCursor a;
     Width := Width a; Height := Height a |}.

Definition withSearch (a : App) (query : string) (cursor : Z) : App :=
  {| ShouldQuit := ShouldQuit a; InputModeOf := InputModeOf a;
     SearchQuery := query; CursorPosition := cursor;
     Specs := Specs a; AllFits := AllFits a; FilteredFits := FilteredFits a;
     Providers := Providers a; SelectedProviders := SelectedProviders a;
     FitFilterOf := FitFilterOf a; SelectedRow := SelectedRow a;
     ShowDetail := ShowDetail a; ProviderCursor := ProviderCursor a;
     Width := Width a; Height := Height a |}.

Definition withSelectedProviders (a : App) (selected : list bool) : App :=
  {| ShouldQuit := ShouldQuit a; InputModeOf := InputModeOf a;
     SearchQuery := SearchQuery a; CursorPosition := CursorPosition a;
     Specs := Specs a; AllFits := AllFits a; FilteredFits := FilteredFits a;
     Providers := Providers a; SelectedProviders := selected;
     FitFilterOf := FitFilterOf a; SelectedRow := SelectedRow a;
     ShowDetail := ShowDetail a; ProviderCursor := ProviderCursor a;
     Width := Width a; Height := Height a |}.

Definition withProviderCursor (a : App) (cursor : Z) : App :=
  {| ShouldQuit := ShouldQuit a; InputModeOf := InputModeOf a;
     SearchQuery := SearchQuery a; CursorPosition := CursorPosition a;
     Specs := Specs a; AllFits := AllFits a; FilteredFits := FilteredFits a;
     Providers := Providers a; SelectedProviders := SelectedProviders a;
     FitFilterOf := FitFilterOf a; SelectedRow := SelectedRow a;
     ShowDetail := ShowDetail a; ProviderCursor := cursor;
     Width := Width a; Height := Height a |}.

Definition withInputMode (a : App) (mode : InputMode) : App :=
  {| ShouldQuit := ShouldQuit a; InputModeOf := mode;
     SearchQuery := SearchQuery a; CursorPosition := CursorPosition a;
     Specs := Specs a; AllFits := AllFits a; FilteredFits := FilteredFits a;
     Providers := Providers a; SelectedProviders := SelectedProviders a;
     FitFilterOf := FitFilterOf a; SelectedRow := SelectedRow a;
     ShowDetail := ShowDetail a; ProviderCursor := ProviderCursor a;
     Width := Width a; Height := Height a |}.

Definition withShouldQuit (a : App) (quit : bool) : App :=
  {| ShouldQuit := quit; InputModeOf := InputModeOf a;
     SearchQuery := SearchQuery a; CursorPosition := CursorPosition a;
     Specs := Specs a; AllFits := AllFits a; FilteredFits := FilteredFits a;
     Providers := Providers a; SelectedProviders := SelectedProviders a;
     FitFilterOf := FitFilterOf a; SelectedRow := SelectedRow a;
     ShowDetail := ShowDetail a; ProviderCursor := ProviderCursor a;
     Width := Width a; Height := Height a |}.

Definition withShowDetail (a : App) (show : bool) : App :=
  {| ShouldQuit := ShouldQuit a; InputModeOf := InputModeOf a;
     SearchQuery := SearchQuery a; CursorPosition := CursorPosition a;
     Specs := Specs a; AllFits := AllFits a; FilteredFits := FilteredFits a;
     Providers := Providers a; SelectedProviders := SelectedProviders a;
     FitFilterOf := FitFilterOf a; SelectedRow := SelectedRow a;
     ShowDetail := show; ProviderCursor := ProviderCursor a;
     Width := Width a; Height := Height a |}.

Definition len {A : Type} (l : list A) : Z := Z.of_nat (length l).

(** [for j, p := range a.Providers { if p == provider { providerIdx = j; break } }],
    from [providerIdx := -1]. *)
Fixpoint providerIndexFrom (j : Z) (providers : list string) (provider : string) : Z :=
  match providers with
  | [] => (-1)%Z
  | p :: rest =>
      if String.eqb p provider then j
      else providerIndexFrom (j + 1)%Z rest provider
  end.

(** [l[i]] where the code has checked [0 <= i < len(l)]. *)
Definition at_ {A : Type} (l : list A) (i : Z) (zero : A) : A :=
  nth (Z.to_nat i) l zero.

(** Whether one entry passes the search, the provider and the fit filter. *)
Definition passes (a : App) (query : string) (fit : ModelFit) : bool :=
  let m := Model fit in
  let matchesSearch :=
    String.eqb query ""
    || strings.Contains (strings.ToLower (Name m)) query
    || strings.Contains (strings.ToLower (Provider m)) query
    || strings.Contains (strings.ToLower (ParameterCount m)) query
    || strings.Contains (strings.ToLower (UseCaseText m)) query in
  let providerIdx := providerIndexFrom 0 (Providers a) (Provider m) in
  let matchesProvider :=
    (providerIdx <? 0)%Z
    || ((providerIdx <? len (SelectedProviders a))%Z
        && at_ (SelectedProviders a) providerIdx false) in
  let matchesFit :=
    match FitFilterOf a with
    | FitFilterAll => true
    | FitFilterRunnable => negb (FitLevel_eqb (FitLevelOf fit) FitTooTight)
    | FitFilterPerfect => FitLevel_eqb (FitLevelOf fit) FitPerfect
    | FitFilterGood => FitLevel_eqb (FitLevelOf fit) FitGood
    | FitFilterMarginal => FitLevel_eqb (FitLevelOf fit) FitMarginal
    end in
  matchesSearch && matchesProvider && matchesFit.

(** The loop of [ApplyFilters] from index [i] on. *)
Fixpoint filterFrom (a : App) (query : string) (i : Z) (fits : list ModelFit)
    (out : list Z) : list Z :=
  match fits with
  | [] => out
  | fit :: rest =>
      filterFrom a query (i + 1)%Z rest
        (if passes a query fit then (out ++ [i])%list else out)
  end.

Definition ApplyFilters (a : App) : App :=
  let query := strings.ToLower (SearchQuery a) in
  let out := filterFrom a query 0 (AllFits a) [] in
  let row :=
    if (len out =? 0)%Z then 0%Z
    else if (len out <=? SelectedRow a)%Z then (len out - 1)%Z
    else SelectedRow a in
  withSelection a out row.

(** A nil result is [None]. *)
Definition SelectedFit (a : App) : option ModelFit :=
  if (len (FilteredFits a) =? 0)%Z || (SelectedRow a <? 0)%Z
     || (len (FilteredFits a) <=? SelectedRow a)%Z then None
  else
    let idx := at_ (FilteredFits a) (SelectedRow a) 0%Z in
    if (idx <? 0)%Z || (len (AllFits a) <=? idx)%Z then None
    else nth_error (AllFits a) (Z.to_nat idx).

Definition MoveUp (a : App) : App :=
  if (0 <? SelectedRow a)%Z then withSelectedRow a (SelectedRow a - 1)%Z else a.

Definition MoveDown (a : App) : App :=
  if (0 <? len (FilteredFits a))%Z
     && (SelectedRow a <? len (FilteredFits a) - 1)%Z
  then withSelectedRow a (SelectedRow a + 1)%Z else a.

Definition PageUp (a : App) : App :=
  let row := (SelectedRow a - 10)%Z in
  withSelectedRow a (if (row <? 0)%Z then 0%Z else row).

Definition PageDown (a : App) : App :=
  if (len (FilteredFits a) =? 0)%Z then a
  else
    let row := (SelectedRow a + 10)%Z in
    withSelectedRow a
      (if (len (FilteredFits a) <=? row)%Z then (len (FilteredFits a) - 1)%Z
       else row).

Definition Home (a : App) : App := withSelectedRow a 0%Z.

Definition End_ (a : App) : App :=
  if (0 <? len (FilteredFits a))%Z
  then withSelectedRow a (len (FilteredFits a) - 1)%Z else a.

Definition CycleFitFilter (a : App) : App :=
  ApplyFilters (withFitFilter a (FitFilter_Next (FitFilterOf a))).

Definition EnterSearch (a : App) : App := withInputMode a InputModeSearch.
Definition ExitSearch (a : App) : App := withInputMode a InputModeNormal.

Definition ClearSearch (a : App) : App := ApplyFilters (withSearch a "" 0%Z).

Definition ToggleDetail (a : App) : App := withShowDetail a (negb (ShowDetail a)).

Definition OpenProviderPopup (a : App) : App := withInputMode a InputModeProviderPopup.
Definition CloseProviderPopup (a : App) : App := withInputMode a InputModeNormal.

Definition ProviderPopupUp (a : App) : App :=
  if (0 <? ProviderCursor a)%Z
  then withProviderCursor a (ProviderCursor a - 1)%Z else a.

Definition ProviderPopupDown (a : App) : App :=
  if (ProviderCursor a + 1 <? len (Providers a))%Z
  then withProviderCursor a (ProviderCursor a + 1)%Z else a.

(** [l[i] = v] for [0 <= i < len(l)]. *)
Fixpoint assign {A : Type} (l : list A) (i : nat) (v : A) : list A :=
  match l, i with
  | [], _ => []
  | _ :: rest, O => v :: rest
  | x :: rest, S i' => x :: assign rest i' v
  end.

(** [None] is the panic of an index below 0. *)
Definition ProviderPopupToggle (a : App) : option App :=
  if (ProviderCursor a <? len (SelectedProviders a))%Z then
    if (ProviderCursor a <? 0)%Z then None
    else
      let i := Z.to_nat (ProviderCursor a) in
      Some (ApplyFilters
              (withSelectedProviders a
                 (assign (SelectedProviders a) i
                    (negb (nth i (SelectedProviders a) false)))))
  else Some a.

Definition ProviderPopupSelectAll (a : App) : App :=
  let allSelected := forallb (fun s => s) (SelectedProviders a) in
  let val := negb allSelected in
  ApplyFilters (withSelectedProviders a (map (fun _ => val) (SelectedProviders a))).

(** The keys of the normal mode and of the provider list; [s] is
    [msg.String()].  A key that is no case of the switch changes nothing. *)
Definition handleNormal (a : App) (s : string) : App :=
  if isOneOf s ["q"; "esc"] then
    if ShowDetail a then withShowDetail a false else withShouldQuit a true
  else if isOneOf s ["up"; "k"] then MoveUp a
  else if isOneOf s ["down"; "j"] then MoveDown a
  else if isOneOf s ["pgup"] then PageUp a
  else if isOneOf s ["pgdown"] then PageDown a
  else if isOneOf s ["home"; "g"] then Home a
  else if isOneOf s ["end"; "G"] then End_ a
  else if isOneOf s ["/"] then EnterSearch a
  else if isOneOf s ["f"] then CycleFitFilter a
  else if isOneOf s ["p"] then OpenProviderPopup a
  else if isOneOf s ["enter"] then ToggleDetail a
  else a.

Definition handleProviderPopup (a : App) (s : string) : option App :=
  if isOneOf s ["esc"; "p"; "q"] then Some (CloseProviderPopup a)
  else if isOneOf s ["up"; "k"] then Some (ProviderPopupUp a)
  else if isOneOf s ["down"; "j"] then Some (ProviderPopupDown a)
  else if isOneOf s [" "; "enter"] then ProviderPopupToggle a
  else if isOneOf s ["a"] then Some (ProviderPopupSelectAll a)
  else Some a.

(** [a < b] on Go strings: byte by byte. *)
Fixpoint stringLess (a b : string) : bool :=
  match a, b with
  | _, EmptyString => false
  | EmptyString, String _ _ => true
  | String x a', String y b' =>
      if (N_of_ascii x <? N_of_ascii y)%N then true
      else if (N_of_ascii y <? N_of_ascii x)%N then false
      else stringLess a' b'
  end.

(** The keys of a map, each once.  Go ranges over a map in no fixed order;
    [NewApp] sorts the keys right away. *)
Definition keys {V : Type} (m : gomap.t V) : list string :=
  nodup string_dec (map fst m).

Definition NewApp (specs : SystemSpecs) (allFits : list ModelFit) : App :=
  let providerSet : gomap.t unit :=
    fold_left (fun set f => gomap.set set (Provider (Model f)) tt) allFits
      gomap.empty in
  let providers := sort.Slice stringLess (keys providerSet) in
  let selectedProviders := map (fun _ => true) providers in
  let filteredFits := map Z.of_nat (seq 0 (length allFits)) in
  ApplyFilters
    {| ShouldQuit := false; InputModeOf := InputModeNormal;
       SearchQuery := ""; CursorPosition := 0;
       Specs := specs; AllFits := allFits; FilteredFits := filteredFits;
       Providers := providers; SelectedProviders := selectedProviders;
       FitFilterOf := FitFilterAll; SelectedRow := 0;
       ShowDetail := false; ProviderCursor := 0;
       Width := 0; Height := 0 |}.

(** *** The state the methods keep

    The shown rows are what the filters let through, the selected row is one
    of them (row 0 when there is none), and the cursor of the provider list
    is not negative. *)
Definition inSync (a : App) : Prop :=
  FilteredFits a
    = filterFrom a (strings.ToLower (SearchQuery a)) 0 (AllFits a) [] /\
  (0 <= SelectedRow a)%Z /\
  ((SelectedRow a < len (FilteredFits a))%Z
   \/ (FilteredFits a = [] /\ SelectedRow a = 0%Z)) /\
  (0 <= ProviderCursor a)%Z.

End tui.

(** ** The fixtures of the test suite of [pole] *)

Module fixtures.
Import models hardware pole.

Definition specNoGPU (ramGB : float64) (cores : Z) : SystemSpecs :=
  {| TotalRAMGB := ramGB;
     AvailableRAMGB := ramGB * 0.8;
     TotalCPUCores := cores;
     CPUName := "Test CPU";
     HasGPU := false;
     GpuVRAMGB := None;
     GpuName := None;
     GpuCount := 0;
     UnifiedMemory := false;
     Backend := BackendCpuX86;
     Gpus := [] |}.

Definition specWithGPU (vramGB ramGB : float64) (unified : bool) : SystemSpecs :=
  {| TotalRAMGB := ramGB;
     AvailableRAMGB := ramGB * 0.8;
     TotalCPUCores := 8;
     CPUName := "Test CPU";
     HasGPU := true;
     GpuVRAMGB := Some vramGB;
     GpuName := None;
     GpuCount := 0;
     UnifiedMemory := unified;
     Backend := BackendCuda;
     Gpus := [ {| GpuInfoName := "Test GPU";
                  VRAMGB := Some vramGB;
                  GpuInfoBackend := BackendCuda;
                  Count := 1;
                  GpuInfoUnifiedMemory := unified |} ] |}.

Definition model7B : LlmModel :=
  {| Name := "test-7b";
     Provider := "Test";
     ParameterCount := "7B";
     ParametersRaw := None;
     MinRAMGB := 8.0;
     RecommendedRAMGB := 12.0;
     MinVRAMGB := Some 6.0;
     Quantization := "Q4_K_M";
     ContextLength := 4096;
     UseCaseText := "general";
     IsMoE := false;
     NumExperts := None;
     ActiveExperts := None;
     ActiveParameters := None |}.

(** A record that only names its parameter count, as the table tests of
    [ParamsB] build them: every other field has Go's zero value. *)
Definition modelOfCount (parameterCount : string) (raw : option N) : LlmModel :=
  {| Name := "";
     Provider := "";
     ParameterCount := parameterCount;
     ParametersRaw := raw;
     MinRAMGB := 0;
     RecommendedRAMGB := 0;
     MinVRAMGB := None;
     Quantization := "";
     ContextLength := 0;
     UseCaseText := "";
     IsMoE := false;
     NumExperts := None;
     ActiveExperts := None;
     ActiveParameters := None |}.

(** A fit result that only names its level, score and use case, as the
    tests of the ranking build them. *)
Definition fitOf (level : FitLevel) (score : float64) (uc : UseCase) : ModelFit :=
  {| Model := model7B;
     FitLevelOf := level;
     RunModeOf := RunModeGpu;
     MemoryRequiredGB := 0;
     MemoryAvailableGB := 0;
     UtilizationPct := 0;
     Notes := [];
     MoeOffloadedGB := None;
     Score := score;
     ScoreComponentsOf := {| Quality := 0; Speed := 0; Fit := 0; Context := 0 |};
     EstimatedTPS := 0;
     BestQuant := "";
     UseCaseOf := uc |}.

End fixtures.

(** * Properties *)

Import models hardware pole fixtures.

(** ** Comparisons, binds and divisions *)
Lemma fle_le (x y : float64) : fle x y = true <-> x <= y.
Proof. unfold fle. apply Qle_bool_iff. Qed.

Lemma flt_lt (x y : float64) : flt x y = true <-> x < y.
Proof.
  unfold flt. rewrite negb_true_iff. split; intro H.
  - apply Qnot_le_lt. intro L. apply Qle_bool_iff in L. congruence.
  - destruct (Qle_bool y x) eqn:E; [|reflexivity].
    apply Qle_bool_iff in E. exfalso. apply (Qlt_not_le _ _ H E).
Qed.

Lemma flt_ge (x y : float64) : flt x y = false <-> y <= x.
Proof.
  unfold flt. rewrite negb_false_iff. apply Qle_bool_iff.
Qed.

Lemma fle_gt (x y : float64) : fle x y = false <-> y < x.
Proof.
  rewrite <- flt_lt. unfold flt, fle. destruct (Qle_bool x y); simpl; split; congruence.
Qed.

Lemma bind_Ok {A B : Type} (c : result A) (k : A -> result B) (b : B) :
  bind c k = Ok b -> exists a, c = Ok a /\ k a = Ok b.
Proof. destruct c as [a|p]; simpl; intro H; [eauto | discriminate]. Qed.

Lemma fdiv_Ok (x y q : float64) : fdiv x y = Ok q -> ~ y == 0 /\ q = x / y.
Proof.
  unfold fdiv. destruct (Qeq_bool y 0) eqn:E; intro H; [discriminate|].
  inversion H; subst. split; [|reflexivity].
  intro Z. apply Qeq_bool_iff in Z. congruence.
Qed.

Lemma fdiv_nonzero (x y : float64) : ~ y == 0 -> fdiv x y = Ok (x / y).
Proof.
  intro H. unfold fdiv. destruct (Qeq_bool y 0) eqn:E; [|reflexivity].
  apply Qeq_bool_iff in E. contradiction.
Qed.

Lemma derefOr_total {A : Type} (p : option A) (x : A) :
  exists a, derefOr p x = Ok a /\ a = match p with Some v => v | None => x end.
Proof. destruct p; cbn; eauto. Qed.

Lemma MoeActiveVRAMGB_total (m : LlmModel) : exists v, MoeActiveVRAMGB m = Ok v.
Proof.
  unfold MoeActiveVRAMGB.
  destruct (IsMoE m), (ActiveParameters m); simpl; eauto.
Qed.

Lemma MoeOffloadedRAMGB_total (m : LlmModel) : exists v, MoeOffloadedRAMGB m = Ok v.
Proof.
  unfold MoeOffloadedRAMGB.
  destruct (IsMoE m), (ActiveParameters m), (ParametersRaw m); simpl; eauto.
  destruct (fle _ _); eauto.
Qed.

Lemma moeOffloadPath_total (model : LlmModel) (system : SystemSpecs)
    (systemVram totalVram : float64) (notes : list Note) :
  exists mode req avail notes',
    moeOffloadPath model system systemVram totalVram notes
      = Ok (mode, req, avail, notes') /\ mode <> RunModeCpuOnly.
Proof.
  unfold moeOffloadPath.
  destruct (MoeActiveVRAMGB_total model) as [moeVram ->].
  destruct (MoeOffloadedRAMGB_total model) as [offload Hoff].
  cbn [bind].
  destruct moeVram as [mv|]; cbn [notnil bind deref].
  - rewrite Hoff. cbn [bind].
    destruct (derefOr_total offload 0.0) as (og & -> & _). cbn [bind].
    destruct (fle mv systemVram && fle og (AvailableRAMGB system)).
    + destruct (derefOr_total (ActiveExperts model) 0%N) as (ne & -> & _).
      destruct (derefOr_total (NumExperts model) 0%N) as (nn & -> & _).
      cbn [bind]. do 4 eexists. split; [reflexivity | discriminate].
    + cbn [bind]. destruct (fle (MinRAMGB model) (AvailableRAMGB system)).
      * do 4 eexists. split; [reflexivity | discriminate].
      * do 4 eexists. split; [reflexivity | discriminate].
  - destruct (fle (MinRAMGB model) (AvailableRAMGB system)).
    + do 4 eexists. split; [reflexivity | discriminate].
    + do 4 eexists. split; [reflexivity | discriminate].
Qed.

(** What [chooseRunMode] returns, branch by branch. *)
Lemma chooseRunMode_cases (model : LlmModel) (system : SystemSpecs)
    (minVram : float64) (notes : list Note) :
  exists mode req avail notes',
    chooseRunMode model system minVram notes = Ok (mode, req, avail, notes') /\
    (mode = RunModeCpuOnly ->
       req = MinRAMGB model /\ avail = AvailableRAMGB system) /\
    (forall vram, HasGPU system = true -> UnifiedMemory system = true ->
       GpuVRAMGB system = Some vram ->
       mode = RunModeGpu /\ req = minVram /\ avail = vram).
Proof.
  unfold chooseRunMode.
  destruct (HasGPU system); [|unfold cpuPath; do 4 eexists; split; [reflexivity|];
                               split; [auto | discriminate]].
  destruct (UnifiedMemory system).
  - destruct (GpuVRAMGB system) as [vram|]; cbn [notnil].
    + destruct (IsMoE model && notnil (NumExperts model)) eqn:E.
      * apply andb_true_iff in E. destruct E as [_ E].
        destruct (NumExperts model) as [nn|]; [|discriminate].
        destruct (derefOr_total (ActiveExperts model) 0%N) as (ne & -> & _).
        cbn [bind deref]. do 4 eexists. split; [reflexivity|].
        split; [discriminate|]. intros v _ _ Hv. inversion Hv; subst. auto.
      * cbn [bind deref]. do 4 eexists. split; [reflexivity|].
        split; [discriminate|]. intros v _ _ Hv. inversion Hv; subst. auto.
    + unfold cpuPath. do 4 eexists. split; [reflexivity|].
      split; [auto | discriminate].
  - destruct (GpuVRAMGB system) as [sysVram|]; cbn [notnil bind deref].
    + destruct (fle minVram sysVram).
      * destruct (IsMoE model && notnil (NumExperts model)) eqn:E.
        -- apply andb_true_iff in E. destruct E as [_ E].
           destruct (NumExperts model) as [nn|]; [|discriminate].
           cbn [bind deref]. do 4 eexists. split; [reflexivity|].
           split; discriminate.
        -- cbn [bind]. do 4 eexists. split; [reflexivity|]. split; discriminate.
      * destruct (IsMoE model).
        -- destruct (moeOffloadPath_total model system sysVram minVram notes)
             as (mode & req & avail & notes' & -> & Hmode).
           do 4 eexists. split; [reflexivity|]. split; [contradiction | discriminate].
        -- destruct (fle (MinRAMGB model) (AvailableRAMGB system));
             do 4 eexists; (split; [reflexivity|]); split; discriminate.
    + unfold cpuPath. do 4 eexists. split; [reflexivity|].
      split; [auto | discriminate].
Qed.

Section AnalyzeFacts.
Variable GOARCH : string.

Lemma Analyze_inv (model : LlmModel) (system : SystemSpecs) (r : ModelFit) :
  Analyze GOARCH model system = Ok r ->
  exists minVram notes,
    derefOr (MinVRAMGB model) (MinRAMGB model) = Ok minVram /\
    chooseRunMode model system minVram [] =
      Ok (RunModeOf r, MemoryRequiredGB r, MemoryAvailableGB r, notes) /\
    FitLevelOf r = scoreFit (MemoryRequiredGB r) (MemoryAvailableGB r)
                     (RecommendedRAMGB model) (RunModeOf r) /\
    UtilizationPct r =
      (if flt 0 (MemoryAvailableGB r)
       then MemoryRequiredGB r / MemoryAvailableGB r * 100
       else MaxFloat64) /\
    BestQuant r =
      fst (BestQuantForBudget model (MemoryAvailableGB r) (ContextLength model)) /\
    estimateTPS GOARCH model (BestQuant r) system (RunModeOf r) = Ok (EstimatedTPS r).
Proof.
  unfold Analyze. intro H.
  apply bind_Ok in H. destruct H as (minVram & HminVram & H).
  apply bind_Ok in H. destruct H as ([[[mode req] avail] notes] & Hchoose & H).
  apply bind_Ok in H. destruct H as (util & Hutil & H).
  apply bind_Ok in H. destruct H as (off & Hoff & H).
  destruct (BestQuantForBudget model avail (ContextLength model)) as [bq mem] eqn:Hbq.
  apply bind_Ok in H. destruct H as (tps & Htps & H).
  apply bind_Ok in H. destruct H as (sc & Hsc & H).
  inversion H; subst r; clear H; simpl.
  exists minVram, notes. repeat split; try assumption.
  - destruct (flt 0 avail) eqn:Hpos.
    + apply bind_Ok in Hutil. destruct Hutil as (q & Hq & Hutil).
      apply fdiv_Ok in Hq. destruct Hq as [_ ->]. now inversion Hutil.
    + now inversion Hutil.
  - now rewrite Hbq.
Qed.
End AnalyzeFacts.

Lemma clamp_nonzero (params : float64) :
  ~ (if flt params 0.1 then 0.1 else params) == 0.
Proof.
  destruct (flt params 0.1) eqn:E.
  - intro H. vm_compute in H. discriminate.
  - apply flt_ge in E. intro H. rewrite H in E. vm_compute in E. auto.
Qed.

Lemma estimateTPS_total (GOARCH : string) (model : LlmModel) (quant : string)
    (system : SystemSpecs) (runMode : RunMode) :
  exists tps, estimateTPS GOARCH model quant system runMode = Ok tps.
Proof.
  unfold estimateTPS.
  pose proof (clamp_nonzero (ParamsB model)) as Hnz.
  set (params := if flt (ParamsB model) 0.1 then 0.1 else ParamsB model) in *.
  rewrite (fdiv_nonzero _ params Hnz). cbn [bind].
  destruct (RunMode_eqb runMode RunModeCpuOnly).
  - rewrite (fdiv_nonzero _ params Hnz). cbn [bind]. eauto.
  - cbn [bind]. eauto.
Qed.

Lemma speedScore_total (tps : float64) (useCase : UseCase) :
  exists v, speedScore tps useCase = Ok v.
Proof.
  unfold speedScore.
  destruct (UseCase_eqb useCase UseCaseReasoning);
    [|destruct (UseCase_eqb useCase UseCaseEmbedding)];
    (rewrite fdiv_nonzero; [cbn [bind]; eauto | intro H; vm_compute in H; discriminate]).
Qed.

Lemma fitScore_total (required available : float64) :
  exists v, fitScore required available = Ok v.
Proof.
  unfold fitScore.
  destruct (fle available 0) eqn:E; cbn [orb]; [eauto|].
  destruct (flt available required); [eauto|].
  apply fle_gt in E.
  rewrite fdiv_nonzero.
  - cbn [bind]. repeat (destruct (fle _ _); eauto).
  - intro H. rewrite H in E. vm_compute in E. discriminate.
Qed.

Lemma computeScores_total (model : LlmModel) (quant : string) (useCase : UseCase)
    (tps req avail : float64) :
  exists sc, computeScores model quant useCase tps req avail = Ok sc.
Proof.
  unfold computeScores.
  destruct (speedScore_total tps useCase) as [v ->].
  destruct (fitScore_total req avail) as [w ->].
  cbn [bind]. eauto.
Qed.

Lemma Analyze_total (GOARCH : string) (model : LlmModel) (system : SystemSpecs) :
  exists r, Analyze GOARCH model system = Ok r.
Proof.
  unfold Analyze.
  destruct (derefOr_total (MinVRAMGB model) (MinRAMGB model)) as (minVram & -> & _).
  cbn [bind].
  destruct (chooseRunMode_cases model system minVram [])
    as (mode & req & avail & notes & -> & _).
  cbn [bind].
  assert (Hutil : exists u,
            (if flt 0 avail then q <- fdiv req avail ;; Ok (q * 100)
             else Ok MaxFloat64) = Ok u).
  { destruct (flt 0 avail) eqn:E; [|eauto].
    apply flt_lt in E. rewrite fdiv_nonzero; [cbn [bind]; eauto|].
    intro H. rewrite H in E. vm_compute in E. discriminate. }
  destruct Hutil as [u ->]. cbn [bind].
  assert (Hoff : exists o,
            (if RunMode_eqb mode RunModeMoeOffload then MoeOffloadedRAMGB model
             else Ok None) = Ok o).
  { destruct (RunMode_eqb mode RunModeMoeOffload); [|eauto].
    apply MoeOffloadedRAMGB_total. }
  destruct Hoff as [o ->]. cbn [bind].
  destruct (BestQuantForBudget model avail (ContextLength model)) as [bq mem].
  destruct (estimateTPS_total GOARCH model bq system mode) as [tps ->]. cbn [bind].
  destruct (computeScores_total model bq (UseCaseFromModel model) tps req avail)
    as [sc ->].
  cbn [bind]. eauto.
Qed.

(** ** The fit level and memory figures of [Analyze] *)

(** C9. [Analyze] is total: for every model record and every hardware
    snapshot it returns a fit result.  No dereference of a nil pointer and
    no division by a zero divisor is reached on any path, whatever the
    memory figures, the parameter count and the optional fields are. *)
Theorem Analyze_never_panics (GOARCH : string) (model : LlmModel)
    (system : SystemSpecs) :
  exists r : ModelFit, Analyze GOARCH model system = Ok r.
Proof.
  destruct (Analyze_total GOARCH model system) as [r Hr].
  exists r. exact Hr.
Qed.

(** C1. When [Analyze] selects the CPU-only run mode, the figures are the
    model's minimum RAM against the system's available RAM, and the fit
    level is TooTight when the required memory exceeds the available memory
    and Marginal otherwise: never Perfect, never Good. *)
Theorem cpu_only_caps_at_marginal (GOARCH : string) (model : LlmModel)
    (system : SystemSpecs) (r : ModelFit) :
  Analyze GOARCH model system = Ok r ->
  RunModeOf r = RunModeCpuOnly ->
  MemoryRequiredGB r = MinRAMGB model /\
  MemoryAvailableGB r = AvailableRAMGB system /\
  (MemoryRequiredGB r > MemoryAvailableGB r -> FitLevelOf r = FitTooTight) /\
  (~ MemoryRequiredGB r > MemoryAvailableGB r -> FitLevelOf r = FitMarginal) /\
  FitLevelOf r <> FitPerfect /\ FitLevelOf r <> FitGood.
Proof.
  intros HA Hmode.
  destruct (Analyze_inv GOARCH model system r HA)
    as (minVram & notes & _ & Hchoose & Hfit & _).
  destruct (chooseRunMode_cases model system minVram [])
    as (mode & req & avail & notes' & Heq & Hcpu & _).
  rewrite Heq in Hchoose. inversion Hchoose; subst; clear Hchoose.
  destruct (Hcpu Hmode) as [Hreq Havail].
  rewrite Hfit, Hmode. unfold scoreFit.
  repeat split; try assumption.
  - intro Hgt. apply flt_lt in Hgt. now rewrite Hgt.
  - intro Hle. destruct (flt _ _) eqn:E; [|reflexivity].
    apply flt_lt in E. contradiction.
  - destruct (flt _ _); discriminate.
  - destruct (flt _ _); discriminate.
Qed.

(** The scenario of the test suite: a 7B model, no GPU, 32 GB of RAM of which
    25.6 GB are available, minimum RAM 8 and recommended RAM 12. *)
Lemma cpu_only_caps_at_marginal_witness :
  exists r : ModelFit,
    Analyze "amd64" model7B (specNoGPU 32 8) = Ok r /\
    RunModeOf r = RunModeCpuOnly /\
    RecommendedRAMGB model7B <= MemoryAvailableGB r /\
    FitLevelOf r = FitMarginal.
Proof.
  eexists. split; [vm_compute; reflexivity|].
  split; [reflexivity|]. split; [vm_compute; discriminate|].
  eapply (cpu_only_caps_at_marginal "amd64" model7B (specNoGPU 32 8)).
  - vm_compute; reflexivity.
  - reflexivity.
  - vm_compute. discriminate.
Defined.

(** C4, as the code has it.  On a snapshot with a GPU, unified memory and a
    known VRAM figure, [Analyze] selects the GPU run mode; the required
    memory is the model's minimum VRAM (its minimum RAM when none is
    declared) and the available memory is the GPU's VRAM figure. *)
Theorem unified_memory_uses_vram_figures (GOARCH : string) (model : LlmModel)
    (system : SystemSpecs) (vram : float64) :
  HasGPU system = true ->
  UnifiedMemory system = true ->
  GpuVRAMGB system = Some vram ->
  exists r : ModelFit,
    Analyze GOARCH model system = Ok r /\
    RunModeOf r = RunModeGpu /\
    MemoryRequiredGB r =
      match MinVRAMGB model with Some v => v | None => MinRAMGB model end /\
    MemoryAvailableGB r = vram.
Proof.
  intros Hgpu Huni Hvram.
  destruct (Analyze_total GOARCH model system) as [r HA].
  exists r. split; [assumption|].
  destruct (Analyze_inv GOARCH model system r HA)
    as (minVram & notes & Hmin & Hchoose & _).
  destruct (chooseRunMode_cases model system minVram [])
    as (mode & req & avail & notes' & Heq & _ & Huma).
  rewrite Heq in Hchoose. inversion Hchoose; subst; clear Hchoose.
  destruct (Huma vram Hgpu Huni Hvram) as (Hm & Hr & Hv).
  repeat split; try congruence.
  destruct (derefOr_total (MinVRAMGB model) (MinRAMGB model)) as (a & Ha & Hval).
  congruence.
Qed.

Lemma unified_memory_uses_vram_figures_witness :
  exists r : ModelFit,
    Analyze "arm64" model7B (specWithGPU 32 32 true) = Ok r /\
    RunModeOf r = RunModeGpu /\
    MemoryRequiredGB r = 6.0 /\
    MemoryAvailableGB r = 32.
Proof.
  exact (unified_memory_uses_vram_figures "arm64" model7B (specWithGPU 32 32 true) 32
           eq_refl eq_refl eq_refl).
Defined.

(** C4 as the claim words it fails: on the unified-memory snapshot below the
    required memory is the minimum VRAM 6, not the minimum RAM 8, and the
    available memory is the VRAM figure 32, not the available RAM 25.6. *)
Lemma unified_memory_not_ram_figures :
  HasGPU (specWithGPU 32 32 true) = true /\
  UnifiedMemory (specWithGPU 32 32 true) = true /\
  GpuVRAMGB (specWithGPU 32 32 true) = Some 32 /\
  exists r : ModelFit,
    Analyze "arm64" model7B (specWithGPU 32 32 true) = Ok r /\
    ~ MemoryRequiredGB r == MinRAMGB model7B /\
    ~ MemoryAvailableGB r == AvailableRAMGB (specWithGPU 32 32 true).
Proof.
  repeat split.
  eexists. split; [vm_compute; reflexivity|].
  split; intro H; vm_compute in H; discriminate.
Qed.

(** C10. The utilisation of a fit result is required / available * 100 when
    the available memory is strictly positive and [math.MaxFloat64]
    otherwise. *)
Theorem utilization_pct_or_sentinel (GOARCH : string) (model : LlmModel)
    (system : SystemSpecs) (r : ModelFit) :
  Analyze GOARCH model system = Ok r ->
  (0 < MemoryAvailableGB r ->
     UtilizationPct r = MemoryRequiredGB r / MemoryAvailableGB r * 100) /\
  (MemoryAvailableGB r <= 0 -> UtilizationPct r = MaxFloat64).
Proof.
  intro HA.
  destruct (Analyze_inv GOARCH model system r HA)
    as (minVram & notes & _ & _ & _ & Hutil & _).
  rewrite Hutil. split; intro H.
  - apply flt_lt in H. now rewrite H.
  - apply flt_ge in H. now rewrite H.
Qed.

Lemma utilization_pct_or_sentinel_witness :
  (exists r : ModelFit,
     Analyze "amd64" model7B (specNoGPU 32 8) = Ok r /\
     0 < MemoryAvailableGB r /\
     UtilizationPct r = MemoryRequiredGB r / MemoryAvailableGB r * 100) /\
  (exists z : ModelFit,
     Analyze "amd64" model7B (specNoGPU 0 8) = Ok z /\
     MemoryAvailableGB z <= 0 /\
     UtilizationPct z = MaxFloat64).
Proof.
  split.
  - destruct (Analyze_total "amd64" model7B (specNoGPU 32 8)) as [r Hr].
    exists r.
    pose proof (utilization_pct_or_sentinel "amd64" model7B (specNoGPU 32 8) r Hr)
      as [Hpos _].
    assert (Hav : 0 < MemoryAvailableGB r).
    { vm_compute in Hr. inversion Hr; subst r. vm_compute. reflexivity. }
    auto.
  - destruct (Analyze_total "amd64" model7B (specNoGPU 0 8)) as [z Hz].
    exists z.
    pose proof (utilization_pct_or_sentinel "amd64" model7B (specNoGPU 0 8) z Hz)
      as [_ Hzero].
    assert (Hav : MemoryAvailableGB z <= 0).
    { vm_compute in Hz. inversion Hz; subst z. vm_compute. discriminate. }
    auto.
Defined.

(** ** The derived quantities of a model record *)

Lemma QuantBPP_pos (quant : string) : 0 < QuantBPP quant.
Proof.
  unfold QuantBPP.
  repeat (match goal with |- context [if ?b then _ else _] => destruct b end);
    reflexivity.
Qed.

Lemma float64_of_N_nonneg (n : N) : 0 <= float64_of_N n.
Proof.
  unfold float64_of_N. change 0 with (inject_Z 0).
  rewrite <- Zle_Qle. lia.
Qed.

Lemma float64_of_N_lt (a b : N) : (a < b)%N -> float64_of_N a < float64_of_N b.
Proof. intro H. unfold float64_of_N. rewrite <- Zlt_Qlt. lia. Qed.

Lemma EstimateMemoryGB_lower_bound (m : LlmModel) (quant : string) (ctx : N) :
  0 <= ParamsB m -> 0.5 <= EstimateMemoryGB m quant ctx.
Proof.
  intro Hp. unfold EstimateMemoryGB.
  pose proof (QuantBPP_pos quant) as Hb.
  pose proof (float64_of_N_nonneg ctx) as Hc.
  nra.
Qed.




Lemma scanQuants_find (m : LlmModel) (budgetGB : float64) (ctx : N)
    (qs : list string) :
  scanQuants m budgetGB ctx qs =
    match find (fun q => fle (EstimateMemoryGB m q ctx) budgetGB) qs with
    | Some q => Some (q, EstimateMemoryGB m q ctx)
    | None => None
    end.
Proof.
  induction qs as [|q rest IH]; simpl; [reflexivity|].
  destruct (fle (EstimateMemoryGB m q ctx) budgetGB); [reflexivity | exact IH].
Qed.

Lemma BestQuantForBudget_is_estimate (m : LlmModel) (budgetGB : float64) (ctx : N) :
  exists q c, BestQuantForBudget_described m budgetGB ctx = (q, EstimateMemoryGB m q c).
Proof.
  unfold BestQuantForBudget_described.
  destruct (firstFit m budgetGB ctx); [eauto|].
  destruct (1024 <=? ctx / 2)%N; [|eauto].
  destruct (firstFit m budgetGB (ctx / 2)); eauto.
Qed.




(** *** [ParamsB] *)

Lemma ParamsB_raw (m : LlmModel) (raw : N) :
  ParametersRaw m = Some raw -> ParamsB m = float64_of_N raw / 1e9.
Proof. intro H. unfold ParamsB. now rewrite H. Qed.

Lemma ParamsB_no_suffix (m : LlmModel) :
  ParametersRaw m = None ->
  strings.HasSuffix (strings.TrimSpace (strings.ToUpper (ParameterCount m))) "B" = false ->
  strings.HasSuffix (strings.TrimSpace (strings.ToUpper (ParameterCount m))) "M" = false ->
  ParamsB m = 7.0.
Proof. intros Hraw HB HM. unfold ParamsB. now rewrite Hraw, HB, HM. Qed.

(** The table of the test suite, and the lower-case and padded spellings. *)
Lemma ParamsB_table :
  ParamsB (modelOfCount "7B" None) == 7.0 /\
  ParamsB (modelOfCount "70B" None) == 70.0 /\
  ParamsB (modelOfCount "1.5B" None) == 1.5 /\
  ParamsB (modelOfCount "600M" None) == 0.6 /\
  ParamsB (modelOfCount "137M" None) == 0.137 /\
  ParamsB (modelOfCount "?" (Some 7000000000%N)) == 7.0 /\
  ParamsB (modelOfCount "" (Some 1500000000%N)) == 1.5 /\
  ParamsB (modelOfCount "" None) == 7.0 /\
  ParamsB (modelOfCount "7b" None) == 7.0 /\
  ParamsB (modelOfCount " 600 m " None) == 0.6 /\
  ParamsB (modelOfCount "large" None) == 7.0.
Proof. repeat split. Qed.

(** C5, at the input where the code leaves it.  The parameter count "8x7B"
    ends in B, so [ParamsB] hands "8X7" to [strconv.ParseFloat], drops the
    error and returns the 0 that comes with it, not the default 7.0; "xM"
    goes the same way through the M branch. *)
Theorem ParamsB_unparseable_number_with_suffix :
  strconv.ParseFloat "8X7" = (0, false) /\
  ParamsB (modelOfCount "8x7B" None) == 0 /\
  ParamsB (modelOfCount "xM" None) == 0 /\
  ~ ParamsB (modelOfCount "8x7B" None) == 7.0.
Proof.
  split; [reflexivity|]. split; [reflexivity|]. split; [reflexivity|].
  intro H. vm_compute in H. discriminate.
Qed.

(** ** The speed estimate *)

Lemma flt_compat (a b c d : float64) : a == b -> c == d -> flt a c = flt b d.
Proof.
  intros Hab Hcd. unfold flt. f_equal.
  destruct (Qle_bool c a) eqn:E1, (Qle_bool d b) eqn:E2; try reflexivity.
  - apply Qle_bool_iff in E1. rewrite Hab, Hcd in E1.
    apply Qle_bool_iff in E1. congruence.
  - apply Qle_bool_iff in E2. rewrite <- Hab, <- Hcd in E2.
    apply Qle_bool_iff in E2. congruence.
Qed.

Lemma fmax_compat (a b c : float64) : a == b -> fmax a c == fmax b c.
Proof.
  intro H. unfold fmax. rewrite (flt_compat a b c c H (Qeq_refl c)).
  destruct (flt b c); [reflexivity | exact H].
Qed.

(** Outside the CPU-only mode the code computes the described estimate. *)
Lemma estimateTPS_other_modes (GOARCH : string) (model : LlmModel) (quant : string)
    (system : SystemSpecs) (runMode : RunMode) :
  runMode <> RunModeCpuOnly ->
  exists tps,
    estimateTPS GOARCH model quant system runMode = Ok tps /\
    tps == estimateTPS_described GOARCH model quant system runMode.
Proof.
  intro Hmode. unfold estimateTPS, estimateTPS_described.
  assert (Hnz : ~ fmax (ParamsB model) 0.1 == 0) by apply clamp_nonzero.
  change (if flt (ParamsB model) 0.1 then 0.1 else ParamsB model)
    with (fmax (ParamsB model) 0.1).
  rewrite !(fdiv_nonzero _ (fmax (ParamsB model) 0.1) Hnz). cbn [bind].
  fold (backendK (Backend system)).
  destruct runMode; try contradiction; cbn [RunMode_eqb bind runModePenalty];
    eexists; (split; [reflexivity|]);
    match goal with
    | |- (if flt ?x 0.1 then 0.1 else ?x) == ?y => change (fmax x 0.1 == y)
    end;
    apply fmax_compat;
    unfold backendK, Qdiv; generalize (/ fmax (ParamsB model) 0.1); intro q;
    destruct (Backend system); destruct (8 <=? TotalCPUCores system)%Z; ring.
Qed.

(** In the CPU-only mode the estimate is recomputed from the constant of
    the CPU, with the core bonus and without the penalty. *)
Lemma estimateTPS_cpu_only (GOARCH : string) (model : LlmModel) (quant : string)
    (system : SystemSpecs) :
  exists tps,
    estimateTPS GOARCH model quant system RunModeCpuOnly = Ok tps /\
    tps == fmax (cpuK GOARCH / fmax (ParamsB model) 0.1 * QuantSpeedMultiplier quant
                 * (if (8 <=? TotalCPUCores system)%Z then 1.1 else 1)) 0.1.
Proof.
  unfold estimateTPS.
  assert (Hnz : ~ fmax (ParamsB model) 0.1 == 0) by apply clamp_nonzero.
  change (if flt (ParamsB model) 0.1 then 0.1 else ParamsB model)
    with (fmax (ParamsB model) 0.1).
  rewrite !(fdiv_nonzero _ (fmax (ParamsB model) 0.1) Hnz). cbn [RunMode_eqb bind].
  eexists. split; [reflexivity|].
  match goal with
  | |- (if flt ?x 0.1 then 0.1 else ?x) == ?y => change (fmax x 0.1 == y)
  end.
  apply fmax_compat. unfold cpuK.
  unfold Qdiv. generalize (/ fmax (ParamsB model) 0.1). intro q.
  destruct (8 <=? TotalCPUCores system)%Z; destruct (GOARCH =? "arm64")%string; ring.
Qed.

(** C7, at the input where the code leaves it.  For the 7B model at Q4_K_M
    on four x86 cores in CPU-only mode the code returns 70 / 7 * 1.15 = 11.5;
    the described estimate carries the CPU-only penalty 0.3 as well and is
    3.45. *)
Theorem estimateTPS_cpu_only_drops_penalty :
  exists tps,
    estimateTPS "amd64" model7B "Q4_K_M" (specNoGPU 32 4) RunModeCpuOnly = Ok tps /\
    tps == 11.5 /\
    estimateTPS_described "amd64" model7B "Q4_K_M" (specNoGPU 32 4) RunModeCpuOnly
      == 3.45 /\
    ~ tps == estimateTPS_described "amd64" model7B "Q4_K_M" (specNoGPU 32 4)
                RunModeCpuOnly.
Proof.
  eexists. split; [vm_compute; reflexivity|].
  split; [reflexivity|]. split; [reflexivity|].
  intro H. vm_compute in H. discriminate.
Qed.

(** ** Sorting by insertion *)

Section SliceFacts.
Context {A : Type} (less : A -> A -> bool).
Hypothesis less_asym : forall a b, less a b = true -> less b a = false.
Hypothesis less_negtrans :
  forall a b c, less a b = false -> less b c = false -> less a c = false.

Lemma sink_Permutation (x : A) (l : list A) :
  Permutation (x :: l) (sort.sink less x l).
Proof.
  induction l as [|y r IH]; simpl; [apply Permutation_refl|].
  destruct (less x y); [|apply Permutation_refl].
  eapply Permutation_trans; [apply perm_swap|].
  now apply perm_skip.
Qed.

Lemma sink_fold_Permutation (data acc : list A) :
  Permutation (data ++ acc)
    (fold_left (fun revPrefix x => sort.sink less x revPrefix) data acc).
Proof.
  revert acc. induction data as [|x rest IH]; intro acc; simpl;
    [apply Permutation_refl|].
  eapply Permutation_trans; [|apply IH].
  eapply Permutation_trans; [apply Permutation_middle|].
  apply Permutation_app_head. apply sink_Permutation.
Qed.

Lemma Slice_Permutation (data : list A) : Permutation data (sort.Slice less data).
Proof.
  unfold sort.Slice.
  eapply Permutation_trans; [|apply Permutation_rev].
  pose proof (sink_fold_Permutation data []) as H.
  now rewrite app_nil_r in H.
Qed.

(** In the reversed prefix no element is [less] than one to its right. *)
Lemma sink_sorted (x : A) (l : list A) :
  StronglySorted (fun u v => less u v = false) l ->
  StronglySorted (fun u v => less u v = false) (sort.sink less x l).
Proof.
  induction l as [|y r IH]; intro Hs; simpl.
  - constructor; constructor.
  - apply StronglySorted_inv in Hs. destruct Hs as [Hr Hy].
    destruct (less x y) eqn:E.
    + constructor; [now apply IH|].
      eapply Permutation_Forall; [apply sink_Permutation|].
      constructor; [now apply less_asym | assumption].
    + constructor; [now constructor|].
      constructor; [assumption|].
      eapply Forall_impl; [|exact Hy].
      intros v Hv. now apply (less_negtrans x y v).
Qed.

Lemma sink_fold_sorted (data acc : list A) :
  StronglySorted (fun u v => less u v = false) acc ->
  StronglySorted (fun u v => less u v = false)
    (fold_left (fun revPrefix x => sort.sink less x revPrefix) data acc).
Proof.
  revert acc. induction data as [|x rest IH]; intros acc Hs; simpl;
    [assumption|].
  apply IH. now apply sink_sorted.
Qed.

Lemma StronglySorted_snoc (R : A -> A -> Prop) (l : list A) (x : A) :
  StronglySorted R l -> Forall (fun y => R y x) l -> StronglySorted R (l ++ [x]).
Proof.
  induction l as [|y r IH]; intros Hs Hx; simpl.
  - constructor; constructor.
  - apply StronglySorted_inv in Hs. destruct Hs as [Hr Hy].
    inversion Hx; subst.
    constructor; [now apply IH|].
    apply Forall_app. split; [assumption | now constructor].
Qed.

Lemma StronglySorted_rev (R : A -> A -> Prop) (l : list A) :
  StronglySorted R l -> StronglySorted (fun a b => R b a) (rev l).
Proof.
  induction l as [|y r IH]; intro Hs; simpl; [constructor|].
  apply StronglySorted_inv in Hs. destruct Hs as [Hr Hy].
  apply StronglySorted_snoc; [now apply IH|].
  apply Forall_rev. exact Hy.
Qed.

(** After sorting, no element is [less] than one to its left. *)
Lemma Slice_sorted (data : list A) :
  StronglySorted (fun a b => less b a = false) (sort.Slice less data).
Proof.
  unfold sort.Slice. apply StronglySorted_rev.
  apply sink_fold_sorted. constructor.
Qed.

Lemma StronglySorted_weaken (R S : A -> A -> Prop) (l : list A) :
  (forall a b, R a b -> S a b) -> StronglySorted R l -> StronglySorted S l.
Proof.
  intros HRS Hs. induction Hs as [|a l Hl IH Ha]; constructor; [assumption|].
  eapply Forall_impl; [|exact Ha]. intros b. apply HRS.
Qed.
End SliceFacts.

(** ** Ranking *)

Lemma FitLevel_eqb_eq (a b : FitLevel) : FitLevel_eqb a b = true <-> a = b.
Proof. destruct a, b; simpl; split; intro H; congruence. Qed.

Lemma UseCase_eqb_eq (a b : UseCase) : UseCase_eqb a b = true <-> a = b.
Proof. destruct a, b; simpl; split; intro H; congruence. Qed.

Lemma rankLess_asym (a b : ModelFit) : rankLess a b = true -> rankLess b a = false.
Proof.
  unfold rankLess.
  destruct (FitLevel_eqb (FitLevelOf a) FitTooTight),
           (FitLevel_eqb (FitLevelOf b) FitTooTight); simpl; try congruence;
    intro H; apply flt_lt in H; apply flt_ge; lra.
Qed.

Lemma rankLess_negtrans (a b c : ModelFit) :
  rankLess a b = false -> rankLess b c = false -> rankLess a c = false.
Proof.
  unfold rankLess.
  destruct (FitLevel_eqb (FitLevelOf a) FitTooTight),
           (FitLevel_eqb (FitLevelOf b) FitTooTight),
           (FitLevel_eqb (FitLevelOf c) FitTooTight); simpl; try congruence;
    intros H1 H2; apply flt_ge in H1; apply flt_ge in H2; apply flt_ge; lra.
Qed.

Lemma rankLess_rankedBefore (a b : ModelFit) :
  rankLess b a = false -> rankedBefore a b.
Proof.
  unfold rankLess, rankedBefore.
  destruct (FitLevel_eqb (FitLevelOf a) FitTooTight) eqn:Ea,
           (FitLevel_eqb (FitLevelOf b) FitTooTight) eqn:Eb; simpl; intro H;
    try discriminate.
  - apply FitLevel_eqb_eq in Eb. apply flt_ge in H. split; auto.
  - split.
    + intro Ha. apply FitLevel_eqb_eq in Ha. congruence.
    + intros [_ Hba]. apply FitLevel_eqb_eq in Eb.
      apply Hba in Eb. apply FitLevel_eqb_eq in Eb. congruence.
  - apply flt_ge in H. split; [|auto].
    intro Ha. apply FitLevel_eqb_eq in Ha. congruence.
Qed.



(** ** Filtering *)

Lemma appendIf_filter (keep : ModelFit -> bool) (fits out : list ModelFit) :
  appendIf keep fits out = (out ++ filter keep fits)%list.
Proof.
  revert out. induction fits as [|f rest IH]; intro out; simpl.
  - now rewrite app_nil_r.
  - rewrite IH. destruct (keep f); [|reflexivity].
    now rewrite <- app_assoc.
Qed.

Lemma lookupLabel_In (l : string) (table : list (string * UseCase)) (uc : UseCase) :
  lookupLabel l table = Some uc -> In (l, uc) table.
Proof.
  induction table as [|[name u] rest IH]; simpl; [discriminate|].
  destruct (String.eqb l name) eqn:E.
  - intro H. inversion H; subst. apply String.eqb_eq in E. subst. now left.
  - intro H. right. now apply IH.
Qed.

Lemma useCaseFromString_lookup (label : string) :
  useCaseFromString label =
    match lookupLabel (strings.ToLower label) useCaseLabels with
    | Some uc => (uc, true)
    | None => (UseCaseGeneral, false)
    end.
Proof.
  unfold useCaseFromString, isOneOf, useCaseLabels, lookupLabel, existsb.
  generalize (strings.ToLower label). intro l.
  repeat (match goal with
          | |- context [String.eqb l ?s] => destruct (String.eqb l s)
          end; simpl; try reflexivity).
Qed.

Lemma useCaseLabels_lookup (l : string) (uc : UseCase) :
  In (l, uc) useCaseLabels -> lookupLabel l useCaseLabels = Some uc.
Proof.
  unfold useCaseLabels. simpl.
  intro H.
  repeat (destruct H as [H|H]; [inversion H; subst; reflexivity|]).
  contradiction.
Qed.

(** C8. For a label that is none of the recognised names (compared in
    lower case) [FilterByUseCase] returns its input unchanged; for a
    recognised label it keeps exactly the entries whose use case is the one
    of the label, in their order. *)
Theorem FilterByUseCase_identity_or_filter (fits : list ModelFit) (label : string) :
  ((forall uc, ~ In (strings.ToLower label, uc) useCaseLabels) ->
   FilterByUseCase fits label = fits) /\
  (forall uc, In (strings.ToLower label, uc) useCaseLabels ->
   FilterByUseCase fits label = filter (fun f => UseCase_eqb (UseCaseOf f) uc) fits).
Proof.
  unfold FilterByUseCase. rewrite useCaseFromString_lookup. split.
  - intro Hnone.
    destruct (lookupLabel (strings.ToLower label) useCaseLabels) as [uc|] eqn:E;
      [|reflexivity].
    apply lookupLabel_In in E. exfalso. exact (Hnone uc E).
  - intros uc Hin. rewrite (useCaseLabels_lookup _ uc Hin). simpl.
    apply appendIf_filter.
Qed.

(** The labels of the test suite: "unknown-uc" and "coding", and "Code" for
    the lower-casing. *)
Lemma FilterByUseCase_identity_or_filter_witness :
  let fits := [ fitOf FitGood 70 UseCaseCoding; fitOf FitGood 60 UseCaseGeneral ] in
  FilterByUseCase fits "unknown-uc" = fits /\
  FilterByUseCase fits "coding" = [ fitOf FitGood 70 UseCaseCoding ] /\
  FilterByUseCase fits "Code" = [ fitOf FitGood 70 UseCaseCoding ].
Proof.
  intro fits.
  pose proof (FilterByUseCase_identity_or_filter fits "unknown-uc") as [Hid _].
  pose proof (FilterByUseCase_identity_or_filter fits "coding") as [_ Hcoding].
  pose proof (FilterByUseCase_identity_or_filter fits "Code") as [_ Hcode].
  split.
  - apply Hid. intros uc Hin. simpl in Hin.
    repeat (destruct Hin as [Hin|Hin]; [discriminate|]). contradiction.
  - split.
    + rewrite (Hcoding UseCaseCoding); [reflexivity|]. simpl. auto.
    + rewrite (Hcode UseCaseCoding); [reflexivity|]. simpl. auto 10.
Defined.

(** ** Scenarios in the manner of the test suite, run on the embedding *)

Lemma Analyze_GPUSufficient :
  exists r : ModelFit,
    Analyze "amd64" model7B (specWithGPU 8 32 false) = Ok r /\
    RunModeOf r = RunModeGpu /\ FitLevelOf r = FitGood /\
    MemoryRequiredGB r = 6.0 /\ MemoryAvailableGB r = 8.
Proof. eexists. split; [vm_compute; reflexivity|]. repeat split. Qed.

Lemma Analyze_TooTight :
  exists r : ModelFit,
    Analyze "amd64" model7B (specNoGPU 2.5 4) = Ok r /\
    RunModeOf r = RunModeCpuOnly /\ FitLevelOf r = FitTooTight.
Proof. eexists. split; [vm_compute; reflexivity|]. repeat split. Qed.

(** A mixture-of-experts record whose active experts fit the VRAM and whose
    inactive experts fit the RAM runs in MoE-offload mode, with both figures
    populated and positive. *)
Lemma Analyze_MoeOffload :
  let moe :=
    {| Name := "mixtral-8x7b"; Provider := "Test"; ParameterCount := "46.7B";
       ParametersRaw := Some 46700000000%N;
       MinRAMGB := 28; RecommendedRAMGB := 48; MinVRAMGB := Some 26;
       Quantization := "Q4_K_M"; ContextLength := 32768; UseCaseText := "chat";
       IsMoE := true; NumExperts := Some 8%N; ActiveExperts := Some 2%N;
       ActiveParameters := Some 12900000000%N |} in
  exists (r : ModelFit) (offloaded : float64),
    Analyze "amd64" moe (specWithGPU 12 64 false) = Ok r /\
    RunModeOf r = RunModeMoeOffload /\
    MoeOffloadedGB r = Some offloaded /\
    0 < MemoryRequiredGB r /\ MemoryRequiredGB r <= 12 /\ 0 < offloaded.
Proof.
  intro moe. eexists. eexists. split; [vm_compute; reflexivity|].
  split; [reflexivity|]. split; [reflexivity|].
  repeat split; vm_compute; congruence.
Qed.

(** ** The decision tree, branch by branch *)

Lemma MoeActiveVRAMGB_cases (m : LlmModel) :
  (MoeActiveVRAMGB m = Ok None /\
   (IsMoE m = false \/ ActiveParameters m = None)) \/
  (exists ap v,
     MoeActiveVRAMGB m = Ok (Some v) /\ IsMoE m = true /\
     ActiveParameters m = Some ap /\
     v = fmax (float64_of_N ap * quantBPP m / GiB * 1.1) 0.5).
Proof.
  unfold MoeActiveVRAMGB.
  destruct (IsMoE m); [|left; cbn; auto].
  destruct (ActiveParameters m) as [ap|]; [|left; cbn; auto].
  right. exists ap. eexists. cbn. repeat split.
Qed.

Lemma MoeOffloadedRAMGB_cases (m : LlmModel) :
  (MoeOffloadedRAMGB m = Ok None /\
   (IsMoE m = false \/ ActiveParameters m = None \/ ParametersRaw m = None)) \/
  (exists ap raw v,
     MoeOffloadedRAMGB m = Ok (Some v) /\ IsMoE m = true /\
     ActiveParameters m = Some ap /\ ParametersRaw m = Some raw /\
     v = (if fle (float64_of_N raw - float64_of_N ap) 0 then 0.0
          else (float64_of_N raw - float64_of_N ap) * quantBPP m / GiB)).
Proof.
  unfold MoeOffloadedRAMGB.
  destruct (IsMoE m); [|left; cbn; auto].
  destruct (ActiveParameters m) as [ap|]; [|left; cbn; auto].
  destruct (ParametersRaw m) as [raw|]; [|left; cbn; auto].
  right. exists ap, raw. cbn.
  destruct (fle (float64_of_N raw - float64_of_N ap) 0); eexists; repeat split.
Qed.

(** The three ways out of [moeOffloadPath]. *)
Lemma moeOffloadPath_cases (model : LlmModel) (system : SystemSpecs)
    (systemVram totalVram : float64) (notes : list Note) :
  exists mode req avail notes',
    moeOffloadPath model system systemVram totalVram notes
      = Ok (mode, req, avail, notes') /\
    ((mode = RunModeMoeOffload /\ avail = systemVram /\
      MoeActiveVRAMGB model = Ok (Some req) /\ req <= systemVram /\
      exists offload,
        MoeOffloadedRAMGB model = Ok offload /\
        match offload with Some o => o | None => 0.0 end <= AvailableRAMGB system) \/
     (mode = RunModeCpuOffload /\ req = MinRAMGB model /\
      avail = AvailableRAMGB system /\ MinRAMGB model <= AvailableRAMGB system) \/
     (mode = RunModeGpu /\ req = totalVram /\ avail = systemVram /\
      AvailableRAMGB system < MinRAMGB model)).
Proof.
  unfold moeOffloadPath.
  destruct (MoeActiveVRAMGB_total model) as [moeVram Hact]. rewrite Hact.
  destruct (MoeOffloadedRAMGB_total model) as [offload Hoff].
  cbn [bind].
  assert (Hrest :
    exists mode req avail notes',
      (if fle (MinRAMGB model) (AvailableRAMGB system)
       then Ok (RunModeCpuOffload, MinRAMGB model, AvailableRAMGB system,
                ((notes ++ [NoteMoeInsufficientVram]) ++ [NoteSpillEntireModel])
                  ++ [NoteSlow])%list
       else
         mav <- (if notnil moeVram then p <- Ok moeVram ;; deref p
                 else Ok totalVram) ;;
         Ok (RunModeGpu, totalVram, systemVram,
             ((notes ++ [NoteInsufficient]) ++ [NoteNeedMoe totalVram mav])%list))
      = Ok (mode, req, avail, notes') /\
      ((mode = RunModeCpuOffload /\ req = MinRAMGB model /\
        avail = AvailableRAMGB system /\ MinRAMGB model <= AvailableRAMGB system) \/
       (mode = RunModeGpu /\ req = totalVram /\ avail = systemVram /\
        AvailableRAMGB system < MinRAMGB model))).
  { destruct (fle (MinRAMGB model) (AvailableRAMGB system)) eqn:E.
    - apply fle_le in E. do 4 eexists. split; [reflexivity|]. left. auto.
    - apply fle_gt in E. destruct moeVram; cbn [notnil bind deref];
        do 4 eexists; (split; [reflexivity|]); right; auto. }
  destruct moeVram as [mv|]; cbn [notnil bind deref].
  - rewrite Hoff. cbn [bind].
    destruct (derefOr_total offload 0.0) as (og & Hog & Hogv). rewrite Hog.
    cbn [bind].
    destruct (fle mv systemVram && fle og (AvailableRAMGB system)) eqn:E.
    + apply andb_true_iff in E. destruct E as [E1 E2].
      apply fle_le in E1. apply fle_le in E2.
      destruct (derefOr_total (ActiveExperts model) 0%N) as (ne & -> & _).
      destruct (derefOr_total (NumExperts model) 0%N) as (nn & -> & _).
      cbn [bind]. do 4 eexists. split; [reflexivity|]. left.
      repeat split; try assumption.
      exists offload. split; [reflexivity|]. rewrite Hogv in E2. exact E2.
    + cbn [bind].
      destruct Hrest as (mode & req & avail & notes' & Heq & Hcases).
      cbn [notnil bind deref] in Heq.
      exists mode, req, avail, notes'. split; [exact Heq | right; exact Hcases].
  - cbn [bind].
    destruct Hrest as (mode & req & avail & notes' & Heq & Hcases).
    cbn [notnil bind deref] in Heq.
    exists mode, req, avail, notes'. split; [exact Heq | right; exact Hcases].
Qed.


(** The branches of [chooseRunMode]. *)
Lemma chooseRunMode_tree (model : LlmModel) (system : SystemSpecs)
    (minVram : float64) (notes : list Note) :
  exists mode req avail notes',
    chooseRunMode model system minVram notes = Ok (mode, req, avail, notes') /\
    ((mode = RunModeCpuOnly /\ req = MinRAMGB model /\
      avail = AvailableRAMGB system /\
      (HasGPU system = false \/ GpuVRAMGB system = None)) \/
     (exists v,
        HasGPU system = true /\ GpuVRAMGB system = Some v /\
        ((UnifiedMemory system = true /\
          mode = RunModeGpu /\ req = minVram /\ avail = v) \/
         (UnifiedMemory system = false /\ minVram <= v /\
          mode = RunModeGpu /\ req = minVram /\ avail = v) \/
         (UnifiedMemory system = false /\ v < minVram /\ IsMoE model = true /\
          mode = RunModeMoeOffload /\ avail = v /\
          MoeActiveVRAMGB model = Ok (Some req) /\ req <= v /\
          exists offload,
            MoeOffloadedRAMGB model = Ok offload /\
            match offload with Some o => o | None => 0.0 end
              <= AvailableRAMGB system) \/
         (UnifiedMemory system = false /\ v < minVram /\
          mode = RunModeCpuOffload /\ req = MinRAMGB model /\
          avail = AvailableRAMGB system /\
          MinRAMGB model <= AvailableRAMGB system) \/
         (UnifiedMemory system = false /\ v < minVram /\
          mode = RunModeGpu /\ req = minVram /\ avail = v /\
          AvailableRAMGB system < MinRAMGB model)))).
Proof.
  unfold chooseRunMode.
  destruct (HasGPU system) eqn:Hgpu;
    [|unfold cpuPath; do 4 eexists; split; [reflexivity|]; left; auto].
  destruct (GpuVRAMGB system) as [v|] eqn:Hv; cbn [notnil].
  2:{ destruct (UnifiedMemory system); unfold cpuPath;
        do 4 eexists; (split; [reflexivity|]); left; auto. }
  destruct (UnifiedMemory system) eqn:Huni.
  - assert (Hn : exists n,
              (if IsMoE model && notnil (NumExperts model)
               then ne <- derefOr (ActiveExperts model) 0%N ;;
                    nn <- deref (NumExperts model) ;;
                    Ok ((notes ++ [NoteUnifiedMemory]) ++ [NoteMoeUnifiedPool ne nn])%list
               else Ok (notes ++ [NoteUnifiedMemory])%list) = Ok n).
    { destruct (IsMoE model && notnil (NumExperts model)) eqn:E; [|eauto].
      apply andb_true_iff in E. destruct E as [_ E].
      destruct (NumExperts model) as [nn|]; [|discriminate].
      destruct (derefOr_total (ActiveExperts model) 0%N) as (ne & -> & _).
      cbn [bind deref]. eauto. }
    destruct Hn as [n ->]. cbn [bind deref].
    do 4 eexists. split; [reflexivity|]. right. exists v. auto 10.
  - cbn [bind deref].
    destruct (fle minVram v) eqn:Efit.
    + apply fle_le in Efit.
      assert (Hn : exists n,
                (if IsMoE model && notnil (NumExperts model)
                 then nn <- deref (NumExperts model) ;;
                      Ok ((notes ++ [NoteGpuLoaded]) ++ [NoteMoeAllInVram nn])%list
                 else Ok (notes ++ [NoteGpuLoaded])%list) = Ok n).
      { destruct (IsMoE model && notnil (NumExperts model)) eqn:E; [|eauto].
        apply andb_true_iff in E. destruct E as [_ E].
        destruct (NumExperts model) as [nn|]; [|discriminate].
        cbn [bind deref]. eauto. }
      destruct Hn as [n ->]. cbn [bind].
      do 4 eexists. split; [reflexivity|]. right. exists v. auto 10.
    + apply fle_gt in Efit.
      destruct (IsMoE model) eqn:Emoe.
      * destruct (moeOffloadPath_cases model system v minVram notes)
          as (mode & req & avail & notes' & -> & Hc).
        exists mode, req, avail, notes'. split; [reflexivity|].
        right. exists v. split; [reflexivity|]. split; [reflexivity|].
        destruct Hc as [(-> & -> & Hact & Hle & Hoff) |
                        [(-> & -> & -> & Hle) | (-> & -> & -> & Hlt)]].
        -- right. right. left. auto 10.
        -- right. right. right. left. auto 10.
        -- right. right. right. right. auto 10.
      * destruct (fle (MinRAMGB model) (AvailableRAMGB system)) eqn:Eram.
        -- apply fle_le in Eram. do 4 eexists. split; [reflexivity|].
           right. exists v. split; [reflexivity|]. split; [reflexivity|].
           right. right. right. left. auto 10.
        -- apply fle_gt in Eram. do 4 eexists. split; [reflexivity|].
           right. exists v. split; [reflexivity|]. split; [reflexivity|].
           right. right. right. right. auto 10.
Qed.

(** Every field of the result of [Analyze], in terms of the calls that
    produce it. *)
Lemma Analyze_fields (GOARCH : string) (model : LlmModel) (system : SystemSpecs)
    (r : ModelFit) :
  Analyze GOARCH model system = Ok r ->
  exists notes0 notes1,
    chooseRunMode model system
      (match MinVRAMGB model with Some v => v | None => MinRAMGB model end) []
      = Ok (RunModeOf r, MemoryRequiredGB r, MemoryAvailableGB r, notes0) /\
    Model r = model /\
    UseCaseOf r = UseCaseFromModel model /\
    FitLevelOf r = scoreFit (MemoryRequiredGB r) (MemoryAvailableGB r)
                     (RecommendedRAMGB model) (RunModeOf r) /\
    (if RunMode_eqb (RunModeOf r) RunModeMoeOffload then MoeOffloadedRAMGB model
     else Ok None) = Ok (MoeOffloadedGB r) /\
    BestQuant r =
      fst (BestQuantForBudget model (MemoryAvailableGB r) (ContextLength model)) /\
    estimateTPS GOARCH model (BestQuant r) system (RunModeOf r)
      = Ok (EstimatedTPS r) /\
    computeScores model (BestQuant r) (UseCaseOf r) (EstimatedTPS r)
      (MemoryRequiredGB r) (MemoryAvailableGB r) = Ok (ScoreComponentsOf r) /\
    Score r = weightedScore (ScoreComponentsOf r) (UseCaseOf r) /\
    Notes r = (if flt 0 (EstimatedTPS r)
               then notes1 ++ [NoteEstimatedSpeed (EstimatedTPS r)]
               else notes1)%list.
Proof.
  unfold Analyze. intro H.
  apply bind_Ok in H. destruct H as (minVram & HminVram & H).
  destruct (derefOr_total (MinVRAMGB model) (MinRAMGB model)) as (mv & Hmv & Hval).
  rewrite Hmv in HminVram. inversion HminVram; subst minVram; clear HminVram.
  apply bind_Ok in H. destruct H as ([[[mode req] avail] notes] & Hchoose & H).
  apply bind_Ok in H. destruct H as (util & Hutil & H).
  apply bind_Ok in H. destruct H as (off & Hoff & H).
  destruct (BestQuantForBudget model avail (ContextLength model)) as [bq mem] eqn:Hbq.
  apply bind_Ok in H. destruct H as (tps & Htps & H).
  apply bind_Ok in H. destruct H as (sc & Hsc & H).
  inversion H; subst r; clear H; cbn.
  eexists. eexists. rewrite <- Hval.
  repeat split; try eassumption; try reflexivity.
  now rewrite Hbq.
Qed.

Lemma Analyze_tree (GOARCH : string) (model : LlmModel) (system : SystemSpecs)
    (r : ModelFit) :
  Analyze GOARCH model system = Ok r ->
  let minVram := match MinVRAMGB model with Some v => v | None => MinRAMGB model end in
  (RunModeOf r = RunModeCpuOnly /\ MemoryRequiredGB r = MinRAMGB model /\
   MemoryAvailableGB r = AvailableRAMGB system /\
   (HasGPU system = false \/ GpuVRAMGB system = None)) \/
  (exists v,
     HasGPU system = true /\ GpuVRAMGB system = Some v /\
     ((UnifiedMemory system = true /\
       RunModeOf r = RunModeGpu /\ MemoryRequiredGB r = minVram /\
       MemoryAvailableGB r = v) \/
      (UnifiedMemory system = false /\ minVram <= v /\
       RunModeOf r = RunModeGpu /\ MemoryRequiredGB r = minVram /\
       MemoryAvailableGB r = v) \/
      (UnifiedMemory system = false /\ v < minVram /\ IsMoE model = true /\
       RunModeOf r = RunModeMoeOffload /\ MemoryAvailableGB r = v /\
       MoeActiveVRAMGB model = Ok (Some (MemoryRequiredGB r)) /\
       MemoryRequiredGB r <= v /\
       exists offload,
         MoeOffloadedRAMGB model = Ok offload /\
         match offload with Some o => o | None => 0.0 end
           <= AvailableRAMGB system) \/
      (UnifiedMemory system = false /\ v < minVram /\
       RunModeOf r = RunModeCpuOffload /\ MemoryRequiredGB r = MinRAMGB model /\
       MemoryAvailableGB r = AvailableRAMGB system /\
       MinRAMGB model <= AvailableRAMGB system) \/
      (UnifiedMemory system = false /\ v < minVram /\
       RunModeOf r = RunModeGpu /\ MemoryRequiredGB r = minVram /\
       MemoryAvailableGB r = v /\
       AvailableRAMGB system < MinRAMGB model))).
Proof.
  intros HA minVram.
  destruct (Analyze_fields GOARCH model system r HA)
    as (notes0 & notes1 & Hchoose & _).
  fold minVram in Hchoose.
  destruct (chooseRunMode_tree model system minVram [])
    as (mode & req & avail & notes' & Heq & Hcases).
  rewrite Heq in Hchoose. inversion Hchoose; subst; clear Hchoose.
  exact Hcases.
Qed.

Lemma scoreFit_too_tight_iff (req avail rec : float64) (mode : RunMode) :
  scoreFit req avail rec mode = FitTooTight <-> avail < req.
Proof.
  unfold scoreFit. destruct (flt avail req) eqn:E.
  - apply flt_lt in E. tauto.
  - apply flt_ge in E. split.
    + destruct mode; repeat (destruct (fle _ _)); discriminate.
    + intro H. lra.
Qed.

Lemma scoreFit_perfect_iff (req avail rec : float64) (mode : RunMode) :
  scoreFit req avail rec mode = FitPerfect <->
  mode = RunModeGpu /\ req <= avail /\ rec <= avail.
Proof.
  unfold scoreFit. destruct (flt avail req) eqn:E.
  - apply flt_lt in E. split; [discriminate|]. intros (_ & H & _). lra.
  - apply flt_ge in E. destruct mode.
    + destruct (fle rec avail) eqn:R.
      * apply fle_le in R. tauto.
      * apply fle_gt in R. split.
        -- destruct (fle _ _); discriminate.
        -- intros (_ & _ & H). lra.
    + split; [destruct (fle _ _); discriminate | intros (H & _); discriminate].
    + split; [destruct (fle _ _); discriminate | intros (H & _); discriminate].
    + split; [discriminate | intros (H & _); discriminate].
Qed.

(** ** More about the result of [Analyze] *)

(** Decides a fact about the fields of [r] by running [Analyze]. *)
Ltac by_running Hr :=
  vm_compute in Hr; injection Hr as <-; vm_compute;
  first [reflexivity | discriminate | congruence].

Lemma too_tight_iff_required_exceeds_available_aux (GOARCH : string)
    (model : LlmModel) (system : SystemSpecs) (r : ModelFit) :
  Analyze GOARCH model system = Ok r ->
  (FitLevelOf r = FitTooTight <-> MemoryAvailableGB r < MemoryRequiredGB r).
Proof.
  intro HA.
  destruct (Analyze_fields GOARCH model system r HA)
    as (notes0 & notes1 & _ & _ & _ & Hfit & _).
  rewrite Hfit. apply scoreFit_too_tight_iff.
Qed.

(** X1. Whatever the run mode, the fit level of a result is TooTight exactly
    when its required memory exceeds its available memory. *)
Theorem too_tight_iff_required_exceeds_available (GOARCH : string)
    (model : LlmModel) (system : SystemSpecs) (r : ModelFit) :
  Analyze GOARCH model system = Ok r ->
  (FitLevelOf r = FitTooTight <-> MemoryRequiredGB r > MemoryAvailableGB r).
Proof.
  intro HA.
  destruct (Analyze_fields GOARCH model system r HA)
    as (notes0 & notes1 & _ & _ & _ & Hfit & _).
  rewrite Hfit. apply scoreFit_too_tight_iff.
Qed.

Lemma too_tight_iff_required_exceeds_available_witness :
  exists r : ModelFit,
    Analyze "amd64" model7B (specNoGPU 2.5 4) = Ok r /\
    MemoryRequiredGB r > MemoryAvailableGB r /\
    FitLevelOf r = FitTooTight.
Proof.
  destruct (Analyze_total "amd64" model7B (specNoGPU 2.5 4)) as [r Hr].
  exists r. split; [exact Hr|].
  assert (Hgt : MemoryRequiredGB r > MemoryAvailableGB r) by by_running Hr.
  split; [exact Hgt|].
  apply (too_tight_iff_required_exceeds_available _ _ _ _ Hr). exact Hgt.
Defined.

(** X2. A result is Perfect exactly when it runs in GPU mode, its required
    memory fits, and the model's recommended RAM is within the available
    memory; no other run mode is ever Perfect. *)
Theorem perfect_iff_gpu_mode_and_recommended_fits (GOARCH : string)
    (model : LlmModel) (system : SystemSpecs) (r : ModelFit) :
  Analyze GOARCH model system = Ok r ->
  (FitLevelOf r = FitPerfect <->
   RunModeOf r = RunModeGpu /\
   MemoryRequiredGB r <= MemoryAvailableGB r /\
   RecommendedRAMGB model <= MemoryAvailableGB r).
Proof.
  intro HA.
  destruct (Analyze_fields GOARCH model system r HA)
    as (notes0 & notes1 & _ & _ & _ & Hfit & _).
  rewrite Hfit. apply scoreFit_perfect_iff.
Qed.

Lemma perfect_iff_gpu_mode_and_recommended_fits_witness :
  exists r : ModelFit,
    Analyze "amd64" model7B (specWithGPU 16 32 false) = Ok r /\
    RunModeOf r = RunModeGpu /\
    RecommendedRAMGB model7B <= MemoryAvailableGB r /\
    FitLevelOf r = FitPerfect.
Proof.
  destruct (Analyze_total "amd64" model7B (specWithGPU 16 32 false)) as [r Hr].
  exists r. split; [exact Hr|].
  assert (Hm : RunModeOf r = RunModeGpu) by by_running Hr.
  assert (Hq : MemoryRequiredGB r <= MemoryAvailableGB r) by by_running Hr.
  assert (Hc : RecommendedRAMGB model7B <= MemoryAvailableGB r) by by_running Hr.
  split; [exact Hm|]. split; [exact Hc|].
  apply (perfect_iff_gpu_mode_and_recommended_fits _ _ _ _ Hr). auto.
Defined.

(** X3. [Analyze] selects the CPU-only mode exactly when the snapshot has no
    GPU or has a GPU whose VRAM is unknown. *)
Theorem cpu_only_iff_no_gpu_or_unknown_vram (GOARCH : string)
    (model : LlmModel) (system : SystemSpecs) (r : ModelFit) :
  Analyze GOARCH model system = Ok r ->
  (RunModeOf r = RunModeCpuOnly <->
   HasGPU system = false \/ GpuVRAMGB system = None).
Proof.
  intro HA.
  destruct (Analyze_tree GOARCH model system r HA)
    as [(Hm & _ & _ & Hno) | (v & Hgpu & Hv & Hc)].
  - tauto.
  - split.
    + intro Hm.
      destruct Hc as [(_ & H & _) | [(_ & _ & H & _) | [(_ & _ & _ & H & _) |
                      [(_ & _ & H & _) | (_ & _ & H & _)]]]]; congruence.
    + intros [H | H]; congruence.
Qed.

Lemma cpu_only_iff_no_gpu_or_unknown_vram_witness :
  exists r : ModelFit,
    Analyze "amd64" model7B (specNoGPU 32 8) = Ok r /\
    HasGPU (specNoGPU 32 8) = false /\
    RunModeOf r = RunModeCpuOnly.
Proof.
  destruct (Analyze_total "amd64" model7B (specNoGPU 32 8)) as [r Hr].
  exists r. split; [exact Hr|]. split; [reflexivity|].
  apply (cpu_only_iff_no_gpu_or_unknown_vram _ _ _ _ Hr). left. reflexivity.
Defined.

(** X4. In the MoE-offload and CPU+GPU-offload modes the required memory
    always fits the available memory: such a result is Good or Marginal,
    never TooTight and never Perfect. *)
Theorem offload_modes_always_fit (GOARCH : string)
    (model : LlmModel) (system : SystemSpecs) (r : ModelFit) :
  Analyze GOARCH model system = Ok r ->
  RunModeOf r = RunModeMoeOffload \/ RunModeOf r = RunModeCpuOffload ->
  MemoryRequiredGB r <= MemoryAvailableGB r /\
  (FitLevelOf r = FitGood \/ FitLevelOf r = FitMarginal).
Proof.
  intros HA Hmode.
  assert (Hle : MemoryRequiredGB r <= MemoryAvailableGB r).
  { destruct (Analyze_tree GOARCH model system r HA)
      as [(Hm & _) | (v & Hgpu & Hv & Hc)].
    - destruct Hmode; congruence.
    - destruct Hc as [(_ & H & _) | [(_ & _ & H & _) |
                      [(_ & _ & _ & _ & Ha & _ & Hle & _) |
                      [(_ & _ & _ & Hr & Ha & Hle) | (_ & _ & H & _)]]]];
        destruct Hmode; congruence. }
  split; [exact Hle|].
  destruct (Analyze_fields GOARCH model system r HA)
    as (notes0 & notes1 & _ & _ & _ & Hfit & _).
  rewrite Hfit. unfold scoreFit.
  assert (E : flt (MemoryAvailableGB r) (MemoryRequiredGB r) = false)
    by now apply flt_ge.
  rewrite E.
  destruct Hmode as [-> | ->]; destruct (fle _ _); auto.
Qed.

Lemma offload_modes_always_fit_witness :
  let sys := {| TotalRAMGB := 32; AvailableRAMGB := 16; TotalCPUCores := 8;
                CPUName := "Test CPU"; HasGPU := true; GpuVRAMGB := Some 2;
                GpuName := None; GpuCount := 0; UnifiedMemory := false;
                Backend := BackendCuda; Gpus := [] |} in
  exists r : ModelFit,
    Analyze "amd64" model7B sys = Ok r /\
    RunModeOf r = RunModeCpuOffload /\
    MemoryRequiredGB r <= MemoryAvailableGB r /\
    (FitLevelOf r = FitGood \/ FitLevelOf r = FitMarginal).
Proof.
  intro sys.
  destruct (Analyze_total "amd64" model7B sys) as [r Hr].
  exists r. split; [exact Hr|].
  assert (Hm : RunModeOf r = RunModeCpuOffload) by by_running Hr.
  split; [exact Hm|].
  apply (offload_modes_always_fit _ _ _ _ Hr). right. exact Hm.
Defined.

(** X5. On a discrete (not unified) GPU whose VRAM covers the model's minimum
    VRAM (its minimum RAM when none is declared), [Analyze] selects the GPU
    mode with these two figures, and the result is never TooTight; this holds
    for mixture-of-experts models too. *)
Theorem discrete_gpu_with_enough_vram (GOARCH : string) (model : LlmModel)
    (system : SystemSpecs) (v : float64) :
  HasGPU system = true ->
  UnifiedMemory system = false ->
  GpuVRAMGB system = Some v ->
  match MinVRAMGB model with Some x => x | None => MinRAMGB model end <= v ->
  exists r : ModelFit,
    Analyze GOARCH model system = Ok r /\
    RunModeOf r = RunModeGpu /\
    MemoryRequiredGB r =
      match MinVRAMGB model with Some x => x | None => MinRAMGB model end /\
    MemoryAvailableGB r = v /\
    FitLevelOf r <> FitTooTight.
Proof.
  intros Hgpu Huni Hv Hfit.
  destruct (Analyze_total GOARCH model system) as [r HA].
  exists r. split; [exact HA|].
  assert (H3 : RunModeOf r = RunModeGpu /\
               MemoryRequiredGB r =
                 match MinVRAMGB model with Some x => x | None => MinRAMGB model end /\
               MemoryAvailableGB r = v).
  { destruct (Analyze_tree GOARCH model system r HA)
      as [(_ & _ & _ & [Hno | Hno]) | (w & _ & Hw & Hc)]; try congruence.
    assert (w = v) by congruence. subst w.
    destruct Hc as [(H & _) | [(_ & _ & H) | [(_ & H & _) |
                    [(_ & H & _) | (_ & H & _)]]]];
      try congruence; try (exfalso; exact (Qlt_not_le _ _ H Hfit)). }
  destruct H3 as (Hm & Hr & Ha). repeat split; try assumption.
  intro Htt.
  apply (too_tight_iff_required_exceeds_available_aux GOARCH model system r HA) in Htt.
  rewrite Hr, Ha in Htt. exact (Qlt_not_le _ _ Htt Hfit).
Qed.

Lemma discrete_gpu_with_enough_vram_witness :
  exists r : ModelFit,
    Analyze "amd64" model7B (specWithGPU 8 32 false) = Ok r /\
    RunModeOf r = RunModeGpu /\
    MemoryRequiredGB r = 6.0 /\
    MemoryAvailableGB r = 8 /\
    FitLevelOf r <> FitTooTight.
Proof.
  apply (discrete_gpu_with_enough_vram "amd64" model7B (specWithGPU 8 32 false) 8);
    try reflexivity.
  vm_compute. discriminate.
Defined.

(** X6. A dense (not mixture-of-experts) model on a discrete GPU whose VRAM
    is below the model's minimum VRAM spills to system RAM when its minimum
    RAM fits the available RAM (CPU+GPU-offload, with the RAM figures);
    otherwise the result reports the GPU figures and is TooTight. *)
Theorem dense_model_spills_or_is_too_tight (GOARCH : string) (model : LlmModel)
    (system : SystemSpecs) (v : float64) :
  HasGPU system = true ->
  UnifiedMemory system = false ->
  GpuVRAMGB system = Some v ->
  IsMoE model = false ->
  v < match MinVRAMGB model with Some x => x | None => MinRAMGB model end ->
  exists r : ModelFit,
    Analyze GOARCH model system = Ok r /\
    (MinRAMGB model <= AvailableRAMGB system ->
     RunModeOf r = RunModeCpuOffload /\
     MemoryRequiredGB r = MinRAMGB model /\
     MemoryAvailableGB r = AvailableRAMGB system) /\
    (AvailableRAMGB system < MinRAMGB model ->
     RunModeOf r = RunModeGpu /\
     MemoryRequiredGB r =
       match MinVRAMGB model with Some x => x | None => MinRAMGB model end /\
     MemoryAvailableGB r = v /\
     FitLevelOf r = FitTooTight).
Proof.
  intros Hgpu Huni Hv Hdense Hlow.
  destruct (Analyze_total GOARCH model system) as [r HA].
  exists r. split; [exact HA|].
  destruct (Analyze_tree GOARCH model system r HA)
    as [(_ & _ & _ & [Hno | Hno]) | (w & _ & Hw & Hc)]; try congruence.
  assert (w = v) by congruence. subst w.
  destruct Hc as [(H & _) | [(_ & H & _) | [(_ & _ & H & _) |
                  [(_ & _ & Hm & Hr & Ha & Hle) | (_ & _ & Hm & Hr & Ha & Hlt)]]]];
    try congruence.
  - exfalso. exact (Qlt_not_le _ _ Hlow H).
  - split; [auto|]. intro Hlt. exfalso. exact (Qlt_not_le _ _ Hlt Hle).
  - split; [intro Hle; exfalso; exact (Qlt_not_le _ _ Hlt Hle)|].
    intros _. repeat split; try assumption.
    apply (too_tight_iff_required_exceeds_available_aux GOARCH model system r HA).
    rewrite Hr, Ha. exact Hlow.
Qed.

Lemma dense_model_spills_or_is_too_tight_witness :
  (exists r : ModelFit,
     Analyze "amd64" model7B (specWithGPU 2 32 false) = Ok r /\
     RunModeOf r = RunModeCpuOffload /\
     MemoryRequiredGB r = MinRAMGB model7B /\
     MemoryAvailableGB r = AvailableRAMGB (specWithGPU 2 32 false)) /\
  (exists r : ModelFit,
     Analyze "amd64" model7B (specWithGPU 2 4 false) = Ok r /\
     RunModeOf r = RunModeGpu /\
     FitLevelOf r = FitTooTight).
Proof.
  split.
  - destruct (dense_model_spills_or_is_too_tight "amd64" model7B
                (specWithGPU 2 32 false) 2 eq_refl eq_refl eq_refl eq_refl)
      as (r & Hr & Hspill & _); [vm_compute; reflexivity|].
    exists r. split; [exact Hr|]. apply Hspill. vm_compute. discriminate.
  - destruct (dense_model_spills_or_is_too_tight "amd64" model7B
                (specWithGPU 2 4 false) 2 eq_refl eq_refl eq_refl eq_refl)
      as (r & Hr & _ & Htight); [vm_compute; reflexivity|].
    exists r. split; [exact Hr|].
    destruct Htight as (Hm & _ & _ & Hf); [vm_compute; reflexivity|]. auto.
Defined.

(** X7. A result in MoE-offload mode belongs to a mixture-of-experts model
    with a known active-parameter count on a GPU of known VRAM: the required
    memory is the active-expert VRAM (at least 0.5 GB) and fits the VRAM,
    which is the available memory; the offloaded figure of the result is
    what [MoeOffloadedRAMGB] returns, and when present it is not negative and
    fits the available RAM. *)
Theorem moe_offload_figures (GOARCH : string) (model : LlmModel)
    (system : SystemSpecs) (r : ModelFit) :
  Analyze GOARCH model system = Ok r ->
  RunModeOf r = RunModeMoeOffload ->
  IsMoE model = true /\
  ActiveParameters model <> None /\
  MoeActiveVRAMGB model = Ok (Some (MemoryRequiredGB r)) /\
  0.5 <= MemoryRequiredGB r /\
  GpuVRAMGB system = Some (MemoryAvailableGB r) /\
  MemoryRequiredGB r <= MemoryAvailableGB r /\
  MoeOffloadedRAMGB model = Ok (MoeOffloadedGB r) /\
  (forall o, MoeOffloadedGB r = Some o -> 0 <= o /\ o <= AvailableRAMGB system).
Proof.
  intros HA Hmode.
  destruct (Analyze_fields GOARCH model system r HA)
    as (notes0 & notes1 & _ & _ & _ & _ & Hoff & _).
  rewrite Hmode in Hoff. cbn [RunMode_eqb] in Hoff.
  destruct (Analyze_tree GOARCH model system r HA)
    as [(Hm & _) | (v & _ & Hv & Hc)]; [congruence|].
  destruct Hc as [(_ & H & _) | [(_ & _ & H & _) |
                  [(_ & _ & Hmoe & _ & Ha & Hact & Hle & (offload & Ho & Hfit)) |
                  [(_ & _ & H & _) | (_ & _ & H & _)]]]];
    try congruence.
  assert (offload = MoeOffloadedGB r) by congruence. subst offload.
  destruct (MoeActiveVRAMGB_cases model)
    as [(Hnone & _) | (ap & w & Hsome & _ & Hap & Hw)]; [congruence|].
  assert (Hreq : MemoryRequiredGB r
                 = fmax (float64_of_N ap * quantBPP model / GiB * 1.1) 0.5)
    by congruence.
  repeat split; try assumption; try congruence.
  - rewrite Hreq. unfold fmax. destruct (flt _ 0.5) eqn:E; [lra|].
    now apply flt_ge in E.
  - destruct (MoeOffloadedRAMGB_cases model)
      as [(Hn & _) | (ap' & raw & w' & Hs & _ & _ & _ & Hwv)]; [congruence|].
    assert (Ho' : o = (if fle (float64_of_N raw - float64_of_N ap') 0 then 0.0
                       else (float64_of_N raw - float64_of_N ap')
                            * quantBPP model / GiB)) by congruence.
    rewrite Ho'.
    destruct (fle _ 0) eqn:E; [lra|]. apply fle_gt in E.
    unfold quantBPP. pose proof (QuantBPP_pos (Quantization model)) as Hb.
    apply Qle_shift_div_l; [reflexivity|]. nra.
  - now rewrite H in Hfit.
Qed.

Lemma moe_offload_figures_witness :
  let moe :=
    {| Name := "mixtral-8x7b"; Provider := "Test"; ParameterCount := "46.7B";
       ParametersRaw := Some 46700000000%N;
       MinRAMGB := 28; RecommendedRAMGB := 48; MinVRAMGB := Some 26;
       Quantization := "Q4_K_M"; ContextLength := 32768; UseCaseText := "chat";
       IsMoE := true; NumExperts := Some 8%N; ActiveExperts := Some 2%N;
       ActiveParameters := Some 12900000000%N |} in
  exists r : ModelFit,
    Analyze "amd64" moe (specWithGPU 12 64 false) = Ok r /\
    RunModeOf r = RunModeMoeOffload /\
    0.5 <= MemoryRequiredGB r /\
    MemoryRequiredGB r <= MemoryAvailableGB r /\
    MoeOffloadedRAMGB moe = Ok (MoeOffloadedGB r).
Proof.
  intro moe.
  destruct (Analyze_total "amd64" moe (specWithGPU 12 64 false)) as [r Hr].
  exists r. split; [exact Hr|].
  assert (Hm : RunModeOf r = RunModeMoeOffload) by by_running Hr.
  split; [exact Hm|].
  destruct (moe_offload_figures _ _ _ _ Hr Hm)
    as (_ & _ & _ & Hhalf & _ & Hle & Hoff & _).
  auto.
Defined.

(** ** The speed estimate and the scores *)

Lemma fmax_ge_r (x y : float64) : y <= fmax x y.
Proof.
  unfold fmax. destruct (flt x y) eqn:E; [lra|]. now apply flt_ge in E.
Qed.

Lemma fmax_ge_l (x y : float64) : x <= fmax x y.
Proof.
  unfold fmax. destruct (flt x y) eqn:E; [|lra]. apply flt_lt in E. lra.
Qed.

Lemma fmax_le_compat (a b c : float64) : a <= b -> fmax a c <= fmax b c.
Proof.
  intro H. unfold fmax.
  destruct (flt a c) eqn:Ea, (flt b c) eqn:Eb;
    try apply flt_lt in Ea; try apply flt_lt in Eb;
    try apply flt_ge in Ea; try apply flt_ge in Eb; lra.
Qed.

Lemma Qinv_antitone (p q : Q) : 0 < p -> p <= q -> / q <= / p.
Proof.
  intros Hp Hpq.
  apply Qle_shift_inv_l; [exact Hp|].
  assert (Hq : 0 < q) by lra.
  setoid_replace (/ q * p) with (p / q) by (unfold Qdiv; ring).
  apply Qle_shift_div_r; [exact Hq | lra].
Qed.

Lemma QuantSpeedMultiplier_pos (quant : string) : 0 < QuantSpeedMultiplier quant.
Proof.
  unfold QuantSpeedMultiplier.
  repeat (match goal with |- context [if ?b then _ else _] => destruct b end);
    reflexivity.
Qed.

Lemma backendK_pos (b : GpuBackend) : 0 < backendK b.
Proof. destruct b; reflexivity. Qed.

Lemma cpuK_pos (GOARCH : string) : 0 < cpuK GOARCH.
Proof. unfold cpuK. destruct (GOARCH =? "arm64")%string; reflexivity. Qed.

Lemma scale_inv_le (K F i j : Q) : 0 < K -> 0 < F -> j <= i -> K * j * F <= K * i * F.
Proof.
  intros HK HF Hji. assert (HKF : 0 < K * F) by nra.
  assert (H : 0 <= (K * F) * (i - j)) by nra. lra.
Qed.

(** The value of [estimateTPS] in one formula: the constant is the one of
    the backend, or of the CPU in CPU-only mode, and the penalty of the
    CPU-only mode is 1. *)
Lemma estimateTPS_value (GOARCH : string) (model : LlmModel) (quant : string)
    (system : SystemSpecs) (runMode : RunMode) (tps : float64) :
  estimateTPS GOARCH model quant system runMode = Ok tps ->
  tps ==
    fmax ((if RunMode_eqb runMode RunModeCpuOnly then cpuK GOARCH
           else backendK (Backend system))
          * / fmax (ParamsB model) 0.1
          * (QuantSpeedMultiplier quant
             * (if (8 <=? TotalCPUCores system)%Z then 1.1 else 1)
             * (if RunMode_eqb runMode RunModeCpuOnly then 1
                else runModePenalty runMode)))
         0.1.
Proof.
  intro H.
  destruct (RunMode_eqb runMode RunModeCpuOnly) eqn:E.
  - assert (runMode = RunModeCpuOnly) by (destruct runMode; (discriminate || reflexivity)).
    subst runMode.
    destruct (estimateTPS_cpu_only GOARCH model quant system) as (t & Ht & Hv).
    assert (t = tps) by congruence. subst t. rewrite Hv.
    apply fmax_compat. unfold Qdiv. ring.
  - assert (Hne : runMode <> RunModeCpuOnly) by (intro; subst; discriminate).
    destruct (estimateTPS_other_modes GOARCH model quant system runMode Hne)
      as (t & Ht & Hv).
    assert (t = tps) by congruence. subst t. rewrite Hv.
    unfold estimateTPS_described. rewrite E.
    apply fmax_compat. unfold Qdiv. ring.
Qed.



(** X9. With the quantization, the snapshot and the run mode fixed, a model
    with more parameters never gets a higher speed estimate. *)
Theorem estimateTPS_antitone_in_params (GOARCH : string) (m m' : LlmModel)
    (quant : string) (system : SystemSpecs) (runMode : RunMode)
    (tps tps' : float64) :
  ParamsB m <= ParamsB m' ->
  estimateTPS GOARCH m quant system runMode = Ok tps ->
  estimateTPS GOARCH m' quant system runMode = Ok tps' ->
  tps' <= tps.
Proof.
  intros Hp H H'.
  rewrite (estimateTPS_value _ _ _ _ _ _ H), (estimateTPS_value _ _ _ _ _ _ H').
  apply fmax_le_compat.
  apply scale_inv_le.
  - destruct (RunMode_eqb _ _); [apply cpuK_pos | apply backendK_pos].
  - pose proof (QuantSpeedMultiplier_pos quant) as Hq.
    destruct (8 <=? TotalCPUCores system)%Z;
      destruct (RunMode_eqb runMode RunModeCpuOnly);
      try (destruct runMode; cbn [runModePenalty]); nra.
  - apply Qinv_antitone.
    + pose proof (fmax_ge_r (ParamsB m) 0.1). lra.
    + now apply fmax_le_compat.
Qed.

Lemma estimateTPS_antitone_in_params_witness :
  exists tps tps' : float64,
    ParamsB model7B <= ParamsB (modelOfCount "70B" None) /\
    estimateTPS "amd64" model7B "Q4_K_M" (specWithGPU 24 64 false) RunModeGpu
      = Ok tps /\
    estimateTPS "amd64" (modelOfCount "70B" None) "Q4_K_M"
      (specWithGPU 24 64 false) RunModeGpu = Ok tps' /\
    tps' <= tps.
Proof.
  destruct (estimateTPS_total "amd64" model7B "Q4_K_M"
              (specWithGPU 24 64 false) RunModeGpu) as [tps H].
  destruct (estimateTPS_total "amd64" (modelOfCount "70B" None) "Q4_K_M"
              (specWithGPU 24 64 false) RunModeGpu) as [tps' H'].
  exists tps, tps'.
  assert (Hp : ParamsB model7B <= ParamsB (modelOfCount "70B" None))
    by (vm_compute; discriminate).
  split; [exact Hp|]. split; [exact H|]. split; [exact H'|].
  exact (estimateTPS_antitone_in_params _ _ _ _ _ _ _ _ Hp H H').
Defined.

Lemma clamp_0_100 (v : float64) :
  let v1 := if flt v 0 then 0 else v in
  let v2 := if flt 100 v1 then 100 else v1 in
  0 <= v2 /\ v2 <= 100.
Proof.
  cbv zeta.
  destruct (flt v 0) eqn:E0.
  - destruct (flt 100 0) eqn:E1; [vm_compute in E1; discriminate|]. lra.
  - apply flt_ge in E0. destruct (flt 100 v) eqn:E1.
    + lra.
    + apply flt_ge in E1. lra.
Qed.

Lemma qualityScore_range (model : LlmModel) (quant : string) (useCase : UseCase) :
  0 <= qualityScore model quant useCase /\ qualityScore model quant useCase <= 100.
Proof. unfold qualityScore. apply clamp_0_100. Qed.

Lemma speedScore_range (tps : float64) (useCase : UseCase) (v : float64) :
  speedScore tps useCase = Ok v -> 0 <= v /\ v <= 100.
Proof.
  unfold speedScore. intro H.
  apply bind_Ok in H. destruct H as (q & _ & H).
  inversion H; subst. apply clamp_0_100.
Qed.

Lemma contextScore_range (model : LlmModel) (useCase : UseCase) :
  0 <= contextScore model useCase /\ contextScore model useCase <= 100.
Proof.
  unfold contextScore.
  destruct (_ <=? ContextLength model)%N; [lra|].
  destruct (_ <=? ContextLength model)%N; lra.
Qed.

(** The fit score: 0 when nothing is available or the requirement does not
    fit, and otherwise, for a requirement that is not negative, between 50
    and 100. *)
Lemma fitScore_range (required available v : float64) :
  fitScore required available = Ok v ->
  ((available <= 0 \/ available < required) -> v = 0) /\
  (0 < available -> 0 <= required -> required <= available ->
   50 <= v /\ v <= 100).
Proof.
  unfold fitScore. intro H.
  destruct (fle available 0) eqn:E0; cbn [orb] in H.
  - apply fle_le in E0. inversion H; subst. split; [reflexivity | intros; lra].
  - apply fle_gt in E0.
    destruct (flt available required) eqn:E1.
    + apply flt_lt in E1. inversion H; subst. split; [reflexivity | intros; lra].
    + apply flt_ge in E1. split; [intros [Hc | Hc]; lra|].
      intros _ Hreq _.
      apply bind_Ok in H. destruct H as (ratio & Hdiv & H).
      apply fdiv_Ok in Hdiv. destruct Hdiv as [_ ->].
      assert (Hr0 : 0 <= required / available).
      { apply Qle_shift_div_l; [exact E0 | lra]. }
      destruct (fle (required / available) 0.5) eqn:E2.
      * apply fle_le in E2. inversion H; subst.
        unfold Qdiv in *. set (x := required * / available) in *.
        assert (Hinv : / 0.5 == 2) by reflexivity. rewrite Hinv. lra.
      * destruct (fle _ 0.8); [inversion H; subst; lra|].
        destruct (fle _ 0.9); inversion H; subst; lra.
Qed.

Lemma Round_range (x : float64) : 0 <= x -> x <= 1000 -> 0 <= Round x /\ Round x <= 1000.
Proof.
  intros H0 H1. unfold Round.
  assert (E : flt x 0 = false) by now apply flt_ge. rewrite E.
  split.
  - change 0 with (inject_Z 0). rewrite <- Zle_Qle.
    change 0%Z with (Qfloor 0). apply Qfloor_resp_le. lra.
  - change 1000 with (inject_Z 1000). rewrite <- Zle_Qle.
    change 1000%Z with (Qfloor 1000.5). apply Qfloor_resp_le. lra.
Qed.

Lemma weightedScore_range (sc : ScoreComponents) (useCase : UseCase) :
  0 <= Quality sc <= 100 -> 0 <= Speed sc <= 100 ->
  0 <= Fit sc <= 100 -> 0 <= Context sc <= 100 ->
  0 <= weightedScore sc useCase /\ weightedScore sc useCase <= 100.
Proof.
  intros Hq Hs Hf Hc. unfold weightedScore.
  destruct useCase;
    match goal with
    | |- 0 <= Round ?x / 10 /\ _ =>
        assert (Hr : 0 <= Round x /\ Round x <= 1000)
          by (apply Round_range; lra);
        generalize dependent (Round x); intros y Hr
    end;
    (split; [apply Qle_shift_div_l | apply Qle_shift_div_r]; lra).
Qed.

(** The required memory of a result is not negative when the declared
    minima of the model are not. *)
Lemma required_nonneg (GOARCH : string) (model : LlmModel) (system : SystemSpecs)
    (r : ModelFit) :
  Analyze GOARCH model system = Ok r ->
  0 <= MinRAMGB model ->
  (forall v, MinVRAMGB model = Some v -> 0 <= v) ->
  0 <= MemoryRequiredGB r.
Proof.
  intros HA Hram Hvram.
  assert (Hmin : 0 <= match MinVRAMGB model with
                      | Some v => v | None => MinRAMGB model end).
  { destruct (MinVRAMGB model) as [v|]; [now apply Hvram | exact Hram]. }
  destruct (Analyze_tree GOARCH model system r HA)
    as [(_ & -> & _) | (v & _ & _ & Hc)]; [exact Hram|].
  destruct Hc as [(_ & _ & -> & _) | [(_ & _ & _ & -> & _) |
                  [(_ & _ & _ & _ & _ & Hact & _) |
                  [(_ & _ & _ & -> & _) | (_ & _ & _ & -> & _)]]]];
    try assumption.
  destruct (MoeActiveVRAMGB_cases model)
    as [(Hnone & _) | (ap & w & Hsome & _ & _ & Hw)]; [congruence|].
  assert (Hreq : MemoryRequiredGB r
                 = fmax (float64_of_N ap * quantBPP model / GiB * 1.1) 0.5)
    by congruence.
  rewrite Hreq. pose proof (fmax_ge_r (float64_of_N ap * quantBPP model / GiB * 1.1) 0.5).
  lra.
Qed.



(** Without the precondition the fit score leaves the range: a negative
    minimum RAM gives a negative ratio and a fit score below 0. *)
Lemma fit_score_negative_for_negative_minimum :
  exists v : float64, fitScore (- 8) 4 = Ok v /\ v < 0.
Proof. eexists. split; [vm_compute; reflexivity|]. reflexivity. Qed.

(** X11. The fit sub-score agrees with the fit level: it is 0 for every
    TooTight result and for every result without available memory, and for a
    model with non-negative declared minima it is at least 50 in every other
    case. *)
Theorem fit_score_zero_iff_no_fit (GOARCH : string) (model : LlmModel)
    (system : SystemSpecs) (r : ModelFit) :
  Analyze GOARCH model system = Ok r ->
  (FitLevelOf r = FitTooTight \/ MemoryAvailableGB r <= 0 ->
   Fit (ScoreComponentsOf r) = 0) /\
  (0 <= MinRAMGB model ->
   (forall v, MinVRAMGB model = Some v -> 0 <= v) ->
   FitLevelOf r <> FitTooTight -> 0 < MemoryAvailableGB r ->
   50 <= Fit (ScoreComponentsOf r)).
Proof.
  intro HA.
  destruct (Analyze_fields GOARCH model system r HA)
    as (notes0 & notes1 & _ & _ & _ & _ & _ & _ & _ & Hsc & _).
  unfold computeScores in Hsc.
  apply bind_Ok in Hsc. destruct Hsc as (speed & Hspeed & Hsc).
  apply bind_Ok in Hsc. destruct Hsc as (fit & Hfit & Hsc).
  inversion Hsc as [Heq]. cbn [Fit].
  destruct (fitScore_range _ _ _ Hfit) as [Hzero Hfits].
  pose proof (too_tight_iff_required_exceeds_available_aux GOARCH model system r HA)
    as Htt.
  split.
  - intros [Ht | Hno]; apply Hzero; [right; now apply Htt | left; exact Hno].
  - intros Hram Hvram Hnt Hpos.
    pose proof (required_nonneg GOARCH model system r HA Hram Hvram) as Hreq.
    apply Hfits; try assumption.
    destruct (Qlt_le_dec (MemoryAvailableGB r) (MemoryRequiredGB r)) as [Hlt | Hle];
      [|exact Hle].
    exfalso. apply Hnt. now apply Htt.
Qed.

Lemma fit_score_zero_iff_no_fit_witness :
  exists r : ModelFit,
    Analyze "amd64" model7B (specNoGPU 2.5 4) = Ok r /\
    FitLevelOf r = FitTooTight /\
    Fit (ScoreComponentsOf r) = 0.
Proof.
  destruct (Analyze_total "amd64" model7B (specNoGPU 2.5 4)) as [r Hr].
  exists r. split; [exact Hr|].
  assert (Ht : FitLevelOf r = FitTooTight) by by_running Hr.
  split; [exact Ht|].
  apply (fit_score_zero_iff_no_fit _ _ _ _ Hr). left. exact Ht.
Defined.

(** ** The catalog and the budget search *)

(** Along the hierarchy the bytes per parameter fall. *)
Lemma QuantHierarchy_bpp_sorted :
  StronglySorted (fun q q' => QuantBPP q' <= QuantBPP q) QuantHierarchy.
Proof.
  unfold QuantHierarchy.
  repeat (constructor; [|repeat constructor; vm_compute; discriminate]).
  constructor.
Qed.

Lemma find_first_in_sorted {A : Type} (R : A -> A -> Prop) (p : A -> bool)
    (l : list A) (x y : A) :
  (forall a, R a a) ->
  StronglySorted R l -> find p l = Some x -> In y l -> p y = true -> R x y.
Proof.
  intros Hrefl Hs. induction Hs as [|a l Hl IH Ha]; simpl; [discriminate|].
  intros Hfind Hin Hy. destruct (p a) eqn:E.
  - inversion Hfind; subst. destruct Hin as [<- | Hin]; [apply Hrefl|].
    rewrite Forall_forall in Ha. now apply Ha.
  - destruct Hin as [<- | Hin]; [congruence|]. now apply IH.
Qed.

(** X12. When some quantization of the hierarchy fits the budget at the
    given context, [BestQuantForBudget] returns a quantization that fits the
    budget at that context, and no fitting quantization of the hierarchy has
    more bytes per parameter: the result is the best fidelity that fits. *)
Theorem BestQuantForBudget_best_that_fits (m : LlmModel) (budgetGB : float64)
    (ctx : N) (q' : string) :
  In q' QuantHierarchy ->
  EstimateMemoryGB m q' ctx <= budgetGB ->
  let '(q, mem) := BestQuantForBudget m budgetGB ctx in
  In q QuantHierarchy /\
  mem = EstimateMemoryGB m q ctx /\
  mem <= budgetGB /\
  QuantBPP q' <= QuantBPP q.
Proof.
  intros Hin Hfit.
  unfold BestQuantForBudget. rewrite scanQuants_find.
  destruct (find (fun q => fle (EstimateMemoryGB m q ctx) budgetGB) QuantHierarchy)
    as [q|] eqn:E.
  - pose proof (find_some _ _ E) as [Hq Hqfit]. apply fle_le in Hqfit.
    repeat split; try assumption.
    apply (find_first_in_sorted _ _ _ q q' (fun a => Qle_refl _)
             QuantHierarchy_bpp_sorted E Hin).
    now apply fle_le.
  - exfalso. pose proof (find_none _ _ E q' Hin) as Hno. cbv beta in Hno.
    apply fle_gt in Hno. lra.
Qed.

Lemma BestQuantForBudget_best_that_fits_witness :
  In "Q4_K_M" QuantHierarchy /\
  EstimateMemoryGB model7B "Q4_K_M" 4096 <= 6 /\
  fst (BestQuantForBudget model7B 6 4096) = "Q5_K_M" /\
  snd (BestQuantForBudget model7B 6 4096) <= 6 /\
  QuantBPP "Q4_K_M" <= QuantBPP (fst (BestQuantForBudget model7B 6 4096)).
Proof.
  assert (Hin : In "Q4_K_M" QuantHierarchy) by (simpl; auto).
  assert (Hfit : EstimateMemoryGB model7B "Q4_K_M" 4096 <= 6)
    by (vm_compute; discriminate).
  pose proof (BestQuantForBudget_best_that_fits model7B 6 4096 "Q4_K_M" Hin Hfit)
    as H.
  destruct (BestQuantForBudget model7B 6 4096) as [q mem] eqn:E.
  destruct H as (_ & _ & Hle & Hbest).
  split; [exact Hin|]. split; [exact Hfit|].
  split; [vm_compute in E; inversion E; reflexivity|].
  split; assumption.
Defined.

(** X13. A larger budget never buys a more compressed quantization: when
    some quantization of the hierarchy fits the smaller budget, the result
    for the larger budget has at least as many bytes per parameter. *)
Theorem BestQuantForBudget_monotone_in_budget (m : LlmModel)
    (budgetGB budgetGB' : float64) (ctx : N) (q' : string) :
  budgetGB <= budgetGB' ->
  In q' QuantHierarchy ->
  EstimateMemoryGB m q' ctx <= budgetGB ->
  QuantBPP (fst (BestQuantForBudget m budgetGB ctx))
    <= QuantBPP (fst (BestQuantForBudget m budgetGB' ctx)).
Proof.
  intros Hle Hin Hfit.
  unfold BestQuantForBudget. rewrite !scanQuants_find.
  destruct (find (fun q => fle (EstimateMemoryGB m q ctx) budgetGB) QuantHierarchy)
    as [q|] eqn:E.
  2:{ exfalso. pose proof (find_none _ _ E q' Hin) as Hno. cbv beta in Hno.
      apply fle_gt in Hno. lra. }
  pose proof (find_some _ _ E) as [Hq Hqfit]. apply fle_le in Hqfit.
  destruct (find (fun q => fle (EstimateMemoryGB m q ctx) budgetGB') QuantHierarchy)
    as [p|] eqn:E'.
  - cbn [fst].
    apply (find_first_in_sorted _ _ _ p q (fun a => Qle_refl _)
             QuantHierarchy_bpp_sorted E' Hq).
    apply fle_le. lra.
  - exfalso. pose proof (find_none _ _ E' q Hq) as Hno. cbv beta in Hno.
    apply fle_gt in Hno. lra.
Qed.

Lemma BestQuantForBudget_monotone_in_budget_witness :
  5 <= 8 /\
  EstimateMemoryGB model7B "Q4_K_M" 4096 <= 5 /\
  fst (BestQuantForBudget model7B 5 4096) = "Q4_K_M" /\
  fst (BestQuantForBudget model7B 8 4096) = "Q6_K" /\
  QuantBPP (fst (BestQuantForBudget model7B 5 4096))
    <= QuantBPP (fst (BestQuantForBudget model7B 8 4096)).
Proof.
  assert (H58 : 5 <= 8) by (vm_compute; discriminate).
  assert (Hfit : EstimateMemoryGB model7B "Q4_K_M" 4096 <= 5)
    by (vm_compute; discriminate).
  split; [exact H58|]. split; [exact Hfit|].
  split; [reflexivity|]. split; [reflexivity|].
  apply (BestQuantForBudget_monotone_in_budget model7B 5 8 4096 "Q4_K_M" H58);
    [simpl; auto 10 | exact Hfit].
Defined.

(** X14. A quantization name outside the catalog resolves to the defaults of
    the three tables: 0.58 bytes per parameter, speed multiplier 1.0 and
    quality penalty -5. *)
Theorem unknown_quant_defaults (quant : string) :
  ~ In quant ["F32"; "F16"; "BF16"; "Q8_0"; "Q6_K"; "Q5_K_M"; "Q4_K_M"; "Q4_0";
              "Q3_K_M"; "Q2_K"] ->
  QuantBPP quant = 0.58 /\
  QuantSpeedMultiplier quant = 1.0 /\
  QuantQualityPenalty quant = - 5.0.
Proof.
  intro Hout.
  assert (Hne : forall s,
            In s ["F32"; "F16"; "BF16"; "Q8_0"; "Q6_K"; "Q5_K_M"; "Q4_K_M";
                  "Q4_0"; "Q3_K_M"; "Q2_K"] -> String.eqb quant s = false).
  { intros s Hs. apply String.eqb_neq. intro Heq. subst. contradiction. }
  unfold QuantBPP, QuantSpeedMultiplier, QuantQualityPenalty, isOneOf, existsb.
  rewrite !Hne by (simpl; auto 12).
  repeat split.
Qed.

Lemma unknown_quant_defaults_witness :
  QuantBPP "IQ4_XS" = 0.58 /\
  QuantSpeedMultiplier "IQ4_XS" = 1.0 /\
  QuantQualityPenalty "IQ4_XS" = - 5.0.
Proof.
  apply unknown_quant_defaults. simpl.
  intro H. repeat (destruct H as [H|H]; [discriminate|]). exact H.
Defined.

(** ** Case mapping and substring search *)

Lemma lower_upper_byte (c : ascii) :
  strings.lower_byte (strings.upper_byte c) = strings.lower_byte c.
Proof. destruct c as [[] [] [] [] [] [] [] []]; reflexivity. Qed.

Lemma lower_lower_byte (c : ascii) :
  strings.lower_byte (strings.lower_byte c) = strings.lower_byte c.
Proof. destruct c as [[] [] [] [] [] [] [] []]; reflexivity. Qed.

Lemma ToLower_ToUpper (s : string) :
  strings.ToLower (strings.ToUpper s) = strings.ToLower s.
Proof.
  induction s as [|c s IH]; simpl; [reflexivity|].
  unfold strings.ToLower, strings.ToUpper in *. simpl.
  now rewrite lower_upper_byte, IH.
Qed.

Lemma ToLower_idempotent (s : string) :
  strings.ToLower (strings.ToLower s) = strings.ToLower s.
Proof.
  induction s as [|c s IH]; simpl; [reflexivity|].
  unfold strings.ToLower in *. simpl.
  now rewrite lower_lower_byte, IH.
Qed.

Lemma Contains_empty (s : string) : strings.Contains s "" = true.
Proof. destruct s; reflexivity. Qed.

Lemma fold_append_filter {A : Type} (keep : A -> bool) (l acc : list A) :
  fold_left (fun out x => if keep x then (out ++ [x])%list else out) l acc
  = (acc ++ filter keep l)%list.
Proof.
  revert acc. induction l as [|x l IH]; intro acc; simpl.
  - now rewrite app_nil_r.
  - rewrite IH. destruct (keep x); [|reflexivity]. now rewrite <- app_assoc.
Qed.



(** ** The merge of the model lists *)

Local Open Scope list_scope.

Lemma gomap_get_app {V : Type} (a b : gomap.t V) (k : string) :
  gomap.get (a ++ b) k =
    match gomap.get a k with Some v => Some v | None => gomap.get b k end.
Proof.
  induction a as [|[k' v] a IH]; simpl; [reflexivity|].
  destruct (String.eqb k k'); [reflexivity | exact IH].
Qed.

Lemma gomap_get_In {V : Type} (m : gomap.t V) (k : string) (v : V) :
  gomap.get m k = Some v -> In (k, v) m.
Proof.
  induction m as [|[k' w] m IH]; simpl; [discriminate|].
  destruct (String.eqb k k') eqn:E.
  - intro H. inversion H; subst. apply String.eqb_eq in E. subst. now left.
  - intro H. right. now apply IH.
Qed.

Lemma gomap_get_key {V : Type} (m : gomap.t V) (k : string) :
  In k (map fst m) -> exists v, gomap.get m k = Some v.
Proof.
  induction m as [|[k' w] m IH]; simpl; [contradiction|].
  intros [Hk | Hk].
  - subst. rewrite String.eqb_refl. eauto.
  - destruct (String.eqb k k'); [eauto | now apply IH].
Qed.

Lemma gomap_get_none {V : Type} (m : gomap.t V) (k : string) :
  ~ In k (map fst m) -> gomap.get m k = None.
Proof.
  induction m as [|[k' w] m IH]; simpl; [reflexivity|].
  intro Hk. destruct (String.eqb k k') eqn:E.
  - apply String.eqb_eq in E. subst. exfalso. apply Hk. now left.
  - apply IH. intro H. apply Hk. now right.
Qed.

(** The map a loop of assignments builds. *)
Lemma fold_set_byName (l : list LlmModel) (m0 : gomap.t LlmModel) :
  fold_left (fun byName m => gomap.set byName (Name m) m) l m0
  = (rev (map (fun m => (Name m, m)) l) ++ m0)%list.
Proof.
  revert m0. induction l as [|m l IH]; intro m0; simpl; [reflexivity|].
  rewrite IH. unfold gomap.set. now rewrite <- app_assoc.
Qed.

Lemma fold_set_seen (l : list LlmModel) (s0 : gomap.t bool) (k : string) :
  seenGet (fold_left (fun seen m => gomap.set seen (Name m) true) l s0) k
  = (existsb (String.eqb k) (map Name l) || seenGet s0 k)%bool.
Proof.
  revert s0. induction l as [|m l IH]; intro s0; simpl; [reflexivity|].
  rewrite IH. unfold seenGet, gomap.set. cbn [gomap.get].
  destruct (String.eqb k (Name m)), (existsb (String.eqb k) (map Name l));
    reflexivity.
Qed.

Lemma fold_append_map {A B : Type} (f : A -> B) (l : list A) (acc : list B) :
  fold_left (fun out x => (out ++ [f x])%list) l acc = (acc ++ map f l)%list.
Proof.
  revert acc. induction l as [|x l IH]; intro acc; simpl.
  - now rewrite app_nil_r.
  - rewrite IH. now rewrite <- app_assoc.
Qed.

Lemma existsb_eqb_In (k : string) (l : list string) :
  existsb (String.eqb k) l = true <-> In k l.
Proof.
  rewrite existsb_exists. split.
  - intros (x & Hx & E). apply String.eqb_eq in E. now subst.
  - intro H. exists k. split; [exact H | apply String.eqb_refl].
Qed.

(** The second loop over the overlay: what it appends. *)
Lemma merge_append_loop (overlay : list LlmModel) (out : list (option LlmModel))
    (seen : gomap.t bool) :
  exists extra seen',
    fold_left
      (fun '(out, seen) m =>
         if negb (seenGet seen (Name m))
         then ((out ++ [Some m])%list, gomap.set seen (Name m) true)
         else (out, seen))
      overlay (out, seen)
    = ((out ++ map Some extra)%list, seen') /\
    NoDup (map Name extra) /\
    (forall m, In m extra -> In m overlay /\ seenGet seen (Name m) = false) /\
    (forall m, In m overlay -> seenGet seen (Name m) = false ->
               In (Name m) (map Name extra)) /\
    (forall m, In m extra ->
       exists pre post, overlay = (pre ++ m :: post)%list /\
                        ~ In (Name m) (map Name pre)).
Proof.
  revert out seen. induction overlay as [|m overlay IH]; intros out seen.
  - exists [], seen. simpl. rewrite app_nil_r.
    repeat split; try constructor; intros; contradiction.
  - cbn [fold_left]. destruct (seenGet seen (Name m)) eqn:Eseen; cbn [negb].
    + destruct (IH out seen) as (extra & seen' & Heq & Hnd & Hin & Hall & Hfirst).
      exists extra, seen'. split; [exact Heq|]. split; [exact Hnd|].
      split; [|split].
      * intros x Hx. destruct (Hin x Hx). split; [now right | assumption].
      * intros x [<- | Hx] Hs; [congruence | now apply Hall].
      * intros x Hx. destruct (Hfirst x Hx) as (pre & post & -> & Hpre).
        exists (m :: pre), post. split; [reflexivity|].
        simpl. intros [Hn | Hn]; [|contradiction].
        destruct (Hin x Hx) as [_ Hs]. congruence.
    + destruct (IH (out ++ [Some m])%list (gomap.set seen (Name m) true))
        as (extra & seen' & Heq & Hnd & Hin & Hall & Hfirst).
      assert (Hset : forall k,
                seenGet (gomap.set seen (Name m) true) k
                = (String.eqb k (Name m) || seenGet seen k)%bool).
      { intro k. unfold seenGet. simpl.
        destruct (String.eqb k (Name m)); reflexivity. }
      exists (m :: extra), seen'. split.
      { rewrite Heq. cbn [map]. now rewrite <- app_assoc. }
      split.
      { cbn [map]. constructor; [|exact Hnd].
        intro Hdup. apply in_map_iff in Hdup. destruct Hdup as (x & Hname & Hx).
        destruct (Hin x Hx) as [_ Hs]. rewrite Hset, Hname, String.eqb_refl in Hs.
        discriminate. }
      split; [|split].
      * intros x [<- | Hx]; [split; [now left | exact Eseen]|].
        destruct (Hin x Hx) as [Ho Hs]. rewrite Hset in Hs.
        apply orb_false_iff in Hs. split; [now right | tauto].
      * intros x Hx Hs. cbn [map In].
        destruct (String.eqb (Name x) (Name m)) eqn:E.
        -- apply String.eqb_eq in E. now left.
        -- right. destruct Hx as [<- | Hx];
             [rewrite String.eqb_refl in E; discriminate|].
           apply Hall; [exact Hx|]. rewrite Hset, E. exact Hs.
      * intros x [<- | Hx].
        -- exists [], overlay. split; [reflexivity | intros []].
        -- destruct (Hfirst x Hx) as (pre & post & -> & Hpre).
           exists (m :: pre), post. split; [reflexivity|].
           simpl. intros [Hn | Hn]; [|contradiction].
           destruct (Hin x Hx) as [_ Hs]. rewrite Hset, <- Hn, String.eqb_refl in Hs.
           discriminate.
Qed.

Lemma In_rev_pairs (l : list LlmModel) (k : string) (v : LlmModel) :
  In (k, v) (rev (map (fun m => (Name m, m)) l)) -> In v l /\ Name v = k.
Proof.
  rewrite <- in_rev, in_map_iff. intros (x & Hx & Hin).
  inversion Hx; subst. auto.
Qed.

Lemma keys_rev_pairs (l : list LlmModel) (k : string) :
  In k (map fst (rev (map (fun m => (Name m, m)) l))) <-> In k (map Name l).
Proof.
  rewrite map_rev, <- in_rev, map_map. reflexivity.
Qed.

Lemma map_get_all_some (mp : gomap.t LlmModel) (P : LlmModel -> LlmModel -> Prop)
    (l : list LlmModel) :
  (forall b, In b l -> exists v, gomap.get mp (Name b) = Some v /\ P b v) ->
  exists merged,
    map (fun m => gomap.get mp (Name m)) l = map Some merged /\
    Forall2 P l merged.
Proof.
  induction l as [|b l IH]; intro Hget.
  - exists []. split; [reflexivity | constructor].
  - destruct (Hget b (or_introl eq_refl)) as (v & Hv & Hprops).
    destruct IH as (merged & Hm & Hf2); [intros x Hx; apply Hget; now right|].
    exists (v :: merged). split.
    + cbn [map]. now rewrite Hv, Hm.
    + now constructor.
Qed.

(** The structure of the merged list: one entry per entry of the base list,
    under the same name, taken from the overlay when the overlay has the
    name; then the overlay entries whose names the base list lacks, each
    name once. *)
Lemma mergeModels_structure (base overlay : list LlmModel) :
  exists merged extra,
    mergeModels base overlay = map Some (merged ++ extra) /\
    Forall2 (fun b m =>
               Name m = Name b /\
               (In (Name b) (map Name overlay) -> In m overlay) /\
               (~ In (Name b) (map Name overlay) -> In m base))
            base merged /\
    NoDup (map Name extra) /\
    (forall m, In m extra -> In m overlay /\ ~ In (Name m) (map Name base)) /\
    (forall m, In m overlay -> ~ In (Name m) (map Name base) ->
               In (Name m) (map Name extra)) /\
    (forall m, In m extra ->
       exists pre post, overlay = pre ++ m :: post /\
                        ~ In (Name m) (map Name pre)).
Proof.
  unfold mergeModels. rewrite !fold_set_byName, fold_append_map.
  unfold gomap.empty. rewrite app_nil_r. cbn [app].
  set (byName := rev (map (fun m => (Name m, m)) overlay)
                 ++ rev (map (fun m => (Name m, m)) base)).
  set (seen := fold_left (fun seen m => gomap.set seen (Name m) true) base []).
  destruct (merge_append_loop overlay
              (map (fun m => gomap.get byName (Name m)) base) seen)
    as (extra & seen' & Heq & Hnd & Hin & Hall & Hfirst).
  rewrite Heq.
  assert (Hseen : forall k, seenGet seen k = false <-> ~ In k (map Name base)).
  { intro k. unfold seen. rewrite fold_set_seen.
    unfold seenGet at 1. cbn [gomap.get]. rewrite orb_false_r.
    rewrite <- existsb_eqb_In. destruct (existsb _ _); split; congruence. }
  assert (Hget : forall b, In b base ->
            exists v, gomap.get byName (Name b) = Some v /\
                      Name v = Name b /\
                      (In (Name b) (map Name overlay) -> In v overlay) /\
                      (~ In (Name b) (map Name overlay) -> In v base)).
  { intros b Hb. unfold byName. rewrite gomap_get_app.
    destruct (gomap.get (rev (map (fun m => (Name m, m)) overlay)) (Name b))
      as [v|] eqn:E.
    - apply gomap_get_In, In_rev_pairs in E. destruct E as [Hv Hn].
      exists v. repeat split; auto.
      intro Hno. exfalso. apply Hno. rewrite <- Hn. now apply in_map.
    - destruct (gomap_get_key (rev (map (fun m => (Name m, m)) base)) (Name b))
        as [v Hv]; [apply keys_rev_pairs; now apply in_map|].
      rewrite Hv. pose proof Hv as Hv'.
      apply gomap_get_In, In_rev_pairs in Hv'. destruct Hv' as [Hvb Hn].
      exists v. repeat split; auto.
      intro Hyes. exfalso.
      apply keys_rev_pairs in Hyes. apply gomap_get_key in Hyes.
      destruct Hyes as [w Hw]. congruence. }
  assert (Hmerged : exists merged,
            map (fun m => gomap.get byName (Name m)) base = map Some merged /\
            Forall2 (fun b m =>
                       Name m = Name b /\
                       (In (Name b) (map Name overlay) -> In m overlay) /\
                       (~ In (Name b) (map Name overlay) -> In m base))
                    base merged).
  { apply (map_get_all_some byName
             (fun b m =>
                Name m = Name b /\
                (In (Name b) (map Name overlay) -> In m overlay) /\
                (~ In (Name b) (map Name overlay) -> In m base))).
    exact Hget. }
  destruct Hmerged as (merged & Hm & Hf2).
  exists merged, extra. rewrite Hm, map_app.
  split; [reflexivity|]. split; [exact Hf2|]. split; [exact Hnd|].
  split; [|split].
  - intros m Hmx. destruct (Hin m Hmx) as [Ho Hs]. split; [exact Ho|].
    now apply Hseen.
  - intros m Hmo Hnb. apply Hall; [exact Hmo|]. now apply Hseen.
  - exact Hfirst.
Qed.

Lemma Forall2_names (base merged : list LlmModel) (P : LlmModel -> LlmModel -> Prop) :
  Forall2 (fun b m => Name m = Name b /\ P b m) base merged ->
  map Name merged = map Name base.
Proof.
  induction 1 as [|b m base merged [Hn _] _ IH]; simpl; [reflexivity|].
  now rewrite Hn, IH.
Qed.

Lemma Forall2_In_r {A B : Type} (P : A -> B -> Prop) (l : list A) (l' : list B)
    (y : B) :
  Forall2 P l l' -> In y l' -> exists x, In x l /\ P x y.
Proof.
  induction 1 as [|a b l l' Hab _ IH]; simpl; [contradiction|].
  intros [<- | Hy]; [exists a; auto|].
  destruct (IH Hy) as (x & Hx & Hp). exists x. auto.
Qed.

(** X17. [mergeModels] never yields a nil entry.  The merged list keeps the
    names of the base list in their places and appends, each once, the names
    that only the overlay has; its names are exactly those of the two
    lists. *)
Theorem mergeModels_names (base overlay : list LlmModel) :
  exists merged newNames,
    mergeModels base overlay = map Some merged /\
    map Name merged = map Name base ++ newNames /\
    NoDup newNames /\
    (forall n, In n newNames <->
               In n (map Name overlay) /\ ~ In n (map Name base)) /\
    (forall n, In n (map Name merged) <->
               In n (map Name base) \/ In n (map Name overlay)).
Proof.
  destruct (mergeModels_structure base overlay)
    as (merged & extra & Heq & Hf2 & Hnd & Hin & Hall & _).
  exists (merged ++ extra), (map Name extra).
  assert (Hnames : map Name merged = map Name base)
    by (eapply Forall2_names; exact Hf2).
  assert (Hnew : forall n, In n (map Name extra) <->
                           In n (map Name overlay) /\ ~ In n (map Name base)).
  { intro n. split.
    - intro H. apply in_map_iff in H. destruct H as (m & <- & Hm).
      destruct (Hin m Hm). split; [now apply in_map | assumption].
    - intros [Ho Hb]. apply in_map_iff in Ho. destruct Ho as (m & <- & Hm).
      now apply Hall. }
  split; [exact Heq|]. split; [now rewrite map_app, Hnames|].
  split; [exact Hnd|]. split; [exact Hnew|].
  intro n. rewrite map_app, in_app_iff, Hnames, Hnew.
  destruct (in_dec string_dec n (map Name base)); tauto.
Qed.

(** X18. In the merged list the overlay wins: an entry whose name occurs in
    the overlay is an entry of the overlay, and every other entry is an
    entry of the base list; nothing else is ever in the merged list. *)
Theorem mergeModels_overlay_wins (base overlay : list LlmModel) :
  exists merged,
    mergeModels base overlay = map Some merged /\
    forall m, In m merged ->
      (In (Name m) (map Name overlay) -> In m overlay) /\
      (~ In (Name m) (map Name overlay) -> In m base).
Proof.
  destruct (mergeModels_structure base overlay)
    as (merged & extra & Heq & Hf2 & Hnd & Hin & Hall & _).
  exists (merged ++ extra). split; [exact Heq|].
  intros m Hm. apply in_app_iff in Hm. destruct Hm as [Hm | Hm].
  - destruct (Forall2_In_r _ _ _ _ Hf2 Hm) as (b & Hb & Hn & Hyes & Hno).
    rewrite Hn. auto.
  - destruct (Hin m Hm) as [Ho _]. split; [auto|].
    intro Hno. exfalso. apply Hno. now apply in_map.
Qed.

(** X19. When the names of the base list are distinct, so are the names of
    the merged list, whatever the overlay repeats. *)
Theorem mergeModels_names_distinct (base overlay : list LlmModel) :
  NoDup (map Name base) ->
  exists merged,
    mergeModels base overlay = map Some merged /\
    NoDup (map Name merged) /\
    (length base <= length merged)%nat.
Proof.
  intro Hbase.
  destruct (mergeModels_structure base overlay)
    as (merged & extra & Heq & Hf2 & Hnd & Hin & Hall & _).
  exists (merged ++ extra). split; [exact Heq|].
  assert (Hnames : map Name merged = map Name base)
    by (eapply Forall2_names; exact Hf2).
  split.
  - rewrite map_app, Hnames. apply NoDup_app; try assumption.
    intros n Hb Hx. apply in_map_iff in Hx. destruct Hx as (m & <- & Hm).
    destruct (Hin m Hm) as [_ Hno]. contradiction.
  - rewrite length_app. apply Forall2_length in Hf2. lia.
Qed.

Lemma mergeModels_names_distinct_witness :
  let base := [model7B; modelOfCount "1B" None] in
  let overlay := [modelOfCount "3B" None; model7B; model7B] in
  NoDup (map Name base) /\
  mergeModels base overlay = map Some [model7B; modelOfCount "3B" None] /\
  NoDup (map Name [model7B; modelOfCount "3B" None]).
Proof.
  intros base overlay.
  assert (Hnd : NoDup (map Name base)).
  { repeat constructor; simpl; intuition discriminate. }
  split; [exact Hnd|].
  destruct (mergeModels_names_distinct base overlay Hnd) as (merged & Heq & Hnames & _).
  assert (Hrun : mergeModels base overlay = map Some [model7B; modelOfCount "3B" None])
    by reflexivity.
  split; [exact Hrun|].
  rewrite Hrun in Heq.
  assert (Hm : merged = [model7B; modelOfCount "3B" None]).
  { clear - Heq. symmetry.
    revert Heq. generalize [model7B; modelOfCount "3B" None].
    induction merged as [|x merged IH]; intros [|y l] H; simpl in H;
      try discriminate; [reflexivity|].
    inversion H; subst. f_equal. now apply IH. }
  now rewrite <- Hm.
Defined.

(** ** The overlay update of [AppendModelToCache] *)

Lemma replaceFirstByName_cases (overlay : list LlmModel) (m : LlmModel) :
  (exists pre x post,
     overlay = pre ++ x :: post /\ Name x = Name m /\
     ~ In (Name m) (map Name pre) /\
     replaceFirstByName overlay m = (pre ++ m :: post, true)) \/
  (~ In (Name m) (map Name overlay) /\
   replaceFirstByName overlay m = (overlay, false)).
Proof.
  induction overlay as [|e rest IH]; simpl.
  - right. split; [intros [] | reflexivity].
  - destruct (String.eqb (Name e) (Name m)) eqn:E.
    + apply String.eqb_eq in E. left. exists [], e, rest.
      repeat split; auto.
    + apply String.eqb_neq in E.
      destruct IH as [(pre & x & post & -> & Hx & Hpre & ->) | (Hno & ->)].
      * left. exists (e :: pre), x, post. repeat split; auto.
        simpl. intros [H | H]; [congruence | contradiction].
      * right. split; [|reflexivity]. intros [H | H]; [congruence | contradiction].
Qed.

(** X20. The overlay update puts the model into the overlay: it replaces the
    first entry of the same name, in place, and appends the model when the
    name is new; the other entries and their order are untouched, and
    distinct names stay distinct. *)
Theorem upsertOverlay_replaces_or_appends (overlay : list LlmModel) (m : LlmModel) :
  In m (upsertOverlay overlay m) /\
  (In (Name m) (map Name overlay) ->
   map Name (upsertOverlay overlay m) = map Name overlay) /\
  (~ In (Name m) (map Name overlay) ->
   upsertOverlay overlay m = overlay ++ [m]) /\
  (forall x, In x overlay -> Name x <> Name m -> In x (upsertOverlay overlay m)) /\
  (NoDup (map Name overlay) -> NoDup (map Name (upsertOverlay overlay m))).
Proof.
  unfold upsertOverlay.
  destruct (replaceFirstByName_cases overlay m)
    as [(pre & x & post & -> & Hx & Hpre & ->) | (Hno & ->)]; cbn [negb].
  - split; [apply in_or_app; right; now left|].
    split; [intros _; rewrite !map_app; cbn [map]; now rewrite Hx|].
    split.
    { intro H. exfalso. apply H. rewrite map_app, in_app_iff. right. left. exact Hx. }
    split.
    { intros y Hy Hne. apply in_app_iff in Hy. apply in_or_app.
      destruct Hy as [Hy | [<- | Hy]]; [now left | contradiction | right; now right]. }
    intro Hnd. rewrite map_app in *. cbn [map] in *. now rewrite <- Hx.
  - split; [apply in_or_app; right; now left|].
    split; [intro H; contradiction|].
    split; [reflexivity|].
    split; [intros y Hy _; apply in_or_app; now left|].
    intro Hnd. rewrite map_app. cbn [map].
    apply NoDup_app; [exact Hnd | repeat constructor; intros [] |].
    intros n Hn [<- | []]. contradiction.
Qed.

Lemma upsertOverlay_replaces_or_appends_witness :
  let newer := {| Name := "test-7b"; Provider := "Overlay"; ParameterCount := "7B";
                  ParametersRaw := None; MinRAMGB := 9; RecommendedRAMGB := 12;
                  MinVRAMGB := None; Quantization := "Q4_K_M";
                  ContextLength := 8192; UseCaseText := "chat"; IsMoE := false;
                  NumExperts := None; ActiveExperts := None;
                  ActiveParameters := None |} in
  In (Name newer) (map Name [modelOfCount "1B" None; model7B]) /\
  upsertOverlay [modelOfCount "1B" None; model7B] newer
    = [modelOfCount "1B" None; newer] /\
  map Name (upsertOverlay [modelOfCount "1B" None; model7B] newer)
    = map Name [modelOfCount "1B" None; model7B].
Proof.
  intro newer.
  assert (Hin : In (Name newer) (map Name [modelOfCount "1B" None; model7B]))
    by (simpl; auto).
  split; [exact Hin|]. split; [reflexivity|].
  exact (proj1 (proj2 (upsertOverlay_replaces_or_appends
                         [modelOfCount "1B" None; model7B] newer)) Hin).
Defined.

Lemma NoDup_names_inj (l : list LlmModel) (x y : LlmModel) :
  NoDup (map Name l) -> In x l -> In y l -> Name x = Name y -> x = y.
Proof.
  induction l as [|a l IH]; simpl; [contradiction|].
  intros Hnd Hx Hy Hn. apply NoDup_cons_iff in Hnd. destruct Hnd as [Ha Hnd].
  destruct Hx as [<- | Hx], Hy as [<- | Hy]; auto.
  - exfalso. apply Ha. rewrite Hn. now apply in_map.
  - exfalso. apply Ha. rewrite <- Hn. now apply in_map.
Qed.

(** X21. After a model is put into an overlay of distinct names, the list
    merged from any base list and that overlay holds the model, and holds
    nothing else under its name. *)
Theorem merged_list_shows_upserted_model (base overlay : list LlmModel)
    (m : LlmModel) :
  NoDup (map Name overlay) ->
  exists merged,
    mergeModels base (upsertOverlay overlay m) = map Some merged /\
    In m merged /\
    (forall x, In x merged -> Name x = Name m -> x = m).
Proof.
  intro Hnd.
  destruct (upsertOverlay_replaces_or_appends overlay m)
    as (Hm & _ & _ & _ & Hkeep).
  specialize (Hkeep Hnd).
  set (overlay' := upsertOverlay overlay m) in *.
  destruct (mergeModels_structure base overlay')
    as (merged & extra & Heq & Hf2 & Hndx & Hin & Hall & _).
  exists (merged ++ extra). split; [exact Heq|].
  assert (Hname : In (Name m) (map Name overlay')) by now apply in_map.
  assert (Hunique : forall x, In x (merged ++ extra) -> Name x = Name m -> x = m).
  { intros x Hx Hn. apply in_app_iff in Hx.
    assert (Hxo : In x overlay').
    { destruct Hx as [Hx | Hx].
      - destruct (Forall2_In_r _ _ _ _ Hf2 Hx) as (b & _ & Hnb & Hyes & _).
        apply Hyes. rewrite <- Hnb, Hn. exact Hname.
      - now destruct (Hin x Hx). }
    exact (NoDup_names_inj overlay' x m Hkeep Hxo Hm Hn). }
  split; [|exact Hunique].
  assert (Hex : exists x, In x (merged ++ extra) /\ Name x = Name m).
  { destruct (in_dec string_dec (Name m) (map Name base)) as [Hb | Hb].
    - assert (Hnames : map Name merged = map Name base)
        by (eapply Forall2_names; exact Hf2).
      rewrite <- Hnames in Hb. apply in_map_iff in Hb.
      destruct Hb as (x & Hn & Hx). exists x. split; [|exact Hn].
      apply in_or_app. now left.
    - pose proof (Hall m Hm Hb) as Hx. apply in_map_iff in Hx.
      destruct Hx as (x & Hn & Hx). exists x. split; [|exact Hn].
      apply in_or_app. now right. }
  destruct Hex as (x & Hx & Hn).
  now rewrite <- (Hunique x Hx Hn).
Qed.

Lemma merged_list_shows_upserted_model_witness :
  let newer := {| Name := "test-7b"; Provider := "Overlay"; ParameterCount := "7B";
                  ParametersRaw := None; MinRAMGB := 9; RecommendedRAMGB := 12;
                  MinVRAMGB := None; Quantization := "Q4_K_M";
                  ContextLength := 8192; UseCaseText := "chat"; IsMoE := false;
                  NumExperts := None; ActiveExperts := None;
                  ActiveParameters := None |} in
  NoDup (map Name [modelOfCount "1B" None]) /\
  exists merged,
    mergeModels [model7B] (upsertOverlay [modelOfCount "1B" None] newer)
      = map Some merged /\
    In newer merged.
Proof.
  intro newer.
  assert (Hnd : NoDup (map Name [modelOfCount "1B" None])).
  { repeat constructor. intros []. }
  split; [exact Hnd|].
  destruct (merged_list_shows_upserted_model [model7B] [modelOfCount "1B" None]
              newer Hnd) as (merged & Heq & Hin & _).
  exists merged. split; assumption.
Defined.

(** ** [AnalyzeAll], [FilterPerfectOnly] and the commands *)

Lemma AnalyzeAll_loop (GOARCH : string) (system : SystemSpecs)
    (models : list LlmModel) (acc : list ModelFit) :
  exists fits,
    fold_left
      (fun out m =>
         out <- out ;; fit <- Analyze GOARCH m system ;; Ok (out ++ [fit]))
      models (Ok acc) = Ok (acc ++ fits) /\
    Forall2 (fun m f => Analyze GOARCH m system = Ok f) models fits.
Proof.
  revert acc. induction models as [|m models IH]; intro acc.
  - exists []. rewrite app_nil_r. split; [reflexivity | constructor].
  - destruct (Analyze_total GOARCH m system) as [f Hf].
    cbn [fold_left bind]. rewrite Hf. cbn [bind].
    destruct (IH (acc ++ [f])) as (fits & Heq & Hall).
    exists (f :: fits). split.
    + rewrite Heq. now rewrite <- app_assoc.
    + now constructor.
Qed.

Lemma Analyze_Model (GOARCH : string) (model : LlmModel) (system : SystemSpecs)
    (r : ModelFit) :
  Analyze GOARCH model system = Ok r -> Model r = model.
Proof.
  intro HA. destruct (Analyze_fields GOARCH model system r HA)
    as (n0 & n1 & _ & H & _). exact H.
Qed.

Lemma AnalyzeAll_pointwise (GOARCH : string) (models : list LlmModel)
    (system : SystemSpecs) :
  exists fits,
    AnalyzeAll GOARCH models system = Ok fits /\
    Forall2 (fun m f => Analyze GOARCH m system = Ok f) models fits.
Proof.
  unfold AnalyzeAll. destruct (AnalyzeAll_loop GOARCH system models [])
    as (fits & Heq & Hall).
  exists fits. split; [exact Heq | exact Hall].
Qed.

Lemma AnalyzeAll_one_result_per_model_aux (GOARCH : string)
    (models : list LlmModel) (system : SystemSpecs) :
  exists fits,
    AnalyzeAll GOARCH models system = Ok fits /\ length fits = length models.
Proof.
  destruct (AnalyzeAll_pointwise GOARCH models system) as (fits & Heq & Hall).
  exists fits. split; [exact Heq|]. symmetry. eapply Forall2_length; exact Hall.
Qed.

(** X22. [AnalyzeAll] never panics and returns one result per model, in the
    order of the models: the i-th result is the result of [Analyze] on the
    i-th model and carries that model. *)
Theorem AnalyzeAll_one_result_per_model (GOARCH : string)
    (models : list LlmModel) (system : SystemSpecs) :
  exists fits,
    AnalyzeAll GOARCH models system = Ok fits /\
    length fits = length models /\
    map Model fits = models /\
    Forall2 (fun m f => Analyze GOARCH m system = Ok f) models fits.
Proof.
  destruct (AnalyzeAll_pointwise GOARCH models system) as (fits & Heq & Hall).
  exists fits. split; [exact Heq|].
  split; [symmetry; eapply Forall2_length; exact Hall|].
  split; [|exact Hall].
  clear Heq. induction Hall as [|m f models fits Hf _ IH]; simpl; [reflexivity|].
  now rewrite (Analyze_Model _ _ _ _ Hf), IH.
Qed.

Lemma StronglySorted_filter {A : Type} (R S : A -> A -> Prop) (p : A -> bool)
    (l : list A) :
  (forall a b, p a = true -> p b = true -> R a b -> S a b) ->
  StronglySorted R l -> StronglySorted S (filter p l).
Proof.
  intro HRS. induction 1 as [|a l Hl IH Ha]; simpl; [constructor|].
  destruct (p a) eqn:E; [|exact IH].
  constructor; [exact IH|].
  rewrite Forall_forall in *. intros x Hx. apply filter_In in Hx.
  destruct Hx as [Hx Hp]. apply HRS; auto.
Qed.

Lemma In_firstn {A : Type} (n : nat) (l : list A) (x : A) :
  In x (firstn n l) -> In x l.
Proof.
  intro H. rewrite <- (firstn_skipn n l). apply in_or_app. now left.
Qed.

Lemma StronglySorted_firstn {A : Type} (R : A -> A -> Prop) (n : nat) (l : list A) :
  StronglySorted R l -> StronglySorted R (firstn n l).
Proof.
  intro Hs. revert n. induction Hs as [|a l Hl IH Ha]; intros [|n]; simpl;
    try constructor; [apply IH|].
  rewrite Forall_forall in *. intros x Hx. apply Ha.
  eapply In_firstn. exact Hx.
Qed.

Lemma FilterPerfectOnly_filter (fits : list ModelFit) :
  FilterPerfectOnly fits
  = filter (fun f => FitLevel_eqb (FitLevelOf f) FitPerfect) fits.
Proof. unfold FilterPerfectOnly. apply appendIf_filter. Qed.

Lemma RankModelsByFit_sorted (fits : list ModelFit) :
  StronglySorted rankedBefore (RankModelsByFit fits).
Proof.
  unfold RankModelsByFit.
  apply (StronglySorted_weaken (fun a b => rankLess b a = false)).
  - apply rankLess_rankedBefore.
  - apply (Slice_sorted rankLess rankLess_asym rankLess_negtrans).
Qed.




(** X25. [runPole] with a limit from 2^63 on panics, whatever the models
    are: [int(limit)] is negative there, so the test [len(fits) > int(limit)]
    passes and [fits[:limit]] is out of range. *)
Theorem runPole_huge_limit_panics (GOARCH : string) (perfect : bool)
    (limit : N) (models : list LlmModel) (specs : SystemSpecs) :
  (2 ^ 63 <= Z.of_N limit < 2 ^ 64)%Z ->
  (Z.of_nat (length models) < 2 ^ 63)%Z ->
  cli.runPole GOARCH perfect limit models specs = cli.Panicked.
Proof.
  intros [Hlo Hhi] Hlen.
  destruct (AnalyzeAll_one_result_per_model_aux GOARCH models specs)
    as (fits & Heq & Hlenf).
  unfold cli.runPole. rewrite Heq.
  set (ranked := if perfect then FilterPerfectOnly (RankModelsByFit fits)
                 else RankModelsByFit fits).
  assert (Hr : (length ranked <= length models)%nat).
  { assert (Hrank : length (RankModelsByFit fits) = length fits).
    { symmetry. apply Permutation_length. unfold RankModelsByFit.
      apply Slice_Permutation. }
    unfold ranked. destruct perfect; [|lia].
    rewrite FilterPerfectOnly_filter.
    pose proof (filter_length_le
                  (fun f => FitLevel_eqb (FitLevelOf f) FitPerfect)
                  (RankModelsByFit fits)). lia. }
  unfold cli.int_of_uint, cli.sliceTo.
  assert (E : (Z.of_N limit <? 2 ^ 63)%Z = false) by (apply Z.ltb_ge; lia).
  rewrite E.
  assert (E0 : (0 <? limit)%N = true) by (apply N.ltb_lt; lia).
  rewrite E0. cbn [andb].
  assert (E1 : (Z.of_N limit - 2 ^ 64 <? Z.of_nat (length ranked))%Z = true)
    by (apply Z.ltb_lt; lia).
  rewrite E1.
  assert (E2 : (Z.of_N limit <=? Z.of_nat (length ranked))%Z = false)
    by (apply Z.leb_gt; lia).
  now rewrite E2.
Qed.

Lemma runPole_huge_limit_panics_witness :
  (2 ^ 63 <= Z.of_N 9223372036854775808 < 2 ^ 64)%Z /\
  cli.runPole "amd64" false 9223372036854775808 [model7B] (specNoGPU 32 8)
    = cli.Panicked.
Proof.
  assert (H : (2 ^ 63 <= Z.of_N 9223372036854775808 < 2 ^ 64)%Z)
    by (split; [discriminate | reflexivity]).
  split; [exact H|].
  apply (runPole_huge_limit_panics "amd64" false _ [model7B] (specNoGPU 32 8) H).
  reflexivity.
Defined.

(** X26. [runRecommend] never panics: it shows the first [limit] entries of
    the ranking of the results, restricted to the use case when a label is
    given; with the limit 0 it shows nothing. *)
Theorem runRecommend_shows_top_of_ranking (GOARCH : string) (limit : N)
    (useCase : string) (models : list LlmModel) (specs : SystemSpecs) :
  exists fits,
    AnalyzeAll GOARCH models specs = Ok fits /\
    let chosen := if (useCase =? "")%string then fits
                  else FilterByUseCase fits useCase in
    cli.runRecommend GOARCH limit useCase models specs
      = cli.Shown (firstn (N.to_nat limit) (RankModelsByFit chosen)) /\
    (limit = 0%N ->
     cli.runRecommend GOARCH limit useCase models specs = cli.Shown []).
Proof.
  destruct (AnalyzeAll_pointwise GOARCH models specs) as (fits & Heq & _).
  exists fits. split; [exact Heq|]. cbv zeta.
  assert (Hrun : cli.runRecommend GOARCH limit useCase models specs
                 = cli.Shown (firstn (N.to_nat limit)
                     (RankModelsByFit (if (useCase =? "")%string then fits
                                       else FilterByUseCase fits useCase)))).
  { unfold cli.runRecommend. rewrite Heq.
    replace (if negb (useCase =? "")%string then FilterByUseCase fits useCase
             else fits)
      with (if (useCase =? "")%string then fits else FilterByUseCase fits useCase)
      by (destruct (useCase =? "")%string; reflexivity).
    set (ranked := RankModelsByFit _).
    destruct (N.ltb_spec limit (N.of_nat (length ranked))) as [Hlt | Hge].
    - unfold cli.sliceTo.
      assert (E1 : (Z.of_N limit <=? Z.of_nat (length ranked))%Z = true)
        by (apply Z.leb_le; lia).
      now rewrite E1.
    - rewrite firstn_all2 by lia. reflexivity. }
  split; [exact Hrun|].
  intros ->. rewrite Hrun. reflexivity.
Qed.

(** ** The snapshot that [Detect] builds *)

Lemma gpuLess_asym (a b : GpuInfo) :
  detect.gpuLess a b = true -> detect.gpuLess b a = false.
Proof.
  unfold detect.gpuLess. intro H. apply flt_lt in H. apply flt_ge. lra.
Qed.

Lemma gpuLess_negtrans (a b c : GpuInfo) :
  detect.gpuLess a b = false -> detect.gpuLess b c = false ->
  detect.gpuLess a c = false.
Proof.
  unfold detect.gpuLess. intros H1 H2.
  apply flt_ge in H1. apply flt_ge in H2. apply flt_ge. lra.
Qed.

Lemma sorted_gpus (detected : list GpuInfo) :
  Permutation detected (sort.Slice detect.gpuLess detected) /\
  StronglySorted (fun a b => detect.vramOrZero b <= detect.vramOrZero a)
    (sort.Slice detect.gpuLess detected).
Proof.
  split; [apply Slice_Permutation|].
  apply (StronglySorted_weaken (fun a b => detect.gpuLess b a = false)).
  - intros a b H. unfold detect.gpuLess in H. now apply flt_ge in H.
  - apply (Slice_sorted detect.gpuLess gpuLess_asym gpuLess_negtrans).
Qed.

Lemma cpu_only_iff_no_gpu_aux (GOARCH : string) (model : LlmModel)
    (system : SystemSpecs) (r : ModelFit) :
  Analyze GOARCH model system = Ok r ->
  HasGPU system = false \/ GpuVRAMGB system = None ->
  RunModeOf r = RunModeCpuOnly.
Proof.
  intros HA Hno.
  destruct (Analyze_tree GOARCH model system r HA)
    as [(Hm & _) | (v & Hgpu & Hv & _)]; [exact Hm|].
  destruct Hno; congruence.
Qed.

(** X27. When the memory probe succeeds, [Detect] returns a snapshot whose
    GPU list is the detected list sorted by VRAM, greatest first, an absent
    VRAM counting as 0; the snapshot has a GPU exactly when one was
    detected; its primary-GPU fields mirror the first GPU of the list, which
    has the greatest VRAM of all; and without a detected GPU every model is
    analysed as CPU-only against it. *)
Theorem Detect_sorts_gpus_primary_first (GOOS GOARCH : string)
    (total available : N) (vmStat : float64) (infos : list (string * string))
    (numCPU : Z) (detected : list GpuInfo) :
  exists s,
    detect.Detect GOOS GOARCH (Some (total, available)) vmStat infos numCPU detected
      = Some s /\
    Permutation detected (Gpus s) /\
    StronglySorted (fun a b => detect.vramOrZero b <= detect.vramOrZero a) (Gpus s) /\
    (HasGPU s = true <-> detected <> []) /\
    match Gpus s with
    | primary :: _ =>
        GpuVRAMGB s = VRAMGB primary /\
        GpuName s = Some (GpuInfoName primary) /\
        GpuCount s = Count primary /\
        UnifiedMemory s = GpuInfoUnifiedMemory primary /\
        Backend s = GpuInfoBackend primary /\
        (forall g, In g detected ->
                   detect.vramOrZero g <= detect.vramOrZero primary)
    | [] =>
        GpuVRAMGB s = None /\
        Backend s = detect.backendCPU GOARCH (CPUName s) /\
        (forall model r, Analyze GOARCH model s = Ok r ->
                         RunModeOf r = RunModeCpuOnly)
    end.
Proof.
  unfold detect.Detect.
  destruct (sorted_gpus detected) as [Hperm Hsorted].
  destruct (sort.Slice detect.gpuLess detected) as [|primary rest] eqn:E;
    eexists; (split; [reflexivity|]); cbn.
  - repeat split; try assumption.
    + discriminate.
    + intros Hne. apply Permutation_sym, Permutation_nil in Hperm. contradiction.
    + intros model r HA.
      apply (cpu_only_iff_no_gpu_aux GOARCH model _ r HA). left. reflexivity.
  - repeat split; try assumption.
    + intros _ Hnil. subst. apply Permutation_nil in Hperm. discriminate.
    + intros g Hg. apply (Permutation_in _ Hperm) in Hg.
      destruct Hg as [<- | Hg]; [apply Qle_refl|].
      apply StronglySorted_inv in Hsorted. destruct Hsorted as [_ Hall].
      rewrite Forall_forall in Hall. now apply Hall.
Qed.

(** X28. [Detect] fails only when the memory probe fails, and when the
    machine reports a positive total RAM the available RAM of the snapshot
    is positive, also when the probe reports 0 bytes available: then the
    fallback applies (the page statistics on darwin when they are positive,
    else 80% of the total). *)
Theorem Detect_available_ram_positive (GOOS GOARCH : string)
    (memory : option (N * N)) (vmStat : float64)
    (infos : list (string * string)) (numCPU : Z) (detected : list GpuInfo) :
  (detect.Detect GOOS GOARCH memory vmStat infos numCPU detected = None
   <-> memory = None) /\
  (forall total available s,
     memory = Some (total, available) ->
     (0 < total)%N ->
     detect.Detect GOOS GOARCH memory vmStat infos numCPU detected = Some s ->
     0 < AvailableRAMGB s /\
     (available = 0%N ->
      AvailableRAMGB s = detect.availableRAMFallback GOOS vmStat (TotalRAMGB s))).
Proof.
  split.
  - unfold detect.Detect. destruct memory as [[total available]|];
      split; intro H; try discriminate; reflexivity.
  - intros total available s -> Htotal H.
    unfold detect.Detect in H.
    assert (Havail :
      AvailableRAMGB s =
        (if (available =? 0)%N && (0 <? total)%N
         then detect.availableRAMFallback GOOS vmStat (float64_of_N total / detect.gb)
         else float64_of_N available / detect.gb) /\
      TotalRAMGB s = float64_of_N total / detect.gb).
    { destruct (sort.Slice detect.gpuLess detected); inversion H; subst; cbn; auto. }
    destruct Havail as [Ha Ht]. rewrite Ha, Ht.
    assert (Hgb : 0 < detect.gb) by reflexivity.
    assert (Htot : 0 < float64_of_N total / detect.gb).
    { apply Qlt_shift_div_l; [exact Hgb|].
      setoid_replace (0 * detect.gb) with 0 by ring.
      unfold float64_of_N. change 0 with (inject_Z 0). rewrite <- Zlt_Qlt. lia. }
    assert (E : (0 <? total)%N = true) by now apply N.ltb_lt.
    rewrite E, andb_true_r.
    destruct (N.eqb_spec available 0) as [-> | Hne].
    + split; [|reflexivity].
      unfold detect.availableRAMFallback.
      destruct (GOOS =? "darwin")%string; [|lra].
      destruct (flt 0 vmStat) eqn:Ev; [now apply flt_lt in Ev | lra].
    + split; [|intro; contradiction].
      apply Qlt_shift_div_l; [exact Hgb|].
      setoid_replace (0 * detect.gb) with 0 by ring.
      unfold float64_of_N. change 0 with (inject_Z 0). rewrite <- Zlt_Qlt. lia.
Qed.

Lemma Detect_available_ram_positive_witness :
  exists s,
    detect.Detect "linux" "amd64" (Some (34359738368, 0)%N) 0 [] 8 [] = Some s /\
    (0 < 34359738368)%N /\
    0 < AvailableRAMGB s /\
    AvailableRAMGB s == 25.6.
Proof.
  eexists. split; [reflexivity|]. split; [reflexivity|].
  split.
  - eapply (proj2 (Detect_available_ram_positive "linux" "amd64"
                     (Some (34359738368, 0)%N) 0 [] 8 []));
      reflexivity.
  - reflexivity.
Defined.

(** ** The state of the browser *)

Import tui.
Local Open Scope Z_scope.

Lemma len_nonneg {A : Type} (l : list A) : 0 <= len l.
Proof. unfold len. lia. Qed.

Lemma len_nil_iff {A : Type} (l : list A) : len l = 0 <-> l = [].
Proof.
  unfold len. destruct l as [|x l]; cbn [length]; split; intro H;
    try reflexivity; try discriminate; lia.
Qed.

Lemma len_app {A : Type} (l l' : list A) : len (l ++ l') = len l + len l'.
Proof. unfold len. rewrite length_app. lia. Qed.

(** The loop of [ApplyFilters] adds to [out] the positions of the entries
    that pass, in order. *)
Lemma filterFrom_app (a : App) (q : string) (fits : list ModelFit) :
  forall i out,
    filterFrom a q i fits out = (out ++ filterFrom a q i fits [])%list.
Proof.
  induction fits as [|fit rest IH]; intros i out; cbn [filterFrom].
  - now rewrite app_nil_r.
  - rewrite IH. rewrite (IH _ (if passes a q fit then _ else _)).
    destruct (passes a q fit); cbn [app].
    + now rewrite <- app_assoc.
    + reflexivity.
Qed.

Lemma filterFrom_In (a : App) (q : string) (fits : list ModelFit) :
  forall i k,
    In k (filterFrom a q i fits []) <->
    i <= k /\
    exists fit, nth_error fits (Z.to_nat (k - i)) = Some fit
                /\ passes a q fit = true.
Proof.
  induction fits as [|fit rest IH]; intros i k; cbn [filterFrom].
  - split; [intros [] | intros [_ [f [H _]]]].
    destruct (Z.to_nat (k - i)); discriminate.
  - rewrite filterFrom_app, in_app_iff, IH. split.
    + intros [H | [Hle [f [Hn Hp]]]].
      * destruct (passes a q fit) eqn:Hp; [|destruct H].
        destruct H as [<- | []]. split; [lia|].
        exists fit. rewrite Z.sub_diag. now split.
      * split; [lia|]. exists f. split; [|exact Hp].
        replace (Z.to_nat (k - i)) with (S (Z.to_nat (k - (i + 1)))) by lia.
        exact Hn.
    + intros [Hle [f [Hn Hp]]].
      destruct (Z.eq_dec k i) as [-> | Hne].
      * left. rewrite Z.sub_diag in Hn. cbn in Hn. injection Hn as ->.
        rewrite Hp. now left.
      * right. split; [lia|]. exists f. split; [|exact Hp].
        replace (Z.to_nat (k - i)) with (S (Z.to_nat (k - (i + 1)))) in Hn by lia.
        exact Hn.
Qed.

Lemma filterFrom_all (a : App) (q : string) (fits : list ModelFit) :
  (forall fit, In fit fits -> passes a q fit = true) ->
  forall i,
    filterFrom a q i fits []
    = map (fun k => i + Z.of_nat k) (seq 0 (length fits)).
Proof.
  induction fits as [|fit rest IH]; intros Hall i; cbn [filterFrom].
  - reflexivity.
  - rewrite (Hall fit (or_introl eq_refl)). rewrite filterFrom_app.
    rewrite IH by (intros f Hf; apply Hall; now right).
    cbn [length seq map app]. rewrite Z.add_0_r. f_equal.
    rewrite <- seq_shift, map_map. apply map_ext. intros k. lia.
Qed.

(** The loop reads the provider list, the ticks and the fit filter only. *)
Lemma passes_ext (a b : App) (q : string) (fit : ModelFit) :
  Providers b = Providers a ->
  SelectedProviders b = SelectedProviders a ->
  FitFilterOf b = FitFilterOf a ->
  passes b q fit = passes a q fit.
Proof. intros E1 E2 E3. unfold passes. now rewrite E1, E2, E3. Qed.

Lemma filterFrom_ext (a b : App) (q : string) (fits : list ModelFit) :
  Providers b = Providers a ->
  SelectedProviders b = SelectedProviders a ->
  FitFilterOf b = FitFilterOf a ->
  forall i out, filterFrom b q i fits out = filterFrom a q i fits out.
Proof.
  intros E1 E2 E3. induction fits as [|fit rest IH]; intros i out.
  - reflexivity.
  - cbn [filterFrom]. rewrite IH. now rewrite (passes_ext a b).
Qed.

(** [ApplyFilters] reads the filters and writes the rows only. *)
Lemma ApplyFilters_inSync (a : App) :
  0 <= SelectedRow a -> 0 <= ProviderCursor a -> inSync (ApplyFilters a).
Proof.
  intros Hrow Hcur. unfold inSync, ApplyFilters.
  cbn [withSelection FilteredFits SelectedRow ProviderCursor SearchQuery AllFits].
  rewrite (filterFrom_ext a (withSelection a _ _)) by reflexivity.
  set (out := filterFrom _ _ _ _ _).
  split; [reflexivity|].
  pose proof (len_nonneg out) as Hlen.
  destruct (len out =? 0) eqn:E0.
  - apply Z.eqb_eq in E0. apply len_nil_iff in E0.
    repeat split; try lia; right; now split.
  - apply Z.eqb_neq in E0.
    destruct (len out <=? SelectedRow a) eqn:E1.
    + repeat split; try lia; left; lia.
    + apply Z.leb_gt in E1. repeat split; try lia; left; lia.
Qed.

Lemma inSync_row (a : App) (row : Z) :
  inSync a ->
  0 <= row ->
  row < len (FilteredFits a) \/ (FilteredFits a = [] /\ row = 0) ->
  inSync (withSelectedRow a row).
Proof.
  intros (Hf & _ & _ & Hcur) Hrow Hlt. unfold inSync, withSelectedRow.
  cbn [withSelection FilteredFits SelectedRow ProviderCursor SearchQuery AllFits].
  rewrite (filterFrom_ext a (withSelection a _ _)) by reflexivity.
  repeat split; try assumption.
Qed.

Lemma MoveUp_inSync (a : App) : inSync a -> inSync (MoveUp a).
Proof.
  intros H. pose proof H as (Hf & Hrow & Hlt & Hcur). unfold MoveUp.
  destruct (0 <? SelectedRow a) eqn:E; [|exact H].
  apply Z.ltb_lt in E. apply inSync_row; [exact H | lia |].
  destruct Hlt as [Hlt | [_ H0]]; [left; lia | lia].
Qed.

Lemma MoveDown_inSync (a : App) : inSync a -> inSync (MoveDown a).
Proof.
  intros H. pose proof H as (Hf & Hrow & Hlt & Hcur). unfold MoveDown.
  destruct (_ && _) eqn:E; [|exact H].
  apply andb_true_iff in E. destruct E as [E1 E2].
  apply Z.ltb_lt in E1, E2. apply inSync_row; [exact H | lia | left; lia].
Qed.

Lemma PageUp_inSync (a : App) : inSync a -> inSync (PageUp a).
Proof.
  intros H. pose proof H as (Hf & Hrow & Hlt & Hcur). unfold PageUp.
  destruct (SelectedRow a - 10 <? 0) eqn:E.
  - apply inSync_row; [exact H | lia |].
    destruct Hlt as [Hlt | [Hnil _]]; [left; lia | right; now split].
  - apply Z.ltb_ge in E. apply inSync_row; [exact H | lia |].
    destruct Hlt as [Hlt | [_ H0]]; [left; lia | lia].
Qed.

Lemma PageDown_inSync (a : App) : inSync a -> inSync (PageDown a).
Proof.
  intros H. pose proof H as (Hf & Hrow & Hlt & Hcur). unfold PageDown.
  pose proof (len_nonneg (FilteredFits a)) as Hlen.
  destruct (len (FilteredFits a) =? 0) eqn:E0; [exact H|].
  apply Z.eqb_neq in E0.
  destruct (len (FilteredFits a) <=? SelectedRow a + 10) eqn:E.
  - apply inSync_row; [exact H | lia | left; lia].
  - apply Z.leb_gt in E. apply inSync_row; [exact H | lia | left; lia].
Qed.

Lemma Home_inSync (a : App) : inSync a -> inSync (Home a).
Proof.
  intros H. pose proof H as (Hf & Hrow & Hlt & Hcur). unfold Home.
  apply inSync_row; [exact H | lia |].
  destruct Hlt as [Hlt | [Hnil _]]; [left; lia | right; now split].
Qed.

Lemma End_inSync (a : App) : inSync a -> inSync (End_ a).
Proof.
  intros H. unfold End_.
  destruct (0 <? len (FilteredFits a)) eqn:E; [|exact H].
  apply Z.ltb_lt in E. apply inSync_row; [exact H | lia | left; lia].
Qed.

Lemma CycleFitFilter_inSync (a : App) : inSync a -> inSync (CycleFitFilter a).
Proof.
  intros (Hf & Hrow & Hlt & Hcur). unfold CycleFitFilter.
  apply ApplyFilters_inSync; assumption.
Qed.

Lemma search_inSync (a : App) (query : string) (cursor : Z) :
  inSync a -> inSync (ApplyFilters (withSearch a query cursor)).
Proof.
  intros (Hf & Hrow & Hlt & Hcur). apply ApplyFilters_inSync; assumption.
Qed.

Lemma ProviderPopupUp_inSync (a : App) : inSync a -> inSync (ProviderPopupUp a).
Proof.
  intros H. pose proof H as (Hf & Hrow & Hlt & Hcur). unfold ProviderPopupUp.
  destruct (0 <? ProviderCursor a) eqn:E; [|exact H].
  apply Z.ltb_lt in E. unfold inSync.
  cbn [withProviderCursor FilteredFits SelectedRow ProviderCursor SearchQuery AllFits].
  rewrite (filterFrom_ext a (withProviderCursor a _)) by reflexivity.
  repeat split; try assumption. lia.
Qed.

Lemma ProviderPopupDown_inSync (a : App) :
  inSync a -> inSync (ProviderPopupDown a).
Proof.
  intros H. pose proof H as (Hf & Hrow & Hlt & Hcur). unfold ProviderPopupDown.
  destruct (ProviderCursor a + 1 <? len (Providers a)) eqn:E; [|exact H].
  unfold inSync.
  cbn [withProviderCursor FilteredFits SelectedRow ProviderCursor SearchQuery AllFits].
  rewrite (filterFrom_ext a (withProviderCursor a _)) by reflexivity.
  repeat split; try assumption. lia.
Qed.

Lemma ProviderPopupToggle_inSync (a : App) :
  inSync a -> exists a', ProviderPopupToggle a = Some a' /\ inSync a'.
Proof.
  intros H. pose proof H as (Hf & Hrow & Hlt & Hcur). unfold ProviderPopupToggle.
  destruct (ProviderCursor a <? len (SelectedProviders a)); [|now exists a].
  destruct (ProviderCursor a <? 0) eqn:E; [apply Z.ltb_lt in E; lia|].
  eexists. split; [reflexivity|]. apply ApplyFilters_inSync; assumption.
Qed.

Lemma ProviderPopupSelectAll_inSync (a : App) :
  inSync a -> inSync (ProviderPopupSelectAll a).
Proof.
  intros (Hf & Hrow & Hlt & Hcur). apply ApplyFilters_inSync; assumption.
Qed.

Lemma flag_inSync (a b : App) :
  inSync a ->
  FilteredFits b = FilteredFits a -> SelectedRow b = SelectedRow a ->
  ProviderCursor b = ProviderCursor a ->
  SearchQuery b = SearchQuery a -> AllFits b = AllFits a ->
  Providers b = Providers a ->
  SelectedProviders b = SelectedProviders a ->
  FitFilterOf b = FitFilterOf a ->
  inSync b.
Proof.
  intros (Hf & Hrow & Hlt & Hcur) E1 E2 E3 E4 E5 E6 E7 E8. unfold inSync.
  rewrite (filterFrom_ext a b) by assumption.
  rewrite E1, E2, E3, E4, E5. repeat split; assumption.
Qed.

Lemma handleNormal_inSync (a : App) (s : string) :
  inSync a -> inSync (handleNormal a s).
Proof.
  intros H. unfold handleNormal.
  repeat match goal with
         | |- inSync (if ?c then _ else _) => destruct c
         end;
    first [ exact H
          | now apply MoveUp_inSync | now apply MoveDown_inSync
          | now apply PageUp_inSync | now apply PageDown_inSync
          | now apply Home_inSync | now apply End_inSync
          | now apply CycleFitFilter_inSync
          | apply (flag_inSync a); [exact H | reflexivity ..] ].
Qed.

Lemma handleProviderPopup_inSync (a : App) (s : string) :
  inSync a -> exists a', handleProviderPopup a s = Some a' /\ inSync a'.
Proof.
  intros H. unfold handleProviderPopup.
  repeat match goal with
         | |- exists _, (if ?c then _ else _) = _ /\ _ => destruct c
         end;
    first [ now apply ProviderPopupToggle_inSync
          | eexists; split; [reflexivity|];
            first [ exact H
                  | now apply ProviderPopupUp_inSync
                  | now apply ProviderPopupDown_inSync
                  | now apply ProviderPopupSelectAll_inSync
                  | apply (flag_inSync a); [exact H | reflexivity ..] ] ].
Qed.

(** What [SelectedFit] returns in a state in sync. *)
Lemma SelectedFit_inSync (a : App) :
  inSync a ->
  (SelectedFit a = None <-> FilteredFits a = []) /\
  (forall fit, SelectedFit a = Some fit ->
     exists idx,
       nth_error (FilteredFits a) (Z.to_nat (SelectedRow a)) = Some idx /\
       0 <= idx /\
       nth_error (AllFits a) (Z.to_nat idx) = Some fit /\
       passes a (strings.ToLower (SearchQuery a)) fit = true).
Proof.
  intros (Hf & Hrow & Hlt & Hcur).
  pose proof (len_nonneg (FilteredFits a)) as Hlen.
  unfold SelectedFit.
  destruct (len (FilteredFits a) =? 0) eqn:E0.
  { apply Z.eqb_eq in E0. apply len_nil_iff in E0. cbn [orb].
    split; [now split | discriminate]. }
  apply Z.eqb_neq in E0.
  assert (Hne : FilteredFits a <> []) by (intro Hn; apply E0; now rewrite Hn).
  destruct Hlt as [Hlt | [Hnil _]]; [|contradiction].
  replace (SelectedRow a <? 0) with false by (symmetry; apply Z.ltb_ge; lia).
  replace (len (FilteredFits a) <=? SelectedRow a) with false
    by (symmetry; apply Z.leb_gt; lia).
  cbn [orb]. unfold at_.
  assert (Hn : (Z.to_nat (SelectedRow a) < length (FilteredFits a))%nat)
    by (unfold len in Hlt; lia).
  pose proof (nth_In (FilteredFits a) 0 Hn) as Hin.
  pose proof (nth_error_nth' (FilteredFits a) 0 Hn) as Hidx.
  set (idx := nth (Z.to_nat (SelectedRow a)) (FilteredFits a) 0) in *.
  rewrite Hf in Hin. apply filterFrom_In in Hin.
  destruct Hin as (Hle & fit & Hfit & Hp). rewrite Z.sub_0_r in Hfit.
  assert (Hb : (Z.to_nat idx < length (AllFits a))%nat)
    by (apply nth_error_Some; congruence).
  replace (idx <? 0) with false by (symmetry; apply Z.ltb_ge; lia).
  replace (len (AllFits a) <=? idx) with false
    by (symmetry; apply Z.leb_gt; unfold len; lia).
  cbn [orb]. rewrite Hfit. split.
  - split; [discriminate | intro; contradiction].
  - intros f [= <-]. exists idx. repeat split; assumption.
Qed.

(** [<] on Go strings is a strict total order. *)
Lemma N_of_ascii_inj (x y : ascii) : N_of_ascii x = N_of_ascii y -> x = y.
Proof.
  intro H. rewrite <- (ascii_N_embedding x), <- (ascii_N_embedding y).
  now rewrite H.
Qed.

Lemma stringLess_asym (a b : string) :
  stringLess a b = true -> stringLess b a = false.
Proof.
  revert b. induction a as [|x a IH]; intros [|y b]; cbn [stringLess];
    try reflexivity; try discriminate.
  destruct (N.ltb_spec (N_of_ascii x) (N_of_ascii y)) as [Hxy | Hxy];
    destruct (N.ltb_spec (N_of_ascii y) (N_of_ascii x)) as [Hyx | Hyx];
    try reflexivity; try discriminate; try lia.
  apply IH.
Qed.

Lemma stringLess_negtrans (a b c : string) :
  stringLess a b = false -> stringLess b c = false -> stringLess a c = false.
Proof.
  revert b c. induction a as [|x a IH]; intros [|y b] [|z c];
    cbn [stringLess]; try reflexivity; try discriminate.
  destruct (N.ltb_spec (N_of_ascii x) (N_of_ascii y)) as [Hxy | Hxy];
    [discriminate|].
  destruct (N.ltb_spec (N_of_ascii y) (N_of_ascii z)) as [Hyz | Hyz];
    [discriminate|].
  destruct (N.ltb_spec (N_of_ascii x) (N_of_ascii z)) as [Hxz | Hxz]; [lia|].
  destruct (N.ltb_spec (N_of_ascii y) (N_of_ascii x)) as [Hyx | Hyx];
    destruct (N.ltb_spec (N_of_ascii z) (N_of_ascii y)) as [Hzy | Hzy];
    destruct (N.ltb_spec (N_of_ascii z) (N_of_ascii x)) as [Hzx | Hzx];
    intros H1 H2; try reflexivity; try lia.
  now apply (IH b c).
Qed.

Lemma stringLess_total (a b : string) :
  stringLess a b = false -> stringLess b a = false -> a = b.
Proof.
  revert b. induction a as [|x a IH]; intros [|y b]; cbn [stringLess];
    try reflexivity; try discriminate.
  destruct (N.ltb_spec (N_of_ascii x) (N_of_ascii y)) as [Hxy | Hxy];
    [discriminate|].
  destruct (N.ltb_spec (N_of_ascii y) (N_of_ascii x)) as [Hyx | Hyx];
    [discriminate|].
  intros H1 H2. f_equal; [apply N_of_ascii_inj; lia | now apply IH].
Qed.

Lemma StronglySorted_strict (l : list string) :
  NoDup l ->
  StronglySorted (fun p p' => stringLess p' p = false) l ->
  StronglySorted (fun p p' => stringLess p p' = true) l.
Proof.
  intros Hnd Hs. induction Hs as [|p l Hl IH Hp]; constructor.
  - apply IH. now inversion Hnd.
  - inversion Hnd as [|? ? Hnotin Hnd']; subst.
    rewrite Forall_forall in Hp |- *. intros p' Hin.
    destruct (stringLess p p') eqn:E; [reflexivity|].
    exfalso. apply Hnotin.
    now rewrite (stringLess_total p p' E (Hp p' Hin)).
Qed.

Lemma fold_set_keys (fits : list ModelFit) (m0 : gomap.t unit) (k : string) :
  In k (map fst (fold_left (fun set f => gomap.set set (Provider (Model f)) tt)
                   fits m0))
  <-> In k (map fst m0) \/ exists fit, In fit fits /\ Provider (Model fit) = k.
Proof.
  revert m0. induction fits as [|f rest IH]; intro m0; cbn [fold_left].
  - split; [now left | intros [H | (fit & [] & _)]; exact H].
  - rewrite IH. unfold gomap.set. cbn [map fst In]. split.
    + intros [[H | H] | (fit & Hin & Hp)].
      * right. exists f. split; [now left | exact H].
      * now left.
      * right. exists fit. split; [now right | exact Hp].
    + intros [H | (fit & [<- | Hin] & Hp)].
      * left. now right.
      * left. now left.
      * right. now exists fit.
Qed.

Lemma providerIndexFrom_bounds (providers : list string) (p : string) :
  In p providers ->
  forall j,
    j <= providerIndexFrom j providers p < j + len providers.
Proof.
  induction providers as [|p' rest IH]; intros Hin j; [destruct Hin|].
  cbn [providerIndexFrom]. unfold len. cbn [length].
  destruct (String.eqb_spec p' p) as [-> | Hne]; [lia|].
  destruct Hin as [-> | Hin]; [contradiction|].
  specialize (IH Hin (j + 1)). unfold len in IH. lia.
Qed.

Lemma nth_all_true {A : Type} (l : list A) (n : nat) :
  (n < length l)%nat -> nth n (map (fun _ => true) l) false = true.
Proof.
  revert n. induction l as [|x l IH]; intros [|n] H; cbn in *;
    try lia; try reflexivity. apply IH. lia.
Qed.

Lemma NewApp_providers (specs : SystemSpecs) (fits : list ModelFit) (p : string) :
  In p (Providers (NewApp specs fits))
  <-> exists fit, In fit fits /\ Provider (Model fit) = p.
Proof.
  unfold NewApp, ApplyFilters. cbn [withSelection Providers].
  rewrite <- (Permutation_in' (eq_refl p)
                (Slice_Permutation stringLess _)).
  unfold keys. rewrite nodup_In, fold_set_keys. cbn [gomap.empty map In].
  split; [intros [[] | H]; exact H | now right].
Qed.

Lemma NewApp_rows (specs : SystemSpecs) (fits : list ModelFit) :
  FilteredFits (NewApp specs fits) = map Z.of_nat (seq 0 (length fits)) /\
  SelectedRow (NewApp specs fits) = 0.
Proof.
  assert (Hall :
    filterFrom (NewApp specs fits) "" 0 fits []
    = map (fun k => 0 + Z.of_nat k) (seq 0 (length fits))).
  { apply filterFrom_all. intros fit Hin. unfold passes.
    change (String.eqb "" "") with true. cbn [orb andb].
    assert (Hp : In (Provider (Model fit)) (Providers (NewApp specs fits)))
      by (apply NewApp_providers; now exists fit).
    pose proof (providerIndexFrom_bounds _ _ Hp 0) as Hb.
    set (idx := providerIndexFrom 0 _ _) in *.
    assert (Hsel : SelectedProviders (NewApp specs fits)
                   = map (fun _ => true) (Providers (NewApp specs fits)))
      by reflexivity.
    assert (Hflt : FitFilterOf (NewApp specs fits) = FitFilterAll)
      by reflexivity.
    rewrite Hsel, Hflt. unfold len in *. rewrite length_map. unfold at_.
    rewrite nth_all_true by lia.
    replace (idx <? Z.of_nat (length (Providers (NewApp specs fits))))
      with true by (symmetry; apply Z.ltb_lt; lia).
    now rewrite orb_true_r. }
  assert (Hout : FilteredFits (NewApp specs fits)
                 = filterFrom (NewApp specs fits) "" 0 fits []).
  { unfold NewApp at 1. unfold ApplyFilters.
    cbn [withSelection FilteredFits SearchQuery AllFits].
    change (strings.ToLower "") with "".
    apply filterFrom_ext; reflexivity. }
  rewrite Hall in Hout.
  assert (Hmap : map (fun k => 0 + Z.of_nat k) (seq 0 (length fits))
                 = map Z.of_nat (seq 0 (length fits)))
    by (apply map_ext; intro k; lia).
  rewrite Hmap in Hout. split; [exact Hout|].
  unfold NewApp, ApplyFilters. cbn [withSelection SelectedRow].
  match goal with
  | |- (if len ?o =? 0 then _ else _) = _ =>
      pose proof (len_nonneg o) as Hlen;
      destruct (len o =? 0) eqn:E0; [reflexivity|];
      destruct (len o <=? 0) eqn:E1; [|reflexivity];
      apply Z.eqb_neq in E0; apply Z.leb_le in E1; lia
  end.
Qed.

Lemma NewApp_inSync (specs : SystemSpecs) (fits : list ModelFit) :
  inSync (NewApp specs fits).
Proof. unfold NewApp. apply ApplyFilters_inSync; cbn; lia. Qed.

(** X29. [NewApp] starts the browser with every model shown and the first
    one selected: the rows are the positions 0, 1, ... of the given fits,
    the selected row is 0, [SelectedFit] is the first fit (nil when there is
    none), the provider list holds the providers of the fits, each once and
    in ascending order, all of them ticked, and the state is in sync. *)
Theorem NewApp_shows_every_model (specs : SystemSpecs) (fits : list ModelFit) :
  inSync (NewApp specs fits) /\
  FilteredFits (NewApp specs fits) = map Z.of_nat (seq 0 (length fits)) /\
  SelectedRow (NewApp specs fits) = 0 /\
  SelectedFit (NewApp specs fits) = hd_error fits /\
  (forall p, In p (Providers (NewApp specs fits))
             <-> exists fit, In fit fits /\ Provider (Model fit) = p) /\
  StronglySorted (fun p p' => stringLess p p' = true)
    (Providers (NewApp specs fits)) /\
  forallb (fun s => s) (SelectedProviders (NewApp specs fits)) = true /\
  length (SelectedProviders (NewApp specs fits))
  = length (Providers (NewApp specs fits)).
Proof.
  destruct (NewApp_rows specs fits) as [Hrows Hrow].
  split; [apply NewApp_inSync|].
  split; [exact Hrows|]. split; [exact Hrow|].
  split.
  { unfold SelectedFit. rewrite Hrows, Hrow.
    assert (Hfits : AllFits (NewApp specs fits) = fits) by reflexivity.
    rewrite Hfits. destruct fits as [|fit rest]; [reflexivity|].
    unfold len. cbn [length seq map]. unfold at_. cbn [Z.to_nat nth].
    change (Z.of_nat 0) with 0. cbn [Z.ltb Z.compare orb].
    replace (Z.of_nat (S (length (map Z.of_nat (seq 1 (length rest))))) =? 0)
      with false by (symmetry; apply Z.eqb_neq; lia).
    replace (Z.of_nat (S (length (map Z.of_nat (seq 1 (length rest))))) <=? 0)
      with false by (symmetry; apply Z.leb_gt; lia).
    replace (Z.of_nat (S (length rest)) <=? 0)
      with false by (symmetry; apply Z.leb_gt; lia).
    reflexivity. }
  split; [apply NewApp_providers|].
  assert (Hprov : Providers (NewApp specs fits)
                  = sort.Slice stringLess
                      (keys (fold_left
                               (fun set f => gomap.set set (Provider (Model f)) tt)
                               fits gomap.empty)))
    by reflexivity.
  assert (Hsel : SelectedProviders (NewApp specs fits)
                 = map (fun _ => true) (Providers (NewApp specs fits)))
    by reflexivity.
  split; [|split].
  - rewrite Hprov. apply StronglySorted_strict.
    + eapply Permutation_NoDup; [apply Slice_Permutation|].
      unfold keys. apply NoDup_nodup.
    + apply Slice_sorted.
      * apply stringLess_asym.
      * apply stringLess_negtrans.
  - rewrite Hsel. generalize (Providers (NewApp specs fits)).
    intro l. induction l as [|x l IH]; [reflexivity | exact IH].
  - rewrite Hsel. apply length_map.
Qed.

(** X30. From a state in sync every modelled key leads to a state in sync,
    and the provider tick does not panic: the keys of the normal mode, the
    keys of the provider list, leaving and clearing the search, and any new
    search text followed by [ApplyFilters].  In such a state [SelectedFit]
    is nil exactly when no row is shown; otherwise it is the entry of
    [AllFits] at the position the selected row holds, and that entry passes
    the search, the provider and the fit filter. *)
Theorem browser_state_stays_in_sync (a : App) (H : inSync a) :
  (forall s, inSync (handleNormal a s)) /\
  (forall s, exists a', handleProviderPopup a s = Some a' /\ inSync a') /\
  inSync (ExitSearch a) /\
  inSync (ClearSearch a) /\
  (forall query cursor, inSync (ApplyFilters (withSearch a query cursor))) /\
  inSync (ApplyFilters a) /\
  (SelectedFit a = None <-> FilteredFits a = []) /\
  (forall fit, SelectedFit a = Some fit ->
     exists idx,
       nth_error (FilteredFits a) (Z.to_nat (SelectedRow a)) = Some idx /\
       0 <= idx /\
       nth_error (AllFits a) (Z.to_nat idx) = Some fit /\
       passes a (strings.ToLower (SearchQuery a)) fit = true).
Proof.
  split; [intro s; now apply handleNormal_inSync|].
  split; [intro s; now apply handleProviderPopup_inSync|].
  split; [apply (flag_inSync a); [exact H | reflexivity ..]|].
  split; [now apply search_inSync|].
  split; [intros query cursor; now apply search_inSync|].
  split; [destruct H as (_ & Hrow & _ & Hcur); now apply ApplyFilters_inSync|].
  now apply SelectedFit_inSync.
Qed.

Lemma browser_state_stays_in_sync_witness :
  inSync (NewApp (specNoGPU 16%Q 4)
            [fitOf FitTooTight 0%Q UseCaseGeneral; fitOf FitGood 80%Q UseCaseGeneral]) /\
  FilteredFits
    (handleNormal
       (NewApp (specNoGPU 16%Q 4)
          [fitOf FitTooTight 0%Q UseCaseGeneral; fitOf FitGood 80%Q UseCaseGeneral])
       "f")
  = [1] /\
  inSync
    (handleNormal
       (NewApp (specNoGPU 16%Q 4)
          [fitOf FitTooTight 0%Q UseCaseGeneral; fitOf FitGood 80%Q UseCaseGeneral])
       "f").
Proof.
  assert (H : inSync (NewApp (specNoGPU 16%Q 4)
                        [fitOf FitTooTight 0%Q UseCaseGeneral;
                         fitOf FitGood 80%Q UseCaseGeneral])).
  { unfold inSync. split; [vm_compute; reflexivity|].
    split; [vm_compute; discriminate|].
    split; [left; vm_compute; reflexivity|].
    vm_compute; discriminate. }
  split; [exact H|]. split; [vm_compute; reflexivity|].
  exact (proj1 (browser_state_stays_in_sync _ H) "f").
Defined.
